(** * Codesmith: session engine, output parsing and chunking

    A shallow embedding of the Python sources of [codesmith] and the
    properties of its natural-language specification.

    Conventions of the embedding.
    - A Python [str] is a [list ascii] ([str] below): one element per
      character, characters restricted to the 8-bit range.  [len],
      slicing, [rfind], [count], [strip], [lower], [startswith] and [in]
      are written out in [Module Py] with Python's results on that range.
    - [None] is [option]'s [None]; an exception is a value of [exn].
    - A dictionary keyed by user id is a [gmap str _]; a Python class is a
      module with its state record [t] and its methods.
    - The operating system (processes, descriptors, the file system) is an
      explicit [world] threaded through the operations that touch it. *)

From Stdlib Require Import ZArith List Ascii String Lia Bool PrimFloat.
From stdpp Require Import base gmap list strings.
Import ListNotations.

Open Scope Z_scope.

(** ** Python strings *)

Module Py.

Definition str := list ascii.

Definition lit (s : string) : str := list_ascii_of_string s.

Definition nl : ascii := ascii_of_nat 10.
Definition space : ascii := ascii_of_nat 32.
Definition backtick : ascii := ascii_of_nat 96.

(** [str.isspace] on one character (code points below 256). *)
Definition is_space (c : ascii) : bool :=
  let n := nat_of_ascii c in
  ((9 <=? n) && (n <=? 13) || (28 <=? n) && (n <=? 32)
   || (n =? 133) || (n =? 160))%nat.

(** [str.lower] on one character (code points below 256). *)
Definition lower_char (c : ascii) : ascii :=
  let n := nat_of_ascii c in
  if ((65 <=? n) && (n <=? 90)
      || (192 <=? n) && (n <=? 222) && negb (n =? 215))%nat
  then ascii_of_nat (n + 32) else c.

Definition lower (s : str) : str := map lower_char s.

(** [s.startswith(p)] *)
Fixpoint startswith (s p : str) {struct p} : bool :=
  match p with
  | [] => true
  | b :: p' =>
      match s with
      | [] => false
      | a :: s' => if Ascii.eqb a b then startswith s' p' else false
      end
  end.

(** [sub in s] *)
Fixpoint contains (s sub : str) : bool :=
  startswith s sub ||
  match s with
  | [] => false
  | _ :: s' => contains s' sub
  end.

(** [s.rfind(sub)]: the highest index at which [sub] occurs, [-1] when
    it does not occur. *)
Fixpoint rfind (s sub : str) : Z :=
  match s with
  | [] => if startswith [] sub then 0 else -1
  | _ :: s' =>
      let r := rfind s' sub in
      if 0 <=? r then r + 1
      else if startswith s sub then 0 else -1
  end.

(** [s.count(sub)] for a non-empty [sub]: occurrences counted from the
    left without overlap.  [skip] is the number of characters still
    covered by the last occurrence counted. *)
Fixpoint count_from (skip : nat) (s sub : str) : nat :=
  match s with
  | [] => 0
  | _ :: s' =>
      match skip with
      | S k => count_from k s' sub
      | O =>
          if startswith s sub
          then S (count_from (Nat.pred (length sub)) s' sub)
          else count_from 0 s' sub
      end
  end.

Definition count (s sub : str) : nat := count_from 0 s sub.

(** [s.lstrip()], [s.rstrip()], [s.strip()] *)
Fixpoint lstrip (s : str) : str :=
  match s with
  | c :: s' => if is_space c then lstrip s' else s
  | [] => []
  end.

Definition rstrip (s : str) : str := rev (lstrip (rev s)).

Definition strip (s : str) : str := lstrip (rstrip s).

(** ["\n".join(lines)] *)
Fixpoint join_lines (lines : list str) : str :=
  match lines with
  | [] => []
  | [l] => l
  | l :: rest => l ++ nl :: join_lines rest
  end.

(** [s.split("\n")]: always at least one line. *)
Fixpoint split_lines (s : str) : list str :=
  match s with
  | [] => [[]]
  | c :: s' =>
      if Ascii.eqb c nl then [] :: split_lines s'
      else
        match split_lines s' with
        | l :: ls => (c :: l) :: ls
        | [] => [[c]]
        end
  end.

End Py.

Export Py.

(** ** config.py *)

Module Config.

Definition DISCORD_MSG_LIMIT : nat := 2000.
Definition PTY_COLS : nat := 120.
Definition PTY_ROWS : nat := 40.

End Config.

(** ** output_parser.py: chunking *)

Module Chunking.

(** The two fence-repair markers and the four split patterns. *)
Definition fence : str := lit "```".
Definition fence_nl : str := fence ++ [nl].          (* "```\n" *)
Definition nl_fence : str := nl :: fence.            (* "\n```" *)
Definition para : str := [nl; nl].                   (* "\n\n" *)

(** Body of the loop up to the choice of [split_point]; [remaining] is
    longer than [limit] here. *)
Definition split_point (remaining : str) (limit : nat) : nat :=
  let chunk := take limit remaining in
  let half := Z.of_nat limit / 2 in
  let code_block_end := rfind chunk fence_nl in
  if half <? code_block_end then Z.to_nat (code_block_end + 4)
  else
    let para_break := rfind chunk para in
    if half <? para_break then Z.to_nat (para_break + 2)
    else
      let line_break := rfind chunk [nl] in
      if half <? line_break then Z.to_nat (line_break + 1)
      else
        let space_ix := rfind chunk [space] in
        if half <? space_ix then Z.to_nat (space_ix + 1)
        else limit.

(** The [while remaining:] loop.  [fuel] bounds the number of
    iterations; [None] means the bound was reached with the loop still
    running. *)
Fixpoint chunk_loop (fuel limit : nat) (remaining : str)
    (chunks : list str) : option (list str) :=
  match fuel with
  | O => None
  | S fuel' =>
      match remaining with
      | [] => Some chunks
      | _ :: _ =>
          if (length remaining <=? limit)%nat
          then Some (chunks ++ [remaining])
          else
            let sp := split_point remaining limit in
            let chunk_text := take sp remaining in
            let code_opens := count chunk_text fence in
            if Nat.odd code_opens
            then chunk_loop fuel' limit (fence_nl ++ drop sp remaining)
                   (chunks ++ [rstrip chunk_text ++ nl_fence])
            else chunk_loop fuel' limit (drop sp remaining)
                   (chunks ++ [chunk_text])
      end
  end.

Definition chunk_for_discord_fuel (fuel : nat) (text : str)
    (limit : nat) : option (list str) :=
  if (length text <=? limit)%nat
  then Some (match text with [] => [] | _ :: _ => [text] end)
  else chunk_loop fuel limit text [].

(** One iteration for each character is enough whenever the loop
    consumes input (Lemma [chunk_slices_terminates]). *)
Definition chunk_for_discord (text : str) (limit : nat)
    : option (list str) :=
  chunk_for_discord_fuel (S (length text)) text limit.

(** *** The slices behind the pieces

    A piece is a slice of [remaining], either as it is or, when its
    fence count is odd, stripped on the right and closed by a fence.
    [chunk_slices] is the loop again, keeping for each round the slice
    taken and whether it was repaired; [render] gives the piece that
    the loop appends for it (Lemma [chunk_loop_slices]). *)
Record slice := { raw : str; repaired : bool }.

Definition render (sl : slice) : str :=
  if repaired sl then rstrip (raw sl) ++ nl_fence else raw sl.

Fixpoint chunk_slices (fuel limit : nat) (remaining : str)
    : option (list slice) :=
  match fuel with
  | O => None
  | S fuel' =>
      match remaining with
      | [] => Some []
      | _ :: _ =>
          if (length remaining <=? limit)%nat
          then Some [{| raw := remaining; repaired := false |}]
          else
            let sp := split_point remaining limit in
            let chunk_text := take sp remaining in
            if Nat.odd (count chunk_text fence)
            then cons {| raw := chunk_text; repaired := true |}
                   <$> chunk_slices fuel' limit
                         (fence_nl ++ drop sp remaining)
            else cons {| raw := chunk_text; repaired := false |}
                   <$> chunk_slices fuel' limit (drop sp remaining)
      end
  end.


End Chunking.

Export Chunking.

(** ** output_parser.py: ANSI stripping and formatting *)

Module OutputText.

Definition esc : ascii := ascii_of_nat 27.
Definition bel : ascii := ascii_of_nat 7.

(** The character classes [[0-9;]] and [[a-zA-Z]]. *)
Definition is_csi_param (c : ascii) : bool :=
  let n := nat_of_ascii c in
  ((48 <=? n) && (n <=? 57) || (n =? 59))%nat.

Definition is_ascii_letter (c : ascii) : bool :=
  let n := nat_of_ascii c in
  ((65 <=? n) && (n <=? 90) || (97 <=? n) && (n <=? 122))%nat.

(** A pattern is given by the length of its match at the start of a
    string, if there is one. *)
Definition pattern := str -> option nat.

(** [[0-9;]*[a-zA-Z]] *)
Fixpoint csi_rest (s : str) : option nat :=
  match s with
  | [] => None
  | c :: s' =>
      if is_csi_param c then S <$> csi_rest s'
      else if is_ascii_letter c then Some 1%nat
      else None
  end.

(** [ANSI_ESCAPE = \x1b\[[0-9;]*[a-zA-Z]] *)
Definition ANSI_ESCAPE : pattern := fun s =>
  match s with
  | e :: b :: rest =>
      if Ascii.eqb e esc && Ascii.eqb b (ascii_of_nat 91)
      then (fun n => S (S n)) <$> csi_rest rest
      else None
  | _ => None
  end.

(** [[^\x07]*\x07] *)
Fixpoint osc_rest (s : str) : option nat :=
  match s with
  | [] => None
  | c :: s' => if Ascii.eqb c bel then Some 1%nat else S <$> osc_rest s'
  end.

(** [ANSI_OSC = \x1b\][^\x07]*\x07] *)
Definition ANSI_OSC : pattern := fun s =>
  match s with
  | e :: b :: rest =>
      if Ascii.eqb e esc && Ascii.eqb b (ascii_of_nat 93)
      then (fun n => S (S n)) <$> osc_rest rest
      else None
  | _ => None
  end.

(** [pattern.sub("", s)]: the matches are looked for from the left and
    do not overlap.  [skip] is the number of characters still covered by
    the match being removed. *)
Fixpoint sub_empty (p : pattern) (skip : nat) (s : str) : str :=
  match s with
  | [] => []
  | c :: s' =>
      match skip with
      | S k => sub_empty p k s'
      | O =>
          match p s with
          | Some (S n) => sub_empty p n s'
          | _ => c :: sub_empty p 0 s'
          end
      end
  end.

Definition strip_ansi (text : str) : str :=
  sub_empty ANSI_OSC 0 (sub_empty ANSI_ESCAPE 0 text).

(** The line starts that make output look like a terminal's. *)
Definition terminal_prompts : list str :=
  [lit "$"; lit ">"; lit ">>>"; lit "#"; lit "claude>"].

Definition format_for_discord (text : str) : str :=
  match text with
  | [] => []
  | _ :: _ =>
      if startswith text fence then text
      else
        let lines := split_lines text in
        let looks_like_terminal :=
          existsb (fun line => existsb (startswith line) terminal_prompts)
            (take 5 lines) in
        if looks_like_terminal || (3 <? length lines)%nat
        then fence_nl ++ text ++ nl_fence
        else text
  end.

(** The chunks that [_send_output] of bot.py sends for [content] when
    every send succeeds. *)
Definition _send_output (content : str) : option (list str) :=
  match strip content with
  | [] => Some []
  | _ :: _ =>
      chunk_for_discord (format_for_discord content)
        Config.DISCORD_MSG_LIMIT
  end.

End OutputText.

(** ** output_parser.py: terminal screen, status line, delta buffer *)

(** [pyte.Screen] with its [pyte.Stream] is an external library.  The
    embedding takes it as an interface: a screen is created for a
    geometry, consumes raw bytes (the UTF-8 decoding with replacement and
    the [try/except] around [stream.feed] are part of [screen_feed]),
    shows its rows and can be reset. *)
Class PyteScreen (S : Type) := {
  screen_new : nat -> nat -> S;
  screen_feed : S -> str -> S;
  screen_display : S -> list str;
  screen_reset : S -> S
}.

Record ParsedOutput := {
  po_content : str;
  po_statusbar : option str;
  po_raw : str
}.

(** *** output_parser.py: [parse_output] *)

Module ParseOutput.

(** [\d] on one character (code points below 256). *)
Definition is_digit (c : ascii) : bool :=
  let n := nat_of_ascii c in ((48 <=? n) && (n <=? 57))%nat.

(** The length of the run of digits a string starts with. *)
Fixpoint digits_len (s : str) : nat :=
  match s with
  | c :: s' => if is_digit c then S (digits_len s') else 0
  | [] => 0
  end.

(** [ANSI_CURSOR_POSITION = \x1b\[(\d+);(\d+)H]: the length of the
    match at the start of a string, with its first group. *)
Definition ANSI_CURSOR_POSITION (s : str) : option (nat * str) :=
  match s with
  | e :: b :: rest =>
      if Ascii.eqb e OutputText.esc && Ascii.eqb b (ascii_of_nat 91) then
        let n1 := digits_len rest in
        match n1, drop n1 rest with
        | S _, semi :: rest2 =>
            if Ascii.eqb semi (ascii_of_nat 59) then
              let n2 := digits_len rest2 in
              match n2, drop n2 rest2 with
              | S _, h :: _ =>
                  if Ascii.eqb h (ascii_of_nat 72)
                  then Some ((n1 + n2 + 4)%nat, take n1 rest)
                  else None
              | _, _ => None
              end
            else None
        | _, _ => None
        end
      else None
  | _ => None
  end.

(** [list(ANSI_CURSOR_POSITION.finditer(text))[-1]], by its first group
    and the text behind its end; [found] is the last match so far. *)
Fixpoint last_cursor (skip : nat) (s : str) (found : option (str * str))
    : option (str * str) :=
  match s with
  | [] => found
  | _ :: s' =>
      match skip with
      | S k => last_cursor k s' found
      | O =>
          match ANSI_CURSOR_POSITION s with
          | Some (S n, row) =>
              last_cursor n s' (Some (row, drop (S n) s))
          | _ => last_cursor 0 s' found
          end
      end
  end.

(** [int(digits)] *)
Definition int_of_digits (digits : str) : Z :=
  fold_left (fun n c => 10 * n + (Z.of_nat (nat_of_ascii c) - 48))
    digits 0.

(** [s.replace(old, "")] for a non-empty [old]. *)
Fixpoint remove_all (skip : nat) (s old : str) : str :=
  match s with
  | [] => []
  | c :: s' =>
      match skip with
      | S k => remove_all k s' old
      | O =>
          if startswith s old
          then remove_all (Nat.pred (length old)) s' old
          else c :: remove_all 0 s' old
      end
  end.

(** [parse_output]; [decode] stands for
    [bytes.decode("utf-8", errors="replace")], which does not raise. *)
Definition parse_output (decode : str -> str) (data : str)
    : ParsedOutput :=
  let text := decode data in
  let clean_text := OutputText.strip_ansi text in
  let '(clean_text, statusbar) :=
    match last_cursor 0 text None with
    | Some (row, after_cursor) =>
        if Z.of_nat Config.PTY_ROWS - 5 <? int_of_digits row then
          let statusbar_text := strip (OutputText.strip_ansi after_cursor) in
          match statusbar_text with
          | _ :: _ =>
              (strip (remove_all 0 clean_text statusbar_text),
               Some statusbar_text)
          | [] => (clean_text, None)
          end
        else (clean_text, None)
    | None => (clean_text, None)
    end in
  {| po_content := strip clean_text;
     po_statusbar := statusbar;
     po_raw := data |}.

End ParseOutput.

Module TerminalEmulator.

(** The indicators looked for in the last row. *)
Definition statusbar_keywords : list str :=
  [lit "token"; lit "cost"; lit "model"; lit "context"; lit "$";
   lit "sonnet"; lit "opus"; lit "haiku"].

(** [while lines and not lines[-1]: lines.pop()] *)
Fixpoint pop_trailing_empty (lines : list str) : list str :=
  match lines with
  | [] => []
  | l :: rest =>
      match pop_trailing_empty rest, l with
      | [], [] => []
      | rest', _ => l :: rest'
      end
  end.

(** The body of [get_content], on the rows of [screen.display]. *)
Definition content_of_display (display : list str) : str :=
  join_lines (pop_trailing_empty (map rstrip display)).

(** The body of [get_statusbar], on the rows of [screen.display]. *)
Definition statusbar_of_display (display : list str) : option str :=
  match last display with
  | Some row =>
      let last_line := strip row in
      if existsb (fun x => contains (lower last_line) x)
           statusbar_keywords
      then Some last_line
      else None
  | None => None
  end.

Section WithScreen.
Context {S : Type} `{PyteScreen S}.

Record t := { screen : S }.

Definition init : t :=
  {| screen := screen_new Config.PTY_COLS Config.PTY_ROWS |}.

Definition feed (e : t) (data : str) : t :=
  {| screen := screen_feed (screen e) data |}.

Definition get_display (e : t) : list str :=
  screen_display (screen e).

Definition get_content (e : t) : str :=
  content_of_display (screen_display (screen e)).

Definition get_statusbar (e : t) : option str :=
  statusbar_of_display (screen_display (screen e)).

Definition reset (e : t) : t :=
  {| screen := screen_reset (screen e) |}.

End WithScreen.

Arguments t S : clear implicits.

End TerminalEmulator.

Module OutputBuffer.

Section WithScreen.
Context {S : Type} `{PyteScreen S}.

Record t := {
  _buffer : str;
  _emulator : TerminalEmulator.t S;
  _last_content : str;
  _last_statusbar : option str
}.

Definition init : t :=
  {| _buffer := [];
     _emulator := TerminalEmulator.init;
     _last_content := [];
     _last_statusbar := None |}.

(** [new_content] of [feed]: the delta before the final [strip()]. *)
Definition new_content (last_content current_content : str) : str :=
  if startswith current_content last_content
  then drop (length last_content) current_content
  else current_content.

Definition feed (b : t) (data : str) : ParsedOutput * t :=
  let emulator := TerminalEmulator.feed (_emulator b) data in
  let current_content := TerminalEmulator.get_content emulator in
  let current_statusbar := TerminalEmulator.get_statusbar emulator in
  let delta := new_content (_last_content b) current_content in
  ({| po_content := strip delta;
      po_statusbar := current_statusbar;
      po_raw := data |},
   {| _buffer := _buffer b ++ data;
      _emulator := emulator;
      _last_content := current_content;
      _last_statusbar := current_statusbar |}).

Definition get_full_content (b : t) : str := _last_content b.

Definition get_statusbar (b : t) : option str := _last_statusbar b.

Definition clear (b : t) : t :=
  {| _buffer := [];
     _emulator := TerminalEmulator.reset (_emulator b);
     _last_content := [];
     _last_statusbar := None |}.

End WithScreen.

Arguments t S : clear implicits.

End OutputBuffer.

(** *** A screen to evaluate examples on

    A fixed grid with a cursor that understands printable characters,
    carriage return and line feed, with pyte's behaviour on those: a
    character is drawn at the cursor and moves it right, wrapping to the
    next row at the right margin; CR returns to column 0; LF moves one row
    down in the same column and scrolls at the bottom.  All other bytes
    are ignored here (pyte interprets them), so only streams of printable
    characters, CR and LF are evaluated on it. *)
Module GridScreen.

Record t := {
  cols : nat;
  rows : nat;
  grid : list str;
  cx : nat;
  cy : nat
}.

Definition cr : ascii := ascii_of_nat 13.

Definition blank_row (c : nat) : str := repeat space c.

Definition new (c r : nat) : t :=
  {| cols := c; rows := r; grid := repeat (blank_row c) r;
     cx := 0; cy := 0 |}.

Definition carriage_return (s : t) : t :=
  {| cols := cols s; rows := rows s; grid := grid s;
     cx := 0; cy := cy s |}.

Definition linefeed (s : t) : t :=
  if (S (cy s) <? rows s)%nat
  then {| cols := cols s; rows := rows s; grid := grid s;
          cx := cx s; cy := S (cy s) |}
  else {| cols := cols s; rows := rows s;
          grid := drop 1 (grid s) ++ [blank_row (cols s)];
          cx := cx s; cy := cy s |}.

Definition put (s : t) (c : ascii) : t :=
  {| cols := cols s; rows := rows s;
     grid := alter (fun row => <[cx s := c]> row) (cy s) (grid s);
     cx := Nat.min (S (cx s)) (cols s); cy := cy s |}.

Definition draw (s : t) (c : ascii) : t :=
  if (cx s =? cols s)%nat
  then put (linefeed (carriage_return s)) c
  else put s c.

Definition feed_char (s : t) (c : ascii) : t :=
  let n := nat_of_ascii c in
  if (n =? 13)%nat then carriage_return s
  else if (n =? 10)%nat then linefeed s
  else if ((32 <=? n) && (n <=? 126))%nat then draw s c
  else s.

Definition feed (s : t) (data : str) : t := fold_left feed_char data s.

Definition reset (s : t) : t := new (cols s) (rows s).

End GridScreen.

#[export] Instance grid_screen : PyteScreen GridScreen.t := {
  screen_new := GridScreen.new;
  screen_feed := GridScreen.feed;
  screen_display := GridScreen.grid;
  screen_reset := GridScreen.reset
}.

(** ** Exceptions and results *)

Inductive exn :=
| RuntimeError (msg : str)
| ValueError (msg : str)
| TypeError (msg : str)
| CancelledError
| GeneratorExit.

Inductive result (A : Type) :=
| Ok (a : A)
| Raise (e : exn).

Arguments Ok {A} a.
Arguments Raise {A} e.

#[export] Instance result_ret : MRet result := fun A a => Ok a.

#[export] Instance result_bind : MBind result := fun A B k r =>
  match r with
  | Ok a => k a
  | Raise e => Raise e
  end.

(** [try: body finally: cleanup] over a state [St]: the cleanup runs on
    the state the body left, whether the body returned or raised; the
    outcome [R] of the body is passed on. *)
Definition try_finally {St R} (body : R * St) (cleanup : St -> St)
    : R * St :=
  (body.1, cleanup body.2).

(** A call with [given] positional arguments of a function whose
    parameters [params] have no defaults: Python raises [TypeError]
    before the body runs unless there is one argument per parameter. *)
Definition call_positional {A} (name : str) (params : list str)
    (given : nat) (body : result A) : result A :=
  if (given =? length params)%nat then body
  else Raise (TypeError name).

(** ** The operating system

    Paths are lists of components below the root.  The file system maps
    the paths that exist to what is there; of a file the engine only
    ever asks whether it holds valid OAuth credentials.  Processes are
    numbered; how a child behaves (what it prints, how it exits, whether
    it honours SIGTERM within the grace period) belongs to the
    environment and is given by [children].  Failures of the operating
    system itself (a full process table, a read-only disk) are not part
    of the model. *)

Definition path := list str.

Inductive node :=
| Dir
| File (valid_oauth_credentials : bool)
| Symlink (target : path).

Inductive pstatus :=
| Running
| Exited (returncode : Z).

#[export] Instance pstatus_eq_dec : EqDecision pstatus.
Proof. solve_decision. Defined.

(** ** auth.py: the authentication method *)

Inductive AuthMethod := OAUTH | API_KEY | NONE.

#[export] Instance AuthMethod_eq_dec : EqDecision AuthMethod.
Proof. solve_decision. Defined.

(** ** stream_handler.py: decoded lines and events *)

(** A line of the child's standard output after [json.loads], seen
    through the keys that [_parse_event] and [format_tool_use] read, with
    the value types of the stream-json format.  An absent key is [None].
    An entry of a content list that is not an object is [None]. *)
Record Block := {
  b_type : option str;
  b_text : option str;
  b_name : option str
}.

Inductive Message :=
| MsgAbsent
| MsgObject (content : list (option Block))
| MsgText (s : str).

Record ErrorObject := {
  e_message : option str;
  e_str : str                      (* str(error) *)
}.

Record Decoded := {
  j_type : option str;
  j_message : Message;
  j_delta_text : option str;       (* data["delta"]["text"] *)
  j_result : option str;
  j_error : option ErrorObject;
  j_session_id : option str;
  j_usage_input_tokens : option Z;
  j_usage_output_tokens : option Z;
  j_cost_usd : option float;
  j_model : option str
}.

(** The empty object [{}]. *)
Definition empty_object : Decoded :=
  {| j_type := None; j_message := MsgAbsent; j_delta_text := None;
     j_result := None; j_error := None; j_session_id := None;
     j_usage_input_tokens := None; j_usage_output_tokens := None;
     j_cost_usd := None; j_model := None |}.

Module StreamEvent.

Record t := {
  type : str;
  content : str;
  raw : Decoded;
  session_id : option str;
  model : option str;
  input_tokens : Z;
  output_tokens : Z;
  cost_usd : float
}.

(** [StreamEvent(type=ty, content=c, raw=r)] with the defaults of the
    dataclass for the metadata. *)
Definition make (ty c : str) (r : Decoded) : t :=
  {| type := ty; content := c; raw := r;
     session_id := None; model := None;
     input_tokens := 0; output_tokens := 0; cost_usd := 0%float |}.

End StreamEvent.

(** Truth value of an optional string: neither [None] nor empty. *)
Definition truthy (s : option str) : bool :=
  match s with
  | Some (_ :: _) => true
  | _ => false
  end.

Definition str_eqb (a b : str) : bool := bool_decide (a = b).

(** A child process as the environment determines it. *)
Record child := {
  c_stdout : list (option Decoded);  (* non-blank lines; None: not JSON *)
  c_stderr : str;
  c_returncode : Z;
  c_honours_sigterm : bool
}.

Record proc := {
  p_owner : str;
  p_argv : list str;
  p_cwd : path;
  p_HOME : option path;
  p_ANTHROPIC_API_KEY : option str;
  p_status : pstatus
}.

Record world := {
  ANTHROPIC_API_KEY : option str;     (* config.ANTHROPIC_API_KEY *)
  WORKSPACE_BASE : path;              (* config.WORKSPACE_BASE *)
  fs : gmap path node;
  procs : gmap nat proc;
  next_pid : nat;
  open_fds : gset nat;
  next_fd : nat;
  tasks : gset nat;                   (* asyncio tasks still scheduled *)
  next_task : nat;
  children : nat -> child;
  now : nat
}.

(** *** File-system and process primitives *)

Module OS.

(** [p / name]; pathlib drops an empty component. *)
Definition join (p : path) (name : str) : path :=
  match name with
  | [] => p
  | _ :: _ => p ++ [name]
  end.

(** [p.exists()] *)
Definition exists_ (w : world) (p : path) : bool :=
  bool_decide (is_Some (fs w !! p)).

Definition with_fs (w : world) (f : gmap path node) : world :=
  {| ANTHROPIC_API_KEY := ANTHROPIC_API_KEY w;
     WORKSPACE_BASE := WORKSPACE_BASE w;
     fs := f; procs := procs w; next_pid := next_pid w;
     open_fds := open_fds w; next_fd := next_fd w;
     tasks := tasks w; next_task := next_task w;
     children := children w; now := now w |}.

Definition with_procs (w : world) (ps : gmap nat proc) (np : nat)
    : world :=
  {| ANTHROPIC_API_KEY := ANTHROPIC_API_KEY w;
     WORKSPACE_BASE := WORKSPACE_BASE w;
     fs := fs w; procs := ps; next_pid := np;
     open_fds := open_fds w; next_fd := next_fd w;
     tasks := tasks w; next_task := next_task w;
     children := children w; now := now w |}.

Definition with_fds (w : world) (fds : gset nat) (nf : nat) : world :=
  {| ANTHROPIC_API_KEY := ANTHROPIC_API_KEY w;
     WORKSPACE_BASE := WORKSPACE_BASE w;
     fs := fs w; procs := procs w; next_pid := next_pid w;
     open_fds := fds; next_fd := nf;
     tasks := tasks w; next_task := next_task w;
     children := children w; now := now w |}.

Definition with_tasks (w : world) (ts : gset nat) (nt : nat) : world :=
  {| ANTHROPIC_API_KEY := ANTHROPIC_API_KEY w;
     WORKSPACE_BASE := WORKSPACE_BASE w;
     fs := fs w; procs := procs w; next_pid := next_pid w;
     open_fds := open_fds w; next_fd := next_fd w;
     tasks := ts; next_task := nt;
     children := children w; now := now w |}.

(** [p.mkdir(exist_ok=True)]: nothing happens when [p] is there. *)
Definition mkdir (w : world) (p : path) : world :=
  match fs w !! p with
  | Some _ => w
  | None => with_fs w (<[p := Dir]> (fs w))
  end.

(** [p.mkdir(parents=True, exist_ok=True)]: [p] and every missing
    ancestor, the shortest path first. *)
Definition mkdir_parents (w : world) (p : path) : world :=
  fold_left (fun w' n => mkdir w' (take n p)) (seq 1 (length p)) w.

(** [shutil.rmtree(p)]: [p] and everything below it. *)
Definition rmtree (w : world) (p : path) : world :=
  with_fs w (filter (fun kv => ¬ p `prefix_of` kv.1) (fs w)).

(** [link.symlink_to(target)] *)
Definition symlink_to (w : world) (link target : path) : world :=
  with_fs w (<[link := Symlink target]> (fs w)).

(** A new child process; its number is returned. *)
Definition spawn (w : world) (p : proc) : nat * world :=
  (next_pid w, with_procs w (<[next_pid w := p]> (procs w))
                 (S (next_pid w))).

(** [process.poll()] / [process.returncode]: [None] while running.  A
    number that names no process reads as exited. *)
Definition returncode (w : world) (pid : nat) : option Z :=
  match procs w !! pid with
  | Some p =>
      match p_status p with
      | Running => None
      | Exited rc => Some rc
      end
  | None => Some 0
  end.

Definition running (w : world) (pid : nat) : bool :=
  bool_decide (returncode w pid = None).

Definition set_status (w : world) (pid : nat) (st : pstatus) : world :=
  with_procs w
    (alter (fun p =>
              {| p_owner := p_owner p; p_argv := p_argv p;
                 p_cwd := p_cwd p; p_HOME := p_HOME p;
                 p_ANTHROPIC_API_KEY := p_ANTHROPIC_API_KEY p;
                 p_status := st |}) pid (procs w))
    (next_pid w).

(** [process.terminate()], a wait bounded by the grace period, and
    [process.kill()] when the wait times out: a child that honours
    SIGTERM exits with -15, any other one is killed and exits with -9.
    A child that has already exited keeps its return code. *)
Definition terminate_wait_kill (w : world) (pid : nat) : world :=
  if running w pid
  then if c_honours_sigterm (children w pid)
       then set_status w pid (Exited (-15))
       else set_status w pid (Exited (-9))
  else w.

(** The child runs to its end: [await process.wait()]. *)
Definition wait (w : world) (pid : nat) : world :=
  if running w pid
  then set_status w pid (Exited (c_returncode (children w pid)))
  else w.

(** [asyncio.create_task(...)] *)
Definition create_task (w : world) : nat * world :=
  (next_task w,
   with_tasks w ({[next_task w]} ∪ tasks w) (S (next_task w))).

(** [task.cancel()] followed by awaiting the task. *)
Definition cancel_task (w : world) (task : nat) : world :=
  with_tasks w (tasks w ∖ {[task]}) (next_task w).

(** The processes of [user] that are still running. *)
Definition live_transports (w : world) (user : str) : list nat :=
  (map_to_list
     (filter (fun kv => p_owner kv.2 = user ∧ p_status kv.2 = Running)
        (procs w))).*1.

(** [p.parent] *)
Definition parent (p : path) : path := take (Nat.pred (length p)) p.

(** [open(p, "w")] with what is written, once closed. *)
Definition write_file (w : world) (p : path) (content : node) : world :=
  with_fs w (<[p := content]> (fs w)).

(** [p.unlink()] *)
Definition unlink (w : world) (p : path) : world :=
  with_fs w (delete p (fs w)).


End OS.

Module ConfigFns.

(** [c.isalnum()] on one character (code points below 256). *)
Definition is_alnum (c : ascii) : bool :=
  let n := nat_of_ascii c in
  ((48 <=? n) && (n <=? 57) || (65 <=? n) && (n <=? 90)
   || (97 <=? n) && (n <=? 122)
   || (n =? 170) || (n =? 178) || (n =? 179) || (n =? 181)
   || (n =? 185) || (n =? 186) || (188 <=? n) && (n <=? 190)
   || (192 <=? n) && (n <=? 214) || (216 <=? n) && (n <=? 246)
   || (248 <=? n) && (n <=? 255))%nat.

Definition safe_char (c : ascii) : bool :=
  is_alnum c || bool_decide (c ∈ lit "-_").

Definition get_user_workspace (w : world) (user_id : str) : path :=
  let safe_id := List.filter safe_char user_id in
  OS.join (WORKSPACE_BASE w) safe_id.

Definition ensure_workspace (w : world) (user_id : str)
    : path * world :=
  let workspace := get_user_workspace w user_id in
  (workspace, OS.mkdir_parents w workspace).

End ConfigFns.

(** ** auth.py *)

Module Auth.

Definition get_credentials_path (w : world) (user_id : str) : path :=
  ConfigFns.get_user_workspace w user_id
    ++ [lit ".claude"; lit ".credentials.json"].

(** The file exists, loads and validates. *)
Definition has_valid_credentials (w : world) (user_id : str) : bool :=
  match fs w !! get_credentials_path w user_id with
  | Some (File valid) => valid
  | _ => false
  end.

Definition get_auth_method (w : world) (user_id : str) : AuthMethod :=
  if has_valid_credentials w user_id then OAUTH
  else if truthy (ANTHROPIC_API_KEY w) then API_KEY
  else NONE.

(** A value as [json.loads] gives it; an object by its members, each
    key once.  The validation below looks two levels into a value and
    no further, so case analysis is all that is needed of this type. *)
#[local] Unset Elimination Schemes.
Inductive json :=
| JNull
| JBool (b : bool)
| JInt (n : Z)
| JFloat (x : float)
| JStr (s : str)
| JArr (items : list json)
| JObj (members : list (str * json)).
#[local] Set Elimination Schemes.

(** [d[key]] for a dictionary, [None] for a key that is not in it. *)
Definition obj_get (members : list (str * json)) (key : str)
    : option json :=
  snd <$> List.find (fun kv => str_eqb kv.1 key) members.

(** [key == item] for an item of a list. *)
Definition is_str (key : str) (item : json) : bool :=
  match item with
  | JStr s => str_eqb s key
  | _ => false
  end.

(** [type(j).__name__] *)
Definition type_name (j : json) : str :=
  match j with
  | JNull => lit "NoneType"
  | JBool _ => lit "bool"
  | JInt _ => lit "int"
  | JFloat _ => lit "float"
  | JStr _ => lit "str"
  | JArr _ => lit "list"
  | JObj _ => lit "dict"
  end.

(** The errors of [key in j] for a [j] that holds nothing, and of
    [j[key]] for a list and for a string (Python 3.11). *)
Definition not_iterable (j : json) : exn :=
  TypeError (lit "argument of type '" ++ type_name j
               ++ lit "' is not iterable").

Definition list_indices : exn :=
  TypeError (lit "list indices must be integers or slices, not str").

Definition string_indices : exn :=
  TypeError (lit "string indices must be integers, not 'str'").

Definition required_keys : list str :=
  [lit "accessToken"; lit "refreshToken"; lit "expiresAt"].

(** [isinstance(v, str) and v] *)
Definition nonempty_str (v : json) : bool :=
  match v with
  | JStr (_ :: _) => true
  | _ => false
  end.

(** [isinstance(v, int | float)]; [bool] is a subclass of [int]. *)
Definition is_number (v : json) : bool :=
  match v with
  | JInt _ | JFloat _ | JBool _ => true
  | _ => false
  end.

(** [validate_credentials_json] on what [json.loads] made of the
    stripped string, [None] when that raised [JSONDecodeError].  The
    tests [key not in ...] and the subscripts that follow them are
    written out for each kind of value: a list or a string that holds
    the keys passes the tests and cannot be subscripted by them. *)
Definition validate_credentials_json (parsed : option json)
    : result (option json) :=
  match parsed with
  | None => Ok None
  | Some data =>
      match data with
      | JObj members =>
          match obj_get members (lit "claudeAiOauth") with
          | None => Ok None
          | Some oauth =>
              match oauth with
              | JObj fields =>
                  match obj_get fields (lit "accessToken"),
                        obj_get fields (lit "refreshToken"),
                        obj_get fields (lit "expiresAt") with
                  | Some access, Some refresh, Some expires =>
                      if negb (nonempty_str access) then Ok None
                      else if negb (nonempty_str refresh) then Ok None
                      else if negb (is_number expires) then Ok None
                      else Ok (Some data)
                  | _, _, _ => Ok None
                  end
              | JArr items =>
                  if forallb (fun key => existsb (is_str key) items)
                       required_keys
                  then Raise list_indices else Ok None
              | JStr s =>
                  if forallb (contains s) required_keys
                  then Raise string_indices else Ok None
              | JNull | JBool _ | JInt _ | JFloat _ =>
                  Raise (not_iterable oauth)
              end
          end
      | JArr items =>
          if existsb (is_str (lit "claudeAiOauth")) items
          then Raise list_indices else Ok None
      | JStr s =>
          if contains s (lit "claudeAiOauth")
          then Raise string_indices else Ok None
      | JNull | JBool _ | JInt _ | JFloat _ => Raise (not_iterable data)
      end
  end.

(** Whether [has_valid_credentials] accepts a file that holds
    [credentials]: [json.dump] and [json.load] give the value back. *)
Definition validates (credentials : json) : bool :=
  match validate_credentials_json (Some credentials) with
  | Ok (Some _) => true
  | _ => false
  end.

(** [store_credentials]; permissions are not part of the file
    system here. *)
Definition store_credentials (w : world) (user_id : str)
    (credentials : json) : path * world :=
  let creds_path := get_credentials_path w user_id in
  let w := OS.mkdir_parents w (OS.parent creds_path) in
  (creds_path,
   OS.write_file w creds_path (File (validates credentials))).

Definition delete_credentials (w : world) (user_id : str)
    : bool * world :=
  let creds_path := get_credentials_path w user_id in
  if OS.exists_ w creds_path then (true, OS.unlink w creds_path)
  else (false, w).


End Auth.

(** ** sandbox_runner.py *)

Module SandboxRunner.

(** [get_bwrap_command] only composes an argument list from what
    [shutil.which] and [npm config get prefix] report; the list plays no
    part below and is kept as the fixed tail of the real one. *)
Definition get_bwrap_command (user_id : str) (workspace_path : path)
    : list str :=
  [lit "/usr/bin/bwrap"; lit "--die-with-parent"; lit "--";
   lit "claude"; lit "--dangerously-skip-permissions"].

(** [def setup_sandbox(user_id: str)] *)
Definition setup_sandbox_params : list str := [lit "user_id"].

Definition setup_sandbox (w : world) (user_id : str)
    : (path * list str) * world :=
  let '(workspace, w1) := ConfigFns.ensure_workspace w user_id in
  let claude_dir := OS.join workspace (lit ".claude") in
  let w2 := OS.mkdir w1 claude_dir in
  let cmd := get_bwrap_command user_id workspace in
  ((workspace, cmd), w2).

Definition cleanup_sandbox (w : world) (user_id : str)
    (remove_workspace : bool) : world :=
  let workspace := ConfigFns.get_user_workspace w user_id in
  if remove_workspace && OS.exists_ w workspace
  then OS.rmtree w workspace
  else if OS.exists_ w workspace
  then
    let tmp_dir := OS.join workspace (lit "tmp") in
    if OS.exists_ w tmp_dir then OS.rmtree w tmp_dir else w
  else w.

End SandboxRunner.

(** ** stream_handler.py: the streaming session *)

Module StreamSession.

Record t := {
  user_id : str;
  workspace : path;
  auth_method : AuthMethod;
  session_id : option str;
  process : option nat;
  created_at : nat;
  last_activity : nat;
  total_input_tokens : Z;
  total_output_tokens : Z;
  total_cost_usd : float;
  model : option str
}.

Definition with_process (s : t) (p : option nat) : t :=
  {| user_id := user_id s; workspace := workspace s;
     auth_method := auth_method s; session_id := session_id s;
     process := p; created_at := created_at s;
     last_activity := last_activity s;
     total_input_tokens := total_input_tokens s;
     total_output_tokens := total_output_tokens s;
     total_cost_usd := total_cost_usd s; model := model s |}.

Definition with_last_activity (s : t) (n : nat) : t :=
  {| user_id := user_id s; workspace := workspace s;
     auth_method := auth_method s; session_id := session_id s;
     process := process s; created_at := created_at s;
     last_activity := n;
     total_input_tokens := total_input_tokens s;
     total_output_tokens := total_output_tokens s;
     total_cost_usd := total_cost_usd s; model := model s |}.

Definition is_busy (s : t) (w : world) : bool :=
  match process s with
  | Some pid => OS.running w pid
  | None => false
  end.

Definition _build_command (s : t) (prompt : str)
    (continue_session : bool) : list str :=
  let cmd := [lit "claude"; lit "-p"; prompt; lit "--output-format";
              lit "stream-json"; lit "--dangerously-skip-permissions"] in
  match session_id s with
  | Some (c :: sid) =>
      if continue_session then cmd ++ [lit "--continue"; c :: sid]
      else cmd
  | _ => cmd
  end.

(** The two variables [_build_env] sets on top of [os.environ]. *)
Definition _build_env (s : t) (w : world) : path * option str :=
  (OS.join (workspace s) (lit ".home"),
   if bool_decide (auth_method s = API_KEY) && truthy (ANTHROPIC_API_KEY w)
   then ANTHROPIC_API_KEY w else None).

(** [_parse_event]: [None] for a line that is not JSON. *)
Definition _parse_event (line : option Decoded)
    : option StreamEvent.t :=
  match line with
  | None => None
  | Some data =>
      let event_type := default (lit "unknown") (j_type data) in
      let content :=
        if str_eqb event_type (lit "assistant") then
          match j_message data with
          | MsgObject content_blocks =>
              fold_left
                (fun content block =>
                   match block with
                   | Some b =>
                       if bool_decide (b_type b = Some (lit "text"))
                       then content ++ default [] (b_text b)
                       else content
                   | None => content
                   end)
                content_blocks []
          | MsgText s => s
          | MsgAbsent => []
          end
        else if str_eqb event_type (lit "content_block_delta") then
          default [] (j_delta_text data)
        else if str_eqb event_type (lit "result") then
          default [] (j_result data)
        else if str_eqb event_type (lit "error") then
          match j_error data with
          | Some err => default (e_str err) (e_message err)
          | None => []
          end
        else if str_eqb event_type (lit "system") then
          match j_message data with
          | MsgText s => s
          | MsgAbsent => []
          | MsgObject _ => []   (* not a line of the format *)
          end
        else []
      in
      let event := StreamEvent.make event_type content data in
      Some
        (if str_eqb event_type (lit "result") then
           {| StreamEvent.type := event_type;
              StreamEvent.content := content;
              StreamEvent.raw := data;
              StreamEvent.session_id := j_session_id data;
              StreamEvent.model := j_model data;
              StreamEvent.input_tokens :=
                default 0 (j_usage_input_tokens data);
              StreamEvent.output_tokens :=
                default 0 (j_usage_output_tokens data);
              StreamEvent.cost_usd := default 0%float (j_cost_usd data) |}
         else event)
  end.

(** [_read_events]: the events parsed from what the child prints, the
    wait for its exit, and the error event made from a non-empty
    standard error. *)
Definition _read_events (s : t) (w : world)
    : list StreamEvent.t * world :=
  match process s with
  | None => ([], w)
  | Some pid =>
      let c := children w pid in
      let parsed := omap _parse_event (c_stdout c) in
      let w' := OS.wait w pid in
      (parsed ++
         match c_stderr c with
         | [] => []
         | _ :: _ =>
             [StreamEvent.make (lit "error") (c_stderr c) empty_object]
         end,
       w')
  end.

(** The body of the [async for] of [send_message] for one event, up to
    the [yield]. *)
Definition on_event (s : t) (event : StreamEvent.t) (w : world) : t :=
  let s := with_last_activity s (now w) in
  if str_eqb (StreamEvent.type event) (lit "result")
     && truthy (StreamEvent.session_id event)
  then
    {| user_id := user_id s; workspace := workspace s;
       auth_method := auth_method s;
       session_id := StreamEvent.session_id event;
       process := process s; created_at := created_at s;
       last_activity := last_activity s;
       total_input_tokens :=
         total_input_tokens s + StreamEvent.input_tokens event;
       total_output_tokens :=
         total_output_tokens s + StreamEvent.output_tokens event;
       total_cost_usd :=
         (total_cost_usd s + StreamEvent.cost_usd event)%float;
       model := if truthy (StreamEvent.model event)
                then StreamEvent.model event else model s |}
  else s.

(** How the iteration over the generator ends: it is exhausted, or
    after [yielded] events an exception comes up in it
    ([CancelledError] out of a read, [GeneratorExit] or
    [CancelledError] thrown in at the [yield]). *)
Inductive ending :=
| Exhausted
| Interrupted (yielded : nat) (e : exn).

Definition busy_error : exn :=
  RuntimeError (lit "Session is busy processing another request").

(** [send_message], the generator run to its end.  The result lists the
    events yielded and tells how the generator finished.  (The body of
    a generator runs when it is first iterated, so the busy error comes
    up there.)  The manager passes no [on_event] callback, and a
    callback's exceptions are swallowed, so none appears here. *)
Definition send_message (s : t) (message : str) (how : ending)
    (w : world) : (list StreamEvent.t * result ()) * (t * world) :=
  if is_busy s w then (([], Raise busy_error), (s, w))
  else
    let cmd := _build_command s message true in
    let env := _build_env s w in
    let home_dir := OS.join (workspace s) (lit ".home") in
    let w := OS.mkdir w home_dir in
    let claude_dir := OS.join (workspace s) (lit ".claude") in
    let home_claude_dir := OS.join home_dir (lit ".claude") in
    let w :=
      if OS.exists_ w claude_dir && negb (OS.exists_ w home_claude_dir)
      then OS.symlink_to w home_claude_dir claude_dir else w in
    let '(pid, w) :=
      OS.spawn w {| p_owner := user_id s; p_argv := cmd;
                    p_cwd := workspace s; p_HOME := Some env.1;
                    p_ANTHROPIC_API_KEY := env.2;
                    p_status := Running |} in
    let s := with_process s (Some pid) in
    let s := with_last_activity s (now w) in
    try_finally
      (let '(events, w_end) := _read_events s w in
       match how with
       | Exhausted =>
           ((events, Ok ()),
            (fold_left (fun s e => on_event s e w) events s, w_end))
       | Interrupted n e =>
           ((take n events, Raise e),
            (fold_left (fun s e => on_event s e w) (take n events) s,
             w))
       end)
      (fun st => (with_process st.1 None, st.2)).

(** [cancel]: [asyncio.wait_for] gives up with the built-in
    [TimeoutError] that the [except] clause names (Python 3.11 and
    later). *)
Definition cancel (s : t) (w : world) : t * world :=
  match process s with
  | Some pid =>
      if OS.running w pid
      then (with_process s None, OS.terminate_wait_kill w pid)
      else (s, w)
  | None => (s, w)
  end.

Definition create_stream_session (w : world) (uid : str)
    (auth : AuthMethod) : t * world :=
  let '(ws, w) := ConfigFns.ensure_workspace w uid in
  ({| user_id := uid; workspace := ws; auth_method := auth;
      session_id := None; process := None;
      created_at := now w; last_activity := now w;
      total_input_tokens := 0; total_output_tokens := 0;
      total_cost_usd := 0%float; model := None |}, w).

End StreamSession.

(** ** stream_parser.py *)

Module StreamBuffer.

Record t := {
  _content_buffer : str;
  _last_flush : str;
  _is_streaming : bool;
  flush_threshold : nat;
  min_flush_interval : float
}.

(** [StreamBuffer()] *)
Definition init : t :=
  {| _content_buffer := []; _last_flush := []; _is_streaming := false;
     flush_threshold := 500; min_flush_interval := 0.5%float |}.

Definition error_prefix : str := lit "**Error:** ".

Definition _flush (b : t) : str * t :=
  let content := _content_buffer b in
  (content,
   {| _content_buffer := []; _last_flush := content;
      _is_streaming := _is_streaming b;
      flush_threshold := flush_threshold b;
      min_flush_interval := min_flush_interval b |}).

Definition set_streaming (b : t) (v : bool) : t :=
  {| _content_buffer := _content_buffer b;
     _last_flush := _last_flush b; _is_streaming := v;
     flush_threshold := flush_threshold b;
     min_flush_interval := min_flush_interval b |}.

Definition set_content (b : t) (c : str) : t :=
  {| _content_buffer := c;
     _last_flush := _last_flush b; _is_streaming := _is_streaming b;
     flush_threshold := flush_threshold b;
     min_flush_interval := min_flush_interval b |}.

Definition feed (b : t) (event : StreamEvent.t) : option str * t :=
  let ty := StreamEvent.type event in
  if str_eqb ty (lit "assistant") then
    let b := set_streaming b false in
    match StreamEvent.content event with
    | _ :: _ => (Some (StreamEvent.content event), set_content b [])
    | [] => (None, b)
    end
  else if str_eqb ty (lit "content_block_delta") then
    let b := set_streaming b true in
    let b := set_content b
               (_content_buffer b ++ StreamEvent.content event) in
    if (flush_threshold b <=? length (_content_buffer b))%nat
    then let '(c, b) := _flush b in (Some c, b)
    else (None, b)
  else if str_eqb ty (lit "result") then
    let b := set_streaming b false in
    match _content_buffer b with
    | _ :: _ => let '(c, b) := _flush b in (Some c, b)
    | [] => (None, b)
    end
  else if str_eqb ty (lit "error") then
    let b := set_streaming b false in
    (Some (error_prefix ++ StreamEvent.content event), b)
  else (None, b).

Definition get_pending (b : t) : str := _content_buffer b.

Definition is_streaming (b : t) : bool := _is_streaming b.

Definition clear (b : t) : t :=
  {| _content_buffer := []; _last_flush := []; _is_streaming := false;
     flush_threshold := flush_threshold b;
     min_flush_interval := min_flush_interval b |}.

End StreamBuffer.

Module StatusInfo.

Record t := {
  model : option str;
  input_tokens : Z;
  output_tokens : Z;
  cost_usd : float;
  session_id : option str
}.

(** [StatusInfo()] *)
Definition init : t :=
  {| model := None; input_tokens := 0; output_tokens := 0;
     cost_usd := 0%float; session_id := None |}.

Definition from_event (event : StreamEvent.t) : t :=
  {| model := StreamEvent.model event;
     input_tokens := StreamEvent.input_tokens event;
     output_tokens := StreamEvent.output_tokens event;
     cost_usd := StreamEvent.cost_usd event;
     session_id := StreamEvent.session_id event |}.

End StatusInfo.

(** [", ".join(parts)] *)
Fixpoint join_comma (parts : list str) : str :=
  match parts with
  | [] => []
  | [x] => x
  | x :: rest => x ++ lit ", " ++ join_comma rest
  end.

Definition format_event_for_discord (event : StreamEvent.t)
    : option str :=
  let ty := StreamEvent.type event in
  let content := StreamEvent.content event in
  if str_eqb ty (lit "assistant") && negb (bool_decide (content = []))
  then Some content
  else if str_eqb ty (lit "content_block_delta")
          && negb (bool_decide (content = []))
  then Some content
  else if str_eqb ty (lit "error")
  then Some (StreamBuffer.error_prefix ++ content)
  else if str_eqb ty (lit "system") && negb (bool_decide (content = []))
  then Some (lit "*" ++ content ++ lit "*")
  else None.

Definition format_tool_use (event : StreamEvent.t) : option str :=
  if str_eqb (StreamEvent.type event) (lit "assistant") then
    let content_blocks :=
      match j_message (StreamEvent.raw event) with
      | MsgObject blocks => blocks
      | _ => []
      end in
    let tool_uses :=
      omap (fun block =>
              match block with
              | Some b =>
                  if bool_decide (b_type b = Some (lit "tool_use"))
                  then Some (lit "`" ++ default (lit "unknown") (b_name b)
                               ++ lit "`")
                  else None
              | None => None
              end) content_blocks in
    match tool_uses with
    | _ :: _ => Some (lit "*Using tools: " ++ join_comma tool_uses
                        ++ lit "*")
    | [] => None
    end
  else None.

Module StreamOutputFormatter.

Record t := {
  buffer : StreamBuffer.t;
  status : StatusInfo.t;
  _pending_chunks : list str
}.

Definition init : t :=
  {| buffer := StreamBuffer.init; status := StatusInfo.init;
     _pending_chunks := [] |}.

(** [feed]: the chunks to send.  [None] stands for a call of
    [chunk_for_discord] whose loop does not end; Lemma
    [formatter_feed_returns] shows that there is none. *)
Definition feed (f : t) (event : StreamEvent.t)
    : option (list str) * t :=
  let chunks :=
    match format_tool_use event with
    | Some (c :: tool_msg) => [c :: tool_msg]
    | _ => []
    end in
  let '(content, buffer') := StreamBuffer.feed (buffer f) event in
  let chunks :=
    match content with
    | Some (c :: content) =>
        more ← chunk_for_discord (c :: content) Config.DISCORD_MSG_LIMIT;
        Some (chunks ++ more)
    | _ => Some chunks
    end in
  (chunks,
   {| buffer := buffer';
      status := if str_eqb (StreamEvent.type event) (lit "result")
                then StatusInfo.from_event event else status f;
      _pending_chunks := _pending_chunks f |}).

Definition get_pending (f : t) : str :=
  StreamBuffer.get_pending (buffer f).

Definition flush (f : t) : option (list str) * t :=
  let pending := StreamBuffer.get_pending (buffer f) in
  (match pending with
   | _ :: _ => chunk_for_discord pending Config.DISCORD_MSG_LIMIT
   | [] => Some []
   end,
   {| buffer := StreamBuffer.clear (buffer f); status := status f;
      _pending_chunks := _pending_chunks f |}).

Definition get_status (f : t) : StatusInfo.t := status f.

Definition reset (f : t) : t :=
  {| buffer := StreamBuffer.clear (buffer f); status := status f;
     _pending_chunks := _pending_chunks f |}.

End StreamOutputFormatter.

(** ** pty_handler.py *)

Module PTYSession.

Record t := {
  user_id : str;
  master_fd : Z;
  slave_fd : Z;
  process : option nat;
  created_at : nat;
  last_activity : nat;
  _read_buffer : str
}.

(** [PTYSession(user_id=user_id)] *)
Definition make (w : world) (uid : str) : t :=
  {| user_id := uid; master_fd := -1; slave_fd := -1; process := None;
     created_at := now w; last_activity := now w; _read_buffer := [] |}.

Definition is_alive (s : t) (w : world) : bool :=
  match process s with
  | None => false
  | Some pid => OS.running w pid
  end.

(** [start]: a pseudo-terminal pair, the child on its slave side, the
    parent's copy of the slave side closed. *)
Definition start (s : t) (command : list str) (w : world) : t * world :=
  let master := next_fd w in
  let slave := S (next_fd w) in
  let w := OS.with_fds w ({[master]} ∪ {[slave]} ∪ open_fds w)
             (S (S (next_fd w))) in
  let '(pid, w) :=
    OS.spawn w {| p_owner := user_id s; p_argv := command;
                  p_cwd := []; p_HOME := None;
                  p_ANTHROPIC_API_KEY := None;
                  p_status := Running |} in
  let w := OS.with_fds w (open_fds w ∖ {[slave]}) (next_fd w) in
  ({| user_id := user_id s; master_fd := Z.of_nat master;
      slave_fd := -1; process := Some pid;
      created_at := created_at s; last_activity := now w;
      _read_buffer := _read_buffer s |}, w).

Definition terminate (s : t) (w : world) : t * world :=
  let w :=
    match process s with
    | Some pid =>
        if is_alive s w then OS.terminate_wait_kill w pid else w
    | None => w
    end in
  if 0 <=? master_fd s
  then ({| user_id := user_id s; master_fd := -1;
           slave_fd := slave_fd s; process := process s;
           created_at := created_at s;
           last_activity := last_activity s;
           _read_buffer := _read_buffer s |},
        OS.with_fds w (open_fds w ∖ {[Z.to_nat (master_fd s)]})
          (next_fd w))
  else (s, w).

Definition create_pty_session (w : world) (uid : str)
    (command : list str) : t * world :=
  start (make w uid) command w.

Definition not_active_error : exn :=
  RuntimeError (lit "PTY session not active").

Definition with_last_activity (s : t) (n : nat) : t :=
  {| user_id := user_id s; master_fd := master_fd s;
     slave_fd := slave_fd s; process := process s;
     created_at := created_at s; last_activity := n;
     _read_buffer := _read_buffer s |}.

(** [write]: the result is the text handed to [os.write] for the
    master side. *)
Definition write (s : t) (data : str) (w : world) : result str * t :=
  if (master_fd s <? 0) || negb (is_alive s w)
  then (Raise not_active_error, s)
  else (Ok data, with_last_activity s (now w)).

Definition write_line (s : t) (line : str) (w : world)
    : result str * t :=
  write s (line ++ [nl]) w.


End PTYSession.

(** ** session_manager.py *)

Definition no_auth_error : exn :=
  ValueError
    (lit "No authentication configured. Use /cc login or set ANTHROPIC_API_KEY.").

Module UserSession.

Section WithScreen.
Context {S : Type} `{PyteScreen S}.

Record t := {
  user_id : str;
  pty : PTYSession.t;
  workspace : path;
  output_buffer : OutputBuffer.t S;
  created_at : nat;
  claude_session_id : option str;
  _output_task : option nat
}.

Definition is_alive (s : t) (w : world) : bool :=
  PTYSession.is_alive (pty s) w.

Definition with_output_task (s : t) (task : option nat) : t :=
  {| user_id := user_id s; pty := pty s; workspace := workspace s;
     output_buffer := output_buffer s; created_at := created_at s;
     claude_session_id := claude_session_id s;
     _output_task := task |}.

End WithScreen.

Arguments t S : clear implicits.

End UserSession.

Module SessionManager.

Section WithScreen.
Context {S : Type} `{PyteScreen S}.

(** Callbacks are named by numbers. *)
Record t := {
  _sessions : gmap str (UserSession.t S);
  _output_callbacks : gmap str nat;
  _cleanup_task : option nat
}.

Definition init : t :=
  {| _sessions := ∅; _output_callbacks := ∅; _cleanup_task := None |}.

Definition has_session (m : t) (w : world) (uid : str) : bool :=
  match _sessions m !! uid with
  | Some session => UserSession.is_alive session w
  | None => false
  end.

Definition get_session (m : t) (w : world) (uid : str)
    : option (UserSession.t S) :=
  match _sessions m !! uid with
  | Some session =>
      if UserSession.is_alive session w then Some session else None
  | None => None
  end.

Definition stop_session (m : t) (w : world) (uid : str) : t * world :=
  let session := _sessions m !! uid in
  let sessions := delete uid (_sessions m) in
  let w :=
    match session with
    | Some session =>
        let w :=
          match UserSession._output_task session with
          | Some task => OS.cancel_task w task
          | None => w
          end in
        let '(_, w) := PTYSession.terminate (UserSession.pty session) w in
        SandboxRunner.cleanup_sandbox w uid false
    | None => w
    end in
  ({| _sessions := sessions;
      _output_callbacks := delete uid (_output_callbacks m);
      _cleanup_task := _cleanup_task m |}, w).

Definition start_session (m : t) (w : world) (uid : str)
    (resume_session_id : option str) (auth_method : option AuthMethod)
    : result (UserSession.t S) * (t * world) :=
  let '(m, w) :=
    if bool_decide (is_Some (_sessions m !! uid))
    then stop_session m w uid else (m, w) in
  let auth_method :=
    match auth_method with
    | None => Auth.get_auth_method w uid
    | Some a => a
    end in
  if bool_decide (auth_method = NONE) then (Raise no_auth_error, (m, w))
  else
    (* setup_sandbox(user_id, auth_method) *)
    match call_positional (lit "setup_sandbox")
            SandboxRunner.setup_sandbox_params 2
            (Ok (SandboxRunner.setup_sandbox w uid)) with
    | Raise e => (Raise e, (m, w))
    | Ok ((workspace, bwrap_cmd), w) =>
        let bwrap_cmd :=
          match resume_session_id with
          | Some (c :: sid) => bwrap_cmd ++ [lit "--resume"; c :: sid]
          | _ => bwrap_cmd
          end in
        let '(pty_session, w) :=
          PTYSession.create_pty_session w uid bwrap_cmd in
        let '(task, w) := OS.create_task w in
        let session :=
          {| UserSession.user_id := uid;
             UserSession.pty := pty_session;
             UserSession.workspace := workspace;
             UserSession.output_buffer := OutputBuffer.init;
             UserSession.created_at := now w;
             UserSession.claude_session_id := resume_session_id;
             UserSession._output_task := Some task |} in
        (Ok session,
         ({| _sessions := <[uid := session]> (_sessions m);
             _output_callbacks := _output_callbacks m;
             _cleanup_task := _cleanup_task m |}, w))
    end.

End WithScreen.

Arguments t S : clear implicits.

End SessionManager.

(** ** stream_session_manager.py *)

(** [isinstance(e, Exception)]: [CancelledError] and [GeneratorExit]
    derive from [BaseException] only. *)
Definition is_Exception (e : exn) : bool :=
  match e with
  | CancelledError | GeneratorExit => false
  | RuntimeError _ | ValueError _ | TypeError _ => true
  end.

(** [str(e)] *)
Definition exn_str (e : exn) : str :=
  match e with
  | RuntimeError msg | ValueError msg | TypeError msg => msg
  | CancelledError | GeneratorExit => []
  end.

(** One call of an output callback:
    [callback(user_id, chunks, status)]. *)
Record callback_call := {
  cc_callback : nat;
  cc_user : str;
  cc_chunks : list str;
  cc_status : option StatusInfo.t
}.

Module UserStreamSession.

Record t := {
  user_id : str;
  stream : StreamSession.t;
  formatter : StreamOutputFormatter.t;
  created_at : nat;
  _current_task : option nat
}.

Definition is_busy (s : t) (w : world) : bool :=
  StreamSession.is_busy (stream s) w.

Definition with_stream (s : t) (st : StreamSession.t) : t :=
  {| user_id := user_id s; stream := st; formatter := formatter s;
     created_at := created_at s; _current_task := _current_task s |}.

(** [is_expired]; the clock counts seconds, [SESSION_TIMEOUT] is the
    value of config.py. *)
Definition is_expired (SESSION_TIMEOUT : Z) (s : t) (w : world) : bool :=
  SESSION_TIMEOUT
  <? Z.of_nat (now w) - Z.of_nat (StreamSession.last_activity (stream s)).

Definition with_formatter (s : t) (f : StreamOutputFormatter.t) : t :=
  {| user_id := user_id s; stream := stream s; formatter := f;
     created_at := created_at s; _current_task := _current_task s |}.

Definition with_current_task (s : t) (task : option nat) : t :=
  {| user_id := user_id s; stream := stream s; formatter := formatter s;
     created_at := created_at s; _current_task := task |}.

Definition get_status (s : t) : StatusInfo.t :=
  StreamOutputFormatter.get_status (formatter s).


End UserStreamSession.

Module StreamSessionManager.

Record t := {
  _sessions : gmap str UserStreamSession.t;
  _output_callbacks : gmap str nat;
  _cleanup_task : option nat
}.

Definition init : t :=
  {| _sessions := ∅; _output_callbacks := ∅; _cleanup_task := None |}.

Definition has_session (m : t) (uid : str) : bool :=
  bool_decide (is_Some (_sessions m !! uid)).

Definition get_session (m : t) (uid : str)
    : option UserStreamSession.t :=
  _sessions m !! uid.

Definition start_session (m : t) (w : world) (uid : str)
    (auth_method : option AuthMethod)
    : result UserStreamSession.t * (t * world) :=
  match _sessions m !! uid with
  | Some session => (Ok session, (m, w))
  | None =>
      let auth_method :=
        match auth_method with
        | None => Auth.get_auth_method w uid
        | Some a => a
        end in
      if bool_decide (auth_method = NONE)
      then (Raise no_auth_error, (m, w))
      else
        let '(stream, w) :=
          StreamSession.create_stream_session w uid auth_method in
        let session :=
          {| UserStreamSession.user_id := uid;
             UserStreamSession.stream := stream;
             UserStreamSession.formatter := StreamOutputFormatter.init;
             UserStreamSession.created_at := now w;
             UserStreamSession._current_task := None |} in
        (Ok session,
         ({| _sessions := <[uid := session]> (_sessions m);
             _output_callbacks := _output_callbacks m;
             _cleanup_task := _cleanup_task m |}, w))
  end.

Definition stop_session (m : t) (w : world) (uid : str) : t * world :=
  let w :=
    match _sessions m !! uid with
    | Some session =>
        (StreamSession.cancel (UserStreamSession.stream session) w).2
    | None => w
    end in
  ({| _sessions := delete uid (_sessions m);
      _output_callbacks := delete uid (_output_callbacks m);
      _cleanup_task := _cleanup_task m |}, w).

Definition with_sessions (m : t)
    (sessions : gmap str UserStreamSession.t) : t :=
  {| _sessions := sessions; _output_callbacks := _output_callbacks m;
     _cleanup_task := _cleanup_task m |}.

Definition set_output_callback (m : t) (uid : str) (callback : nat)
    : t :=
  {| _sessions := _sessions m;
     _output_callbacks := <[uid := callback]> (_output_callbacks m);
     _cleanup_task := _cleanup_task m |}.

(** [start]: the clean-up loop becomes a task. *)
Definition start (m : t) (w : world) : t * world :=
  let '(task, w) := OS.create_task w in
  ({| _sessions := _sessions m;
      _output_callbacks := _output_callbacks m;
      _cleanup_task := Some task |}, w).

(** [stop]; the dictionary's values in the order of [map_to_list]
    (Lemma [cancel_all_running]: the order plays no part). *)
Definition stop (m : t) (w : world) : t * world :=
  let w :=
    match _cleanup_task m with
    | Some task => OS.cancel_task w task
    | None => w
    end in
  let w :=
    fold_left
      (fun w session =>
         (StreamSession.cancel (UserStreamSession.stream session) w).2)
      (map_to_list (_sessions m)).*2 w in
  ({| _sessions := ∅; _output_callbacks := ∅;
      _cleanup_task := _cleanup_task m |}, w).

(** One round of [_cleanup_loop], after its sleep. *)
Definition _cleanup_round (SESSION_TIMEOUT : Z) (m : t) (w : world)
    : t * world :=
  let expired :=
    (filter
       (fun kv => UserStreamSession.is_expired SESSION_TIMEOUT kv.2 w
                  = true)
       (map_to_list (_sessions m))).*1 in
  fold_left (fun mw uid => stop_session mw.1 mw.2 uid) expired (m, w).

Definition busy_msg : str :=
  lit "*Session is busy. Please wait for the current response.*".

(** [if chunks and callback: callback(user_id, chunks, status)] *)
Definition notify (callback : option nat) (uid : str)
    (chunks : list str) (status : option StatusInfo.t)
    : list callback_call :=
  match callback, chunks with
  | Some cb, _ :: _ =>
      [{| cc_callback := cb; cc_user := uid; cc_chunks := chunks;
          cc_status := status |}]
  | _, _ => []
  end.

(** The body of the [async for] of [_process_message] over the events
    the generator yields: the callback's calls and the formatter
    afterwards.  [None] stands for a chunking that does not end, as in
    [StreamOutputFormatter.feed]. *)
Fixpoint feed_events (callback : option nat) (uid : str)
    (formatter : StreamOutputFormatter.t) (events : list StreamEvent.t)
    : option (list callback_call) * StreamOutputFormatter.t :=
  match events with
  | [] => (Some [], formatter)
  | event :: events =>
      let '(chunks, formatter) :=
        StreamOutputFormatter.feed formatter event in
      let status :=
        if str_eqb (StreamEvent.type event) (lit "result")
        then Some (StreamOutputFormatter.get_status formatter)
        else None in
      let '(calls, formatter') :=
        feed_events callback uid formatter events in
      (chunks ← chunks; calls ← calls;
       Some (notify callback uid chunks status ++ calls),
       formatter')
  end.

(** [_process_message], the body of the task that [send_message]
    creates, run to its end.  The generator of the stream session and
    the formatter act on different objects, so the events are taken from
    the generator first and fed to the formatter then.  The session is
    changed in place: the dictionary holds the changed session. *)
Definition _process_message (m : t) (w : world) (uid message : str)
    (how : StreamSession.ending)
    : (option (list callback_call) * result ()) * (t * world) :=
  match get_session m uid with
  | None => ((Some [], Ok ()), (m, w))
  | Some session =>
      let callback := _output_callbacks m !! uid in
      let formatter :=
        StreamOutputFormatter.reset (UserStreamSession.formatter session) in
      let '((events, outcome), (stream, w)) :=
        StreamSession.send_message (UserStreamSession.stream session)
          message how w in
      let '(calls, formatter) :=
        feed_events callback uid formatter events in
      let '((last_calls, outcome), formatter) :=
        match outcome with
        | Ok _ =>
            let '(remaining, formatter) :=
              StreamOutputFormatter.flush formatter in
            ((remaining ← remaining;
              Some (notify callback uid remaining
                      (Some (StreamOutputFormatter.get_status formatter))),
              Ok ()), formatter)
        | Raise e =>
            if is_Exception e
            then ((Some (notify callback uid
                           [StreamBuffer.error_prefix ++ exn_str e] None),
                   Ok ()), formatter)
            else ((Some [], Raise e), formatter)
        end in
      let session :=
        UserStreamSession.with_formatter
          (UserStreamSession.with_stream session stream) formatter in
      ((calls ← calls; last_calls ← last_calls;
        Some (calls ++ last_calls), outcome),
       (with_sessions m (<[uid := session]> (_sessions m)), w))
  end.

(** [send_message] of the manager: the request becomes a task whose
    body is [_process_message]. *)
Definition send_message (m : t) (w : world) (uid message : str)
    : (bool * list callback_call) * (t * world) :=
  match get_session m uid with
  | None => ((false, []), (m, w))
  | Some session =>
      if UserStreamSession.is_busy session w
      then ((false, notify (_output_callbacks m !! uid) uid [busy_msg]
                      None), (m, w))
      else
        let '(task, w) := OS.create_task w in
        ((true, []),
         (with_sessions m
            (<[uid := UserStreamSession.with_current_task session
                        (Some task)]> (_sessions m)), w))
  end.

(** [cancel_request]; the cancelled task ends when the event loop next
    runs it, which is taken as part of the call. *)
Definition cancel_request (m : t) (w : world) (uid : str)
    : bool * (t * world) :=
  match get_session m uid with
  | None => (false, (m, w))
  | Some session =>
      if negb (UserStreamSession.is_busy session w) then (false, (m, w))
      else
        let '(stream, w) :=
          StreamSession.cancel (UserStreamSession.stream session) w in
        let session := UserStreamSession.with_stream session stream in
        let w :=
          match UserStreamSession._current_task session with
          | Some task => OS.cancel_task w task
          | None => w
          end in
        (true,
         (with_sessions m
            (<[uid := UserStreamSession.with_current_task session None]>
               (_sessions m)), w))
  end.

(** [get_all_sessions] *)
Definition get_all_sessions (m : t) : gmap str UserStreamSession.t :=
  _sessions m.


End StreamSessionManager.

(** ** Notions used in the statements *)


(** A pattern whose matches start with ESC. *)
Definition esc_led (p : OutputText.pattern) : Prop :=
  forall s n, p s = Some n -> exists s', s = OutputText.esc :: s'.

(** The authentication method [start_session] goes by: the argument when
    one is given, what [get_auth_method] finds otherwise. *)
Definition resolved_auth (w : world) (uid : str)
    (auth_method : option AuthMethod) : AuthMethod :=
  match auth_method with
  | Some a => a
  | None => Auth.get_auth_method w uid
  end.

(** The state from which [start_session] of the PTY manager goes on
    after its first step: the manager and machine after [stop_session]
    when the user has a session, and as they are otherwise. *)
Definition after_teardown {S : Type} `{PyteScreen S}
    (m : SessionManager.t S) (w : world) (uid : str)
    : SessionManager.t S * world :=
  if bool_decide (is_Some (SessionManager._sessions m !! uid))
  then SessionManager.stop_session m w uid else (m, w).

(** The events a child gives rise to in [_read_events]: its lines
    parsed, and an error event for a non-empty standard error. *)
Definition child_events (c : child) : list StreamEvent.t :=
  omap StreamSession._parse_event (c_stdout c)
  ++ match c_stderr c with
     | [] => []
     | _ :: _ => [StreamEvent.make (lit "error") (c_stderr c) empty_object]
     end.

(** An event that is neither an assistant message nor an error. *)
Definition plain_event (e : StreamEvent.t) : Prop :=
  StreamEvent.type e <> lit "assistant"
  /\ StreamEvent.type e <> lit "error".

(** The text of the delta events among [events]. *)
Definition delta_text (events : list StreamEvent.t) : str :=
  concat
    (StreamEvent.content
       <$> filter (fun e => StreamEvent.type e = lit "content_block_delta")
             events).

(** The text a run of callback calls delivers. *)
Definition delivered (calls : list callback_call) : str :=
  concat (concat (cc_chunks <$> calls)).

(** The calls a callback gets are well formed: they name the callback
    and the user, hold at least one chunk, and every chunk is within the
    Discord limit and not empty. *)
Definition call_ok (cb : nat) (uid : str) (c : callback_call) : Prop :=
  cc_callback c = cb /\ cc_user c = uid /\ cc_chunks c <> []
  /\ Forall (fun p => (1 <= length p <= Config.DISCORD_MSG_LIMIT)%nat)
       (cc_chunks c).

(** [w'] differs from [w] in the state of processes at most. *)
Definition procs_only (w w' : world) : Prop :=
  ANTHROPIC_API_KEY w' = ANTHROPIC_API_KEY w
  /\ WORKSPACE_BASE w' = WORKSPACE_BASE w
  /\ fs w' = fs w
  /\ next_pid w' = next_pid w
  /\ open_fds w' = open_fds w /\ next_fd w' = next_fd w
  /\ tasks w' = tasks w /\ next_task w' = next_task w
  /\ children w' = children w
  /\ now w' = now w.

(** The events that [send_message] folds into the session: the final
    results that carry a session id. *)
Definition counted (events : list StreamEvent.t) : list StreamEvent.t :=
  filter
    (fun e => StreamEvent.type e = lit "result"
              /\ truthy (StreamEvent.session_id e) = true)
    events.

(** The arguments of every request's command, before the continuation
    flag. *)
Definition request_argv (prompt : str) : list str :=
  [lit "claude"; lit "-p"; prompt; lit "--output-format";
   lit "stream-json"; lit "--dangerously-skip-permissions"].

(** [w'] differs from [w] in the file system at most. *)
Definition fs_only (w w' : world) : Prop :=
  ANTHROPIC_API_KEY w' = ANTHROPIC_API_KEY w
  /\ WORKSPACE_BASE w' = WORKSPACE_BASE w
  /\ procs w' = procs w
  /\ next_pid w' = next_pid w
  /\ open_fds w' = open_fds w /\ next_fd w' = next_fd w
  /\ tasks w' = tasks w /\ next_task w' = next_task w
  /\ children w' = children w
  /\ now w' = now w.

(** The part of a user id that names the workspace. *)
Definition safe_id (user_id : str) : str :=
  List.filter ConfigFns.safe_char user_id.

(** ** Concrete inputs for the examples *)

Module Examples.

(** A final-result line that carries usage, cost and model but no
    session id. *)
Definition result_without_id : Decoded :=
  {| j_type := Some (lit "result"); j_message := MsgAbsent;
     j_delta_text := None; j_result := Some (lit "done");
     j_error := None; j_session_id := None;
     j_usage_input_tokens := Some 10; j_usage_output_tokens := Some 5;
     j_cost_usd := Some 0.25%float; j_model := Some (lit "opus") |}.

(** A final-result line with a session id. *)
Definition result_with_id : Decoded :=
  {| j_type := Some (lit "result"); j_message := MsgAbsent;
     j_delta_text := None; j_result := Some (lit "done");
     j_error := None; j_session_id := Some (lit "conv-1");
     j_usage_input_tokens := Some 10; j_usage_output_tokens := Some 5;
     j_cost_usd := Some 0.25%float; j_model := Some (lit "opus") |}.

Definition quiet_child (lines : list (option Decoded)) : child :=
  {| c_stdout := lines; c_stderr := []; c_returncode := 0;
     c_honours_sigterm := true |}.

(** A fresh machine: the API key [key], no file, no process; every child
    prints [lines]. *)
Definition machine (key : option str) (lines : list (option Decoded))
    : world :=
  {| ANTHROPIC_API_KEY := key;
     WORKSPACE_BASE := [lit "var"; lit "codesmith"; lit "workspaces"];
     fs := ∅; procs := ∅; next_pid := 0;
     open_fds := ∅; next_fd := 3;
     tasks := ∅; next_task := 0;
     children := fun _ => quiet_child lines;
     now := 0 |}.

Definition alice : str := lit "alice".

(** Alice's streaming session on a fresh machine. *)
Definition alice_stream (lines : list (option Decoded))
    : StreamSession.t * world :=
  StreamSession.create_stream_session
    (machine (Some (lit "sk-test")) lines) alice API_KEY.

(** The streaming manager after Alice's first [start_session], on a
    machine with an API key. *)
Definition alice_started : StreamSessionManager.t * world :=
  (StreamSessionManager.start_session StreamSessionManager.init
     (machine (Some (lit "sk-test")) []) alice None).2.

Definition a_child (owner : str) : proc :=
  {| p_owner := owner; p_argv := [lit "claude"]; p_cwd := [];
     p_HOME := None; p_ANTHROPIC_API_KEY := None; p_status := Running |}.

(** The same manager in the middle of a request: Alice's session has
    the continuation id ["conv-1"] from an earlier answer and its child,
    process 0, is running. *)
Definition alice_busy : StreamSessionManager.t * world :=
  let '(m, w) := alice_started in
  ({| StreamSessionManager._sessions :=
        (fun us =>
           UserStreamSession.with_stream us
             {| StreamSession.user_id := alice;
                StreamSession.workspace :=
                  StreamSession.workspace (UserStreamSession.stream us);
                StreamSession.auth_method := API_KEY;
                StreamSession.session_id := Some (lit "conv-1");
                StreamSession.process := Some 0%nat;
                StreamSession.created_at := 0;
                StreamSession.last_activity := 0;
                StreamSession.total_input_tokens := 10;
                StreamSession.total_output_tokens := 5;
                StreamSession.total_cost_usd := 0.25%float;
                StreamSession.model := Some (lit "opus") |})
        <$> StreamSessionManager._sessions m;
      StreamSessionManager._output_callbacks :=
        StreamSessionManager._output_callbacks m;
      StreamSessionManager._cleanup_task :=
        StreamSessionManager._cleanup_task m |},
   (OS.spawn w (a_child alice)).2).




(** A PTY manager holding a session of Alice whose child, process 0, is
    running, on a machine without any means of authentication. *)
Definition alice_pty : SessionManager.t GridScreen.t * world :=
  let '(pty, w) :=
    PTYSession.create_pty_session (machine None []) alice
      [lit "claude"] in
  ({| SessionManager._sessions :=
        {[ alice :=
             {| UserSession.user_id := alice;
                UserSession.pty := pty;
                UserSession.workspace :=
                  ConfigFns.get_user_workspace w alice;
                UserSession.output_buffer := OutputBuffer.init;
                UserSession.created_at := 0;
                UserSession.claude_session_id := None;
                UserSession._output_task := None |} ]};
      SessionManager._output_callbacks := ∅;
      SessionManager._cleanup_task := None |}, w).

(** The same, with files in Alice's workspace: notes, and a scratch
    file below [tmp]. *)
Definition alice_pty_files : SessionManager.t GridScreen.t * world :=
  let ws := ConfigFns.get_user_workspace alice_pty.2 alice in
  (alice_pty.1,
   OS.with_fs alice_pty.2
     ({[ ws := Dir;
         ws ++ [lit "notes.txt"] := File false;
         ws ++ [lit "tmp"] := Dir;
         ws ++ [lit "tmp"; lit "scratch"] := File false ]})).

(** A delta line carrying [text]. *)
Definition delta_line (text : str) : Decoded :=
  {| j_type := Some (lit "content_block_delta"); j_message := MsgAbsent;
     j_delta_text := Some text; j_result := None; j_error := None;
     j_session_id := None; j_usage_input_tokens := None;
     j_usage_output_tokens := None; j_cost_usd := None;
     j_model := None |}.

(** What the child of the examples below prints: two deltas around a
    line that is not JSON, and the final result. *)
Definition hello_lines : list (option Decoded) :=
  [Some (delta_line (lit "Hello, ")); None;
   Some (delta_line (lit "world")); Some result_with_id].

(** The streaming manager after Alice's [start_session] on a machine
    whose children print [hello_lines], with callback 7 registered for
    her. *)
Definition alice_listening : StreamSessionManager.t * world :=
  let '(m, w) :=
    (StreamSessionManager.start_session StreamSessionManager.init
       (machine (Some (lit "sk-test")) hello_lines) alice None).2 in
  (StreamSessionManager.set_output_callback m alice 7, w).


Definition bob : str := lit "bob".

(** The machine [w] two minutes later. *)
Definition two_minutes_later (w : world) : world :=
  {| ANTHROPIC_API_KEY := ANTHROPIC_API_KEY w;
     WORKSPACE_BASE := WORKSPACE_BASE w;
     fs := fs w; procs := procs w; next_pid := next_pid w;
     open_fds := open_fds w; next_fd := next_fd w;
     tasks := tasks w; next_task := next_task w;
     children := children w; now := (now w + 120)%nat |}.

(** A terminal of three rows of eight columns after two lines of
    output. *)
Definition small_terminal : TerminalEmulator.t GridScreen.t :=
  {| TerminalEmulator.screen :=
       GridScreen.feed (GridScreen.new 8 3)
         (lit "ab  " ++ [GridScreen.cr; nl] ++ lit " cd ") |}.

(** Credentials as Claude Code keeps them. *)
Definition oauth_credentials : Auth.json :=
  Auth.JObj
    [(lit "claudeAiOauth",
      Auth.JObj [(lit "accessToken", Auth.JStr (lit "at"));
                 (lit "refreshToken", Auth.JStr (lit "rt"));
                 (lit "expiresAt", Auth.JInt 1767225600000)])].


End Examples.

(** * Properties *)

(** ** Python strings *)

Section PyFacts.

Implicit Types s t sub : str.

Lemma startswith_length s sub :
  startswith s sub = true -> (length sub <= length s)%nat.
Proof.
  revert s. induction sub as [|b sub IH]; intros [|a s]; simpl;
    try lia; try discriminate.
  destruct (Ascii.eqb a b); [|discriminate].
  intros Hs. apply IH in Hs. lia.
Qed.

Lemma startswith_app s sub : startswith (sub ++ s) sub = true.
Proof.
  induction sub as [|b sub IH]; simpl; [done|].
  by rewrite Ascii.eqb_refl.
Qed.

Lemma startswith_prefix s sub :
  startswith s sub = true -> s = sub ++ drop (length sub) s.
Proof.
  revert s. induction sub as [|b sub IH]; intros [|a s]; simpl;
    try done.
  destruct (Ascii.eqb_spec a b) as [->|]; [|discriminate].
  intros Hs. f_equal. by apply IH.
Qed.

(** [rfind] is [-1] or an index at which [sub] fits. *)
Lemma rfind_range s sub :
  rfind s sub = -1
  \/ (0 <= rfind s sub /\ rfind s sub + Z.of_nat (length sub)
                           <= Z.of_nat (length s)).
Proof.
  induction s as [|a s IH].
  - simpl. destruct sub; simpl; [right; lia | by left].
  - cbn [rfind]. destruct (Z.leb_spec 0 (rfind s sub)) as [Hr|Hr].
    + right. cbn [length]. lia.
    + destruct (startswith (a :: s) sub) eqn:Hs; [|by left].
      right. apply startswith_length in Hs. lia.
Qed.

Lemma rfind_lower s sub : -1 <= rfind s sub.
Proof. destruct (rfind_range s sub); lia. Qed.

(** A character foreign to [sub] cuts the search for [sub] in two. *)
Lemma startswith_app_foreign c u t sub :
  c ∉ sub -> startswith (u ++ c :: t) sub = startswith u sub.
Proof.
  revert u. induction sub as [|b sub IH]; intros u Hc; [done|].
  apply not_elem_of_cons in Hc as [Hcb Hc].
  destruct u as [|a u]; simpl.
  - destruct (Ascii.eqb_spec c b); congruence.
  - destruct (Ascii.eqb a b); auto.
Qed.

Lemma startswith_foreign c t sub :
  c ∉ sub -> sub <> [] -> startswith (c :: t) sub = false.
Proof.
  intros Hc Hsub. destruct sub as [|b sub]; [done|]. simpl.
  apply not_elem_of_cons in Hc as [Hcb _].
  destruct (Ascii.eqb_spec c b); congruence.
Qed.

Lemma count_from_app_foreign c sub u t k :
  c ∉ sub -> sub <> [] -> (k <= length u)%nat ->
  count_from k (u ++ c :: t) sub
  = (count_from k u sub + count_from 0 t sub)%nat.
Proof.
  intros Hc Hsub. revert k.
  induction u as [|a u IH]; intros k Hk.
  - assert (k = 0%nat) as -> by (simpl in Hk; lia). simpl.
    change (match sub with
            | [] => true
            | b :: p' => if Ascii.eqb c b then startswith t p' else false
            end) with (startswith (c :: t) sub).
    by rewrite startswith_foreign.
  - destruct k as [|k]; cbn [count_from app].
    + change (a :: u ++ c :: t) with ((a :: u) ++ c :: t).
      rewrite startswith_app_foreign by done.
      destruct (startswith (a :: u) sub) eqn:Hs.
      * apply startswith_length in Hs. cbn [length] in Hs.
        rewrite IH by lia. done.
      * by rewrite IH by lia.
    + apply IH. cbn [length] in Hk. lia.
Qed.




Lemma lstrip_spec s :
  exists ws, s = ws ++ lstrip s /\ Forall (fun c => is_space c = true) ws.
Proof.
  induction s as [|c s (ws & Hs & Hws)]; [by exists []|]. simpl.
  destruct (is_space c) eqn:Hc.
  - exists (c :: ws). split; [simpl; congruence | by constructor].
  - by exists [].
Qed.

Lemma rstrip_spec s :
  exists ws, s = rstrip s ++ ws /\ Forall (fun c => is_space c = true) ws.
Proof.
  destruct (lstrip_spec (rev s)) as (ws & Hs & Hws).
  exists (rev ws). split.
  - unfold rstrip. rewrite <- rev_app_distr, <- Hs. by rewrite rev_involutive.
  - by apply Forall_rev.
Qed.

Lemma rstrip_length s : (length (rstrip s) <= length s)%nat.
Proof.
  destruct (rstrip_spec s) as (ws & Hs & _).
  rewrite Hs at 2. rewrite length_app. lia.
Qed.

End PyFacts.

(** ** Chunking *)

Section ChunkFacts.

Implicit Types remaining text : str.

Lemma fence_not_space c : is_space c = true -> c ∉ fence.
Proof.
  intros Hc Hin. unfold fence in Hin. simpl in Hin.
  repeat (apply elem_of_cons in Hin as [->|Hin]; [discriminate|]).
  by apply elem_of_nil in Hin.
Qed.

Lemma fence_nonempty : fence <> [].
Proof. done. Qed.

(** The split point lies in the chunk, and past its half unless it is
    the hard cut at [limit]. *)
Lemma split_point_range remaining limit :
  (limit < length remaining)%nat ->
  (split_point remaining limit <= limit)%nat
  /\ (split_point remaining limit = limit
      \/ Z.of_nat limit / 2 + 2 <= Z.of_nat (split_point remaining limit)).
Proof.
  intros Hlen. unfold split_point.
  assert (length (take limit remaining) = limit) as Hchunk
    by (rewrite length_take; lia).
  set (chunk := take limit remaining) in *.
  pose proof (rfind_range chunk fence_nl) as H1.
  pose proof (rfind_range chunk para) as H2.
  pose proof (rfind_range chunk [nl]) as H3.
  pose proof (rfind_range chunk [space]) as H4.
  rewrite Hchunk in H1, H2, H3, H4.
  change (length fence_nl) with 4%nat in H1.
  change (length para) with 2%nat in H2.
  change (length [nl]) with 1%nat in H3.
  change (length [space]) with 1%nat in H4.
  assert (0 <= Z.of_nat limit / 2) as Hhalf
    by (apply Z.div_pos; lia).
  clearbody chunk.
  destruct (Z.ltb_spec (Z.of_nat limit / 2) (rfind chunk fence_nl));
    [lia|].
  destruct (Z.ltb_spec (Z.of_nat limit / 2) (rfind chunk para)); [lia|].
  destruct (Z.ltb_spec (Z.of_nat limit / 2) (rfind chunk [nl])); [lia|].
  destruct (Z.ltb_spec (Z.of_nat limit / 2) (rfind chunk [space])); lia.
Qed.

Lemma split_point_le remaining limit :
  (limit < length remaining)%nat ->
  (split_point remaining limit <= limit)%nat.
Proof. intros. by apply split_point_range. Qed.



(** The loop appends the rendered slices. *)
Lemma chunk_loop_slices fuel limit remaining chunks :
  chunk_loop fuel limit remaining chunks
  = (fun sl => chunks ++ map render sl)
      <$> chunk_slices fuel limit remaining.
Proof.
  revert remaining chunks.
  induction fuel as [|fuel IH]; intros remaining chunks; [done|].
  cbn [chunk_loop chunk_slices].
  destruct remaining as [|c remaining]; [by simpl; rewrite app_nil_r|].
  case_match; [done|].
  case_match; rewrite IH; destruct (chunk_slices _ _ _); simpl;
    by rewrite <- ?app_assoc.
Qed.

Lemma chunk_slices_raw_length fuel limit remaining sl :
  chunk_slices fuel limit remaining = Some sl ->
  Forall (fun s => (length (raw s) <= limit)%nat) sl.
Proof.
  revert remaining sl.
  induction fuel as [|fuel IH]; intros remaining sl; [done|].
  cbn [chunk_slices].
  destruct remaining as [|c remaining]; [intros [= <-]; constructor|].
  case_match eqn:Hlen.
  { intros [= <-]. constructor; [|constructor].
    by apply Nat.leb_le in Hlen. }
  apply Nat.leb_gt in Hlen.
  pose proof (split_point_le (c :: remaining) limit Hlen) as Hsp.
  case_match; destruct (chunk_slices fuel _ _) as [rest|] eqn:Hrest;
    try discriminate; intros [= <-]; constructor;
    try (by eapply IH); cbn [raw]; rewrite length_take; lia.
Qed.





(** From a limit of 6 on every round shortens [remaining], so one
    round for each character and one more are enough. *)
Lemma chunk_slices_terminates fuel limit remaining :
  (6 <= limit)%nat -> (length remaining < fuel)%nat ->
  is_Some (chunk_slices fuel limit remaining).
Proof.
  intros Hlim. revert remaining.
  induction fuel as [|fuel IH]; intros remaining Hfuel; [lia|].
  cbn [chunk_slices].
  destruct remaining as [|c remaining]; [done|].
  destruct (length (c :: remaining) <=? limit)%nat eqn:Hlen; [done|].
  apply Nat.leb_gt in Hlen.
  pose proof (split_point_range (c :: remaining) limit Hlen)
    as [Hsp Hsp2].
  set (sp := split_point (c :: remaining) limit) in *.
  assert (5 <= sp)%nat as Hsp5.
  { assert (3 <= Z.of_nat limit / 2)
      by (apply Z.div_le_lower_bound; lia). lia. }
  case_match; apply fmap_is_Some, IH;
    rewrite ?length_app, length_drop;
    change (length fence_nl) with 4%nat; lia.
Qed.


(** A closing fence adds at most four characters to a slice. *)
Lemma render_length sl :
  (length (render sl) <= length (raw sl) + 4)%nat.
Proof.
  unfold render. case_match; [|lia].
  rewrite length_app. pose proof (rstrip_length (raw sl)).
  change (length nl_fence) with 4%nat. lia.
Qed.

Lemma chunk_for_discord_returns text limit :
  (6 <= limit)%nat -> is_Some (chunk_for_discord text limit).
Proof.
  intros Hlim. unfold chunk_for_discord, chunk_for_discord_fuel.
  case_match; [done|].
  rewrite chunk_loop_slices. apply fmap_is_Some.
  apply chunk_slices_terminates; [done|lia].
Qed.

End ChunkFacts.




(** A text within the limit is returned as it is, whatever its fences. *)
Example chunk_single_piece_unbalanced :
  chunk_for_discord fence 10 = Some [fence]
  /\ Nat.even (count fence fence) = false.
Proof. vm_compute. by split. Qed.

(** The whitespace stripped before a closing fence is gone from the
    pieces: with a limit of 10 the three spaces after ["```ab"] are in
    neither piece. *)
Example chunk_strips_before_closing_fence :
  chunk_for_discord (lit "```ab   cdef") 10
  = Some [lit "```ab" ++ nl_fence; fence_nl ++ lit "cdef"].
Proof. by vm_compute. Qed.

(** With a limit of 5 the loop can run for ever: the remainder
    ["```\nabcdef"] comes back unchanged after each round. *)
Example chunk_limit5_diverges fuel :
  chunk_for_discord_fuel fuel (fence_nl ++ lit "abcdef") 5 = None.
Proof.
  unfold chunk_for_discord_fuel. change (_ <=? _)%nat with false.
  cbn iota. generalize (@nil str).
  induction fuel as [|fuel IH]; intros acc; [done|].
  cbn [chunk_loop].
  change (fence_nl ++ lit "abcdef")
    with (backtick :: tail (fence_nl ++ lit "abcdef")) at 1.
  cbv iota.
  change (length _ <=? 5)%nat with false. cbv iota.
  change (split_point _ 5) with 4%nat.
  change (Nat.odd _) with true. cbv iota.
  change (drop 4 _) with (lit "abcdef"). apply IH.
Qed.

(** ** Status line and delta buffer *)

Section ScreenFacts.

Implicit Types s t row kw : str.




Lemma strip_spec s :
  exists ws1 ws2,
    s = ws1 ++ strip s ++ ws2
    /\ Forall (fun c => is_space c = true) ws1
    /\ Forall (fun c => is_space c = true) ws2.
Proof.
  destruct (rstrip_spec s) as (ws2 & Hs & Hws2).
  destruct (lstrip_spec (rstrip s)) as (ws1 & Hr & Hws1).
  exists ws1, ws2. repeat split; [|done..].
  unfold strip. rewrite app_assoc, <- Hr. done.
Qed.






Lemma startswith_prefix_of s p : startswith s p = true <-> p `prefix_of` s.
Proof.
  split.
  - intros Hs. exists (drop (length p) s). by apply startswith_prefix.
  - intros [k ->]. apply startswith_app.
Qed.

End ScreenFacts.


(** On the grid screen: a last row with upper-case ["TOKENS"] is a status
    line, and text in any other row is not. *)
Example get_statusbar_on_grid :
  let bottom := repeat nl 39 ++ lit "  12 TOKENS  " in
  TerminalEmulator.get_statusbar
    (TerminalEmulator.feed (S := GridScreen.t) TerminalEmulator.init bottom)
  = Some (lit "12 TOKENS")
  /\ TerminalEmulator.get_statusbar
       (TerminalEmulator.feed (S := GridScreen.t) TerminalEmulator.init
          (lit "model: opus"))
     = None.
Proof. vm_compute. by split. Qed.

(** C4 (amended).  For every buffer and every feed, with [current] the
    content reconstructed after the feed: when [current] extends the
    content emitted before, the delta emitted is the appended suffix with
    the whitespace at its two ends stripped; when the old content is not
    a prefix of [current], it is the whole of [current], stripped; and
    when the content is unchanged the delta is empty.  In each case
    [current] becomes the content remembered for the next feed. *)
Theorem buffer_feed_delta {S : Type} `{PyteScreen S}
    (b : OutputBuffer.t S) (data : str) :
  let current :=
    TerminalEmulator.get_content
      (TerminalEmulator.feed (OutputBuffer._emulator b) data) in
  let out := (OutputBuffer.feed b data).1 in
  (forall suffix,
      current = OutputBuffer._last_content b ++ suffix ->
      po_content out = strip suffix)
  /\ (~ OutputBuffer._last_content b `prefix_of` current ->
      po_content out = strip current)
  /\ (current = OutputBuffer._last_content b -> po_content out = [])
  /\ OutputBuffer._last_content (OutputBuffer.feed b data).2 = current.
Proof.
  intros current out. subst out. unfold OutputBuffer.feed.
  fold current. cbn [fst snd po_content OutputBuffer._last_content].
  unfold OutputBuffer.new_content.
  repeat split.
  - intros suffix Hcur. rewrite Hcur, startswith_app.
    by rewrite drop_app_length.
  - intros Hpre. destruct (startswith _ _) eqn:Hs; [|done].
    by apply startswith_prefix_of in Hs.
  - intros Hcur. rewrite Hcur.
    rewrite <- (app_nil_r (OutputBuffer._last_content b)) at 1.
    rewrite startswith_app. by rewrite drop_all.
Qed.

Lemma buffer_feed_delta_witness :
  let b := (OutputBuffer.feed (S := GridScreen.t) OutputBuffer.init
              (lit "abc")).2 in
  let data := GridScreen.cr :: nl :: lit "x" in
  TerminalEmulator.get_content
    (TerminalEmulator.feed (OutputBuffer._emulator b) data)
  = OutputBuffer._last_content b ++ nl :: lit "x"
  /\ po_content (OutputBuffer.feed b data).1 = strip (nl :: lit "x").
Proof.
  intros b data. split; [by vm_compute|].
  apply (buffer_feed_delta b data). by vm_compute.
Defined.

(** C4 as stated fails.  The grid screen shows ["abc"]; feeding CR, LF
    and ["x"] extends the content by a line break and ["x"], and the
    delta emitted is ["x"] alone. *)
Lemma buffer_feed_delta_counterexample :
  let b := (OutputBuffer.feed (S := GridScreen.t) OutputBuffer.init
              (lit "abc")).2 in
  let fed := OutputBuffer.feed b (GridScreen.cr :: nl :: lit "x") in
  OutputBuffer._last_content b = lit "abc"
  /\ OutputBuffer._last_content fed.2 = lit "abc" ++ nl :: lit "x"
  /\ po_content fed.1 = lit "x"
  /\ po_content fed.1 <> nl :: lit "x".
Proof. vm_compute. by repeat split. Qed.

(** ** The streaming session *)

Section StreamSessionFacts.

Implicit Types (s : StreamSession.t) (w : world) (e : StreamEvent.t).

Lemma with_process_busy s w : 
  StreamSession.is_busy (StreamSession.with_process s None) w = false.
Proof. done. Qed.

Lemma set_status_owner w pid st pid' :
  p_owner <$> procs (OS.set_status w pid st) !! pid'
  = p_owner <$> procs w !! pid'.
Proof.
  unfold OS.set_status. simpl.
  destruct (decide (pid = pid')) as [->|Hne].
  - rewrite lookup_alter_eq. by destruct (procs w !! pid').
  - by rewrite lookup_alter_ne.
Qed.

Lemma wait_owner w pid pid' :
  p_owner <$> procs (OS.wait w pid) !! pid' = p_owner <$> procs w !! pid'.
Proof.
  unfold OS.wait. case_match; [apply set_status_owner|done].
Qed.

Lemma wait_next_pid w pid : next_pid (OS.wait w pid) = next_pid w.
Proof. unfold OS.wait. by case_match. Qed.

Lemma mkdir_procs w p :
  procs (OS.mkdir w p) = procs w /\ next_pid (OS.mkdir w p) = next_pid w.
Proof. unfold OS.mkdir. by case_match. Qed.

(** [send_message] on a session that is not busy: the child is spawned
    with the next process number, and the session ends with its process
    handle cleared. *)
Lemma send_message_not_busy s message how w :
  StreamSession.is_busy s w = false ->
  exists evs s' w',
    StreamSession.send_message s message how w
    = ((evs, match how with
             | StreamSession.Exhausted => Ok ()
             | StreamSession.Interrupted _ x => Raise x
             end), (s', w'))
    /\ StreamSession.process s' = None
    /\ next_pid w' = S (next_pid w)
    /\ p_owner <$> procs w' !! next_pid w = Some (StreamSession.user_id s).
Proof.
  intros Hbusy. unfold StreamSession.send_message. rewrite Hbusy.
  cbn zeta. unfold OS.spawn, try_finally.
  set (w1 := if _ && _ then _ else _).
  assert (next_pid w1 = next_pid w) as Hn.
  { subst w1. unfold OS.symlink_to.
    case_match; simpl; apply mkdir_procs. }
  unfold StreamSession._read_events. cbn [StreamSession.process
    StreamSession.with_last_activity StreamSession.with_process].
  destruct how as [|n x]; do 3 eexists; (split; [reflexivity|]);
    cbn [fst snd]; rewrite ?wait_next_pid, ?wait_owner; simpl;
    rewrite ?Hn, ?lookup_insert_eq; done.
Qed.

Lemma running_lookup w pid :
  OS.running w pid = true ->
  exists p, procs w !! pid = Some p /\ p_status p = Running.
Proof.
  unfold OS.running, OS.returncode. intros Hr%bool_decide_eq_true.
  destruct (procs w !! pid) as [p|]; [|done].
  exists p. split; [done|]. by destruct (p_status p).
Qed.

Lemma set_status_returncode w pid rc :
  is_Some (procs w !! pid) ->
  OS.returncode (OS.set_status w pid (Exited rc)) pid = Some rc.
Proof.
  intros [p Hp]. unfold OS.returncode, OS.set_status. simpl.
  by rewrite lookup_alter_eq, Hp.
Qed.

(** After [process.terminate()], the bounded wait and [process.kill()]
    a running child has exited: with -15 when it honours SIGTERM, with -9
    when it had to be killed. *)
Lemma terminate_wait_kill_returncode w pid :
  OS.running w pid = true ->
  OS.returncode (OS.terminate_wait_kill w pid) pid
  = Some (if c_honours_sigterm (children w pid) then -15 else -9).
Proof.
  intros Hr. unfold OS.terminate_wait_kill. rewrite Hr.
  apply running_lookup in Hr as (p & Hp & _).
  case_match; by apply set_status_returncode.
Qed.

Lemma cancel_not_busy s w :
  StreamSession.is_busy (StreamSession.cancel s w).1
    (StreamSession.cancel s w).2 = false.
Proof.
  unfold StreamSession.cancel, StreamSession.is_busy.
  destruct (StreamSession.process s) as [pid|] eqn:Hp;
    [|by simpl; rewrite Hp].
  destruct (OS.running w pid) eqn:Hr; simpl; [done|by rewrite Hp].
Qed.

Lemma cancel_stops_child s w pid :
  StreamSession.process s = Some pid ->
  OS.running (StreamSession.cancel s w).2 pid = false.
Proof.
  intros Hp. unfold StreamSession.cancel. rewrite Hp.
  destruct (OS.running w pid) eqn:Hr; simpl; [|done].
  unfold OS.running.
  by rewrite terminate_wait_kill_returncode, bool_decide_eq_false_2.
Qed.

End StreamSessionFacts.

(** C10.  For every streaming session on which [send_message] starts a
    request (the session is not busy), however the iteration over the
    events ends (the stream is exhausted, or an exception or a
    cancellation comes up after some events), the session's process
    handle is [None] afterwards, [is_busy] is false whatever the
    processes do, and the next message is accepted and runs to its
    end. *)
Theorem send_message_clears_process (s : StreamSession.t) (message : str)
    (how : StreamSession.ending) (w : world) :
  StreamSession.is_busy s w = false ->
  let after := (StreamSession.send_message s message how w).2 in
  StreamSession.process after.1 = None
  /\ (forall w', StreamSession.is_busy after.1 w' = false)
  /\ (forall message',
        (StreamSession.send_message after.1 message'
           StreamSession.Exhausted after.2).1.2 = Ok ()).
Proof.
  intros Hbusy after. subst after.
  destruct (send_message_not_busy s message how w Hbusy)
    as (evs & s' & w' & -> & Hproc & _).
  cbn [fst snd]. split; [done|].
  assert (forall w'', StreamSession.is_busy s' w'' = false) as Hfree
    by (intros w''; unfold StreamSession.is_busy; by rewrite Hproc).
  split; [done|]. intros message'.
  destruct (send_message_not_busy s' message' StreamSession.Exhausted w'
              (Hfree w')) as (evs' & s'' & w'' & -> & _).
  done.
Qed.

Lemma send_message_clears_process_witness :
  let s := (Examples.alice_stream [Some Examples.result_with_id]).1 in
  let w := (Examples.alice_stream [Some Examples.result_with_id]).2 in
  StreamSession.is_busy s w = false
  /\ StreamSession.process
       (StreamSession.send_message s (lit "hi")
          (StreamSession.Interrupted 0 CancelledError) w).2.1 = None.
Proof.
  intros s w. split; [by vm_compute|].
  apply (send_message_clears_process s (lit "hi")
           (StreamSession.Interrupted 0 CancelledError) w).
  by vm_compute.
Defined.

(** C3.  For every streaming session: [send_message] on a busy session
    raises the busy error and leaves the session and the machine as they
    were, so no process is spawned.  After [cancel] the child of the
    session has exited (with -15 when it honoured the terminate request
    within the grace period, with -9 when it had to be killed), the
    session is not busy, and a following [send_message] spawns its child
    and runs to its end. *)
Theorem send_message_busy_then_cancel (s : StreamSession.t)
    (message : str) (how : StreamSession.ending) (w : world) :
  (StreamSession.is_busy s w = true ->
   StreamSession.send_message s message how w
   = (([], Raise StreamSession.busy_error), (s, w)))
  /\ (let cancelled := StreamSession.cancel s w in
      StreamSession.is_busy cancelled.1 cancelled.2 = false
      /\ (forall pid,
            StreamSession.process s = Some pid ->
            OS.running cancelled.2 pid = false
            /\ (OS.running w pid = true ->
                StreamSession.process cancelled.1 = None
                /\ OS.returncode cancelled.2 pid
                   = Some (if c_honours_sigterm (children w pid)
                           then -15 else -9)))
      /\ exists evs s' w',
           StreamSession.send_message cancelled.1 message
             StreamSession.Exhausted cancelled.2
           = ((evs, Ok ()), (s', w'))
           /\ next_pid w' = S (next_pid cancelled.2)
           /\ p_owner <$> procs w' !! next_pid cancelled.2
              = Some (StreamSession.user_id s)).
Proof.
  split.
  - intros Hbusy. unfold StreamSession.send_message. by rewrite Hbusy.
  - cbn zeta. split; [apply cancel_not_busy|]. split.
    + intros pid Hp. split; [by apply cancel_stops_child|].
      intros Hr. unfold StreamSession.cancel. rewrite Hp, Hr. simpl.
      split; [done|]. by apply terminate_wait_kill_returncode.
    + destruct (send_message_not_busy (StreamSession.cancel s w).1
                  message StreamSession.Exhausted
                  (StreamSession.cancel s w).2 (cancel_not_busy s w))
        as (evs & s' & w' & Hsend & _ & Hn & Ho).
      exists evs, s', w'. split; [done|]. split; [done|].
      rewrite Ho. f_equal. unfold StreamSession.cancel.
      repeat case_match; done.
Qed.

Lemma send_message_busy_then_cancel_witness :
  let s := StreamSession.with_process
             (Examples.alice_stream []).1 (Some 0%nat) in
  let w := (OS.spawn (Examples.alice_stream []).2
              {| p_owner := Examples.alice; p_argv := [];
                 p_cwd := []; p_HOME := None;
                 p_ANTHROPIC_API_KEY := None; p_status := Running |}).2 in
  StreamSession.is_busy s w = true
  /\ StreamSession.send_message s (lit "hi") StreamSession.Exhausted w
     = (([], Raise StreamSession.busy_error), (s, w)).
Proof.
  intros s w. split; [by vm_compute|].
  apply (send_message_busy_then_cancel s (lit "hi")
           StreamSession.Exhausted w).
  by vm_compute.
Defined.

(** ** Final-result events *)

(** What [_parse_event] makes of a final-result line. *)
Lemma parse_result_event (data : Decoded) :
  j_type data = Some (lit "result") ->
  StreamSession._parse_event (Some data)
  = Some {| StreamEvent.type := lit "result";
            StreamEvent.content := default [] (j_result data);
            StreamEvent.raw := data;
            StreamEvent.session_id := j_session_id data;
            StreamEvent.model := j_model data;
            StreamEvent.input_tokens :=
              default 0 (j_usage_input_tokens data);
            StreamEvent.output_tokens :=
              default 0 (j_usage_output_tokens data);
            StreamEvent.cost_usd := default 0%float (j_cost_usd data) |}.
Proof. intros Hty. unfold StreamSession._parse_event. by rewrite Hty. Qed.

(** The session after [send_message] is the session with its child
    spawned, taken through [on_event] for each event yielded, with the
    process handle cleared. *)
Lemma send_message_folds (s : StreamSession.t) (message : str)
    (how : StreamSession.ending) (w : world) :
  StreamSession.is_busy s w = false ->
  exists s1 w1,
    StreamSession.user_id s1 = StreamSession.user_id s
    /\ StreamSession.session_id s1 = StreamSession.session_id s
    /\ StreamSession.model s1 = StreamSession.model s
    /\ StreamSession.total_input_tokens s1
       = StreamSession.total_input_tokens s
    /\ StreamSession.total_output_tokens s1
       = StreamSession.total_output_tokens s
    /\ StreamSession.total_cost_usd s1 = StreamSession.total_cost_usd s
    /\ (StreamSession.send_message s message how w).2.1
       = StreamSession.with_process
           (fold_left (fun s e => StreamSession.on_event s e w1)
              (StreamSession.send_message s message how w).1.1 s1)
           None.
Proof.
  intros Hbusy. unfold StreamSession.send_message. rewrite Hbusy.
  cbn zeta. unfold OS.spawn, try_finally.
  set (w1 := OS.with_procs _ _ _).
  set (s1 := StreamSession.with_last_activity _ _).
  exists s1, w1. repeat split.
  destruct (StreamSession._read_events s1 w1) as [events w_end].
  by destruct how.
Qed.

(** C7 (amended).  For every event that [send_message] takes through
    its loop: a final-result event with a non-empty session id replaces
    the stored continuation id by its own, replaces the stored model when
    it names one (and keeps the stored model when it names none), and
    adds its input tokens, output tokens and cost to the running totals;
    any other event, a final-result event without session id among them,
    leaves continuation id, model and totals as they were. *)
Theorem on_event_folds_result (s : StreamSession.t) (e : StreamEvent.t)
    (w : world) :
  let s' := StreamSession.on_event s e w in
  (StreamEvent.type e = lit "result" ->
   truthy (StreamEvent.session_id e) = true ->
   StreamSession.session_id s' = StreamEvent.session_id e
   /\ StreamSession.model s'
      = (if truthy (StreamEvent.model e) then StreamEvent.model e
         else StreamSession.model s)
   /\ StreamSession.total_input_tokens s'
      = StreamSession.total_input_tokens s + StreamEvent.input_tokens e
   /\ StreamSession.total_output_tokens s'
      = StreamSession.total_output_tokens s + StreamEvent.output_tokens e
   /\ StreamSession.total_cost_usd s'
      = (StreamSession.total_cost_usd s + StreamEvent.cost_usd e)%float)
  /\ (StreamEvent.type e <> lit "result"
      \/ truthy (StreamEvent.session_id e) = false ->
      StreamSession.session_id s' = StreamSession.session_id s
      /\ StreamSession.model s' = StreamSession.model s
      /\ StreamSession.total_input_tokens s'
         = StreamSession.total_input_tokens s
      /\ StreamSession.total_output_tokens s'
         = StreamSession.total_output_tokens s
      /\ StreamSession.total_cost_usd s'
         = StreamSession.total_cost_usd s).
Proof.
  intros s'. subst s'. unfold StreamSession.on_event, str_eqb. split.
  - intros Hty Hsid. rewrite bool_decide_eq_true_2, Hsid by done. done.
  - intros [Hty|Hsid].
    + by rewrite bool_decide_eq_false_2.
    + rewrite Hsid, andb_false_r. done.
Qed.

Lemma on_event_folds_result_witness :
  let s := (Examples.alice_stream []).1 in
  let w := (Examples.alice_stream []).2 in
  exists e,
    StreamSession._parse_event (Some Examples.result_with_id) = Some e
    /\ StreamEvent.type e = lit "result"
    /\ truthy (StreamEvent.session_id e) = true
    /\ StreamSession.total_input_tokens (StreamSession.on_event s e w)
       = StreamSession.total_input_tokens s + StreamEvent.input_tokens e.
Proof.
  intros s w. eexists. split; [reflexivity|].
  split; [by vm_compute|]. split; [by vm_compute|].
  eapply (on_event_folds_result s _ w); by vm_compute.
Defined.

(** C7 as stated fails.  The child prints one final-result line with 10
    input tokens, 5 output tokens, a cost of 0.25 and the model ["opus"]
    but no session id; [send_message] yields the event and the session
    is left with totals of 0 and no model. *)
Lemma on_event_folds_result_counterexample :
  let s := (Examples.alice_stream [Some Examples.result_without_id]).1 in
  let w := (Examples.alice_stream [Some Examples.result_without_id]).2 in
  let run := StreamSession.send_message s (lit "hi")
               StreamSession.Exhausted w in
  (StreamEvent.type <$> run.1.1) = [lit "result"]
  /\ (StreamEvent.input_tokens <$> run.1.1) = [10]
  /\ (StreamEvent.output_tokens <$> run.1.1) = [5]
  /\ (StreamEvent.cost_usd <$> run.1.1) = [0.25%float]
  /\ (StreamEvent.model <$> run.1.1) = [Some (lit "opus")]
  /\ run.1.2 = Ok ()
  /\ StreamSession.total_input_tokens run.2.1 = 0
  /\ StreamSession.total_output_tokens run.2.1 = 0
  /\ StreamSession.total_cost_usd run.2.1 = 0%float
  /\ StreamSession.model run.2.1 = None.
Proof. vm_compute. by repeat split. Qed.

(** ** Stream buffer and formatter *)

Section FormatterFacts.

Implicit Types (b : StreamBuffer.t) (e : StreamEvent.t).




End FormatterFacts.



(** A delta one character short of the threshold is kept; the character
    that reaches it flushes both. *)
Example stream_buffer_flush_at_threshold :
  let d1 := StreamEvent.make (lit "content_block_delta")
              (repeat space 499) empty_object in
  let d2 := StreamEvent.make (lit "content_block_delta")
              (lit "x") empty_object in
  let r1 := StreamBuffer.feed StreamBuffer.init d1 in
  let r2 := StreamBuffer.feed r1.2 d2 in
  r1.1 = None /\ r2.1 = Some (repeat space 499 ++ lit "x").
Proof. vm_compute. by split. Qed.

(** ** Stopping a PTY session *)

Section StopFacts.

Implicit Types (w : world) (p q : path) (uid : str).

Lemma running_ext w w' pid :
  procs w = procs w' -> OS.running w pid = OS.running w' pid.
Proof. unfold OS.running, OS.returncode. by intros ->. Qed.

Lemma rmtree_lookup w p q :
  fs (OS.rmtree w p) !! q
  = if decide (p `prefix_of` q) then None else fs w !! q.
Proof.
  unfold OS.rmtree. simpl. case_decide as Hpre.
  - apply map_lookup_filter_None. right. intros x _ Hnot. by apply Hnot.
  - destruct (fs w !! q) as [x|] eqn:Hq.
    + by apply map_lookup_filter_Some.
    + apply map_lookup_filter_None. by left.
Qed.

Lemma join_tmp p : OS.join p (lit "tmp") = p ++ [lit "tmp"].
Proof. done. Qed.

(** [cleanup_sandbox(user_id, remove_workspace=False)] touches the file
    system only, and there only the [tmp] directory of the workspace. *)
Lemma cleanup_sandbox_keep w uid :
  let w' := SandboxRunner.cleanup_sandbox w uid false in
  let tmp_dir := ConfigFns.get_user_workspace w uid ++ [lit "tmp"] in
  procs w' = procs w /\ open_fds w' = open_fds w /\ tasks w' = tasks w
  /\ next_pid w' = next_pid w /\ next_fd w' = next_fd w
  /\ next_task w' = next_task w
  /\ WORKSPACE_BASE w' = WORKSPACE_BASE w
  /\ ANTHROPIC_API_KEY w' = ANTHROPIC_API_KEY w
  /\ (forall q, ~ tmp_dir `prefix_of` q -> fs w' !! q = fs w !! q)
  /\ (OS.exists_ w (ConfigFns.get_user_workspace w uid) = true ->
      fs w' !! tmp_dir = None).
Proof.
  cbn zeta. unfold SandboxRunner.cleanup_sandbox. rewrite join_tmp.
  cbn [andb].
  destruct (OS.exists_ w (ConfigFns.get_user_workspace w uid)) eqn:Hws;
    [|by repeat split].
  destruct (OS.exists_ w _) eqn:Htmp in |- *.
  - repeat split; try done.
    + intros q Hq. rewrite rmtree_lookup. by case_decide.
    + intros _. rewrite rmtree_lookup. by case_decide.
  - repeat split; try done. intros _.
    unfold OS.exists_ in Htmp. apply bool_decide_eq_false in Htmp.
    by apply eq_None_not_Some.
Qed.

(** [PTYSession.terminate] leaves the child not running and the master
    descriptor closed, and touches nothing else. *)
Lemma pty_terminate_effects (s : PTYSession.t) w :
  let w' := (PTYSession.terminate s w).2 in
  PTYSession.is_alive s w' = false
  /\ (0 <= PTYSession.master_fd s ->
      Z.to_nat (PTYSession.master_fd s) ∉ open_fds w')
  /\ fs w' = fs w /\ tasks w' = tasks w
  /\ WORKSPACE_BASE w' = WORKSPACE_BASE w
  /\ ANTHROPIC_API_KEY w' = ANTHROPIC_API_KEY w.
Proof.
  cbn zeta. unfold PTYSession.terminate, PTYSession.is_alive.
  set (w1 := match PTYSession.process s with
             | Some pid => _
             | None => w
             end).
  assert (match PTYSession.process s with
          | Some pid => OS.running w1 pid
          | None => false
          end = false
          /\ fs w1 = fs w /\ tasks w1 = tasks w
          /\ WORKSPACE_BASE w1 = WORKSPACE_BASE w
          /\ ANTHROPIC_API_KEY w1 = ANTHROPIC_API_KEY w)
    as (Hdead & Hfs & Htasks & Hbase & Hkey).
  { subst w1. destruct (PTYSession.process s) as [pid|]; [|done].
    destruct (OS.running w pid) eqn:Hr; [|done].
    split.
    - unfold OS.running.
      by rewrite terminate_wait_kill_returncode, bool_decide_eq_false_2.
    - unfold OS.terminate_wait_kill. rewrite Hr. by case_match. }
  destruct (Z.leb_spec 0 (PTYSession.master_fd s)) as [Hfd|Hfd]; simpl.
  - repeat split; try done. intros _.
    rewrite elem_of_difference, elem_of_singleton. tauto.
  - repeat split; try done. lia.
Qed.

End StopFacts.



(** ** Starting a session *)

Section StartFacts.

Context {S : Type} `{PyteScreen S}.

Implicit Types (w : world) (uid : str).



(** [setup_sandbox] has the one parameter [user_id] and is called with
    [user_id] and [auth_method]: the call raises [TypeError], so
    [start_session] of the PTY manager ends there or earlier, in the
    state after the teardown. *)
Lemma pty_start_session_state (m : SessionManager.t S) w uid resume auth :
  (SessionManager.start_session m w uid resume auth).2
  = after_teardown m w uid
  /\ (SessionManager.start_session m w uid resume auth).1
     = if bool_decide
            (resolved_auth (after_teardown m w uid).2 uid auth = NONE)
       then Raise no_auth_error
       else Raise (TypeError (lit "setup_sandbox")).
Proof.
  unfold SessionManager.start_session, after_teardown, resolved_auth.
  destruct (if bool_decide _ then _ else _) as [m1 w1]. simpl.
  by case_bool_decide.
Qed.

Lemma mkdir_parents_procs w p : procs (OS.mkdir_parents w p) = procs w.
Proof.
  unfold OS.mkdir_parents. generalize (seq 1 (length p)). intros l.
  revert w. induction l as [|n l IH]; intros w; [done|]. simpl.
  rewrite IH. apply mkdir_procs.
Qed.

(** [start_session] of the streaming manager: a session that exists is
    returned and nothing changes. *)
Lemma stream_start_existing (m : StreamSessionManager.t) w uid auth
    session :
  StreamSessionManager._sessions m !! uid = Some session ->
  StreamSessionManager.start_session m w uid auth = (Ok session, (m, w)).
Proof.
  intros Hs. unfold StreamSessionManager.start_session. by rewrite Hs.
Qed.

(** A successful [start_session] of the streaming manager leaves the
    session it returns in the table and spawns nothing. *)
Lemma stream_start_ok (m : StreamSessionManager.t) w uid auth first :
  (StreamSessionManager.start_session m w uid auth).1 = Ok first ->
  StreamSessionManager._sessions
    (StreamSessionManager.start_session m w uid auth).2.1 !! uid
  = Some first
  /\ procs (StreamSessionManager.start_session m w uid auth).2.2
     = procs w.
Proof.
  unfold StreamSessionManager.start_session.
  destruct (StreamSessionManager._sessions m !! uid) as [session|] eqn:Hs.
  - simpl. by intros [= <-].
  - case_bool_decide; [done|].
    unfold StreamSession.create_stream_session,
      ConfigFns.ensure_workspace. simpl.
    intros [= <-]. split; [apply lookup_insert_eq|].
    apply mkdir_parents_procs.
Qed.

End StartFacts.

(** C2 (amended).  For every user id with a session: [start_session] of
    the PTY manager first tears the session down (it goes on exactly as
    from the state [stop_session] leaves, in which the user has no
    session, and the child of the old session is not running
    afterwards); [start_session] of the streaming manager returns the
    session that exists and changes nothing, so that after two calls in
    a row the table holds the session the first call returned, the
    second call returns it again, and no process has been spawned. *)
Theorem start_session_existing {S : Type} `{PyteScreen S} (uid : str) :
  (forall (m : SessionManager.t S) (w : world) resume auth session,
      SessionManager._sessions m !! uid = Some session ->
      let stopped := SessionManager.stop_session m w uid in
      let started := SessionManager.start_session m w uid resume auth in
      started
      = SessionManager.start_session stopped.1 stopped.2 uid resume auth
      /\ SessionManager._sessions stopped.1 !! uid = None
      /\ PTYSession.is_alive (UserSession.pty session) started.2.2 = false)
  /\ (forall (m : StreamSessionManager.t) (w : world) auth session,
        StreamSessionManager._sessions m !! uid = Some session ->
        StreamSessionManager.start_session m w uid auth
        = (Ok session, (m, w)))
  /\ (forall (m : StreamSessionManager.t) (w : world) auth auth' first,
        (StreamSessionManager.start_session m w uid auth).1 = Ok first ->
        let after := (StreamSessionManager.start_session m w uid auth).2 in
        StreamSessionManager._sessions after.1 !! uid = Some first
        /\ procs after.2 = procs w
        /\ StreamSessionManager.start_session after.1 after.2 uid auth'
           = (Ok first, after)).
Proof.
  split; [|split].
  - intros m w resume auth session Hs. cbn zeta.
    assert (SessionManager._sessions (SessionManager.stop_session m w uid).1
              !! uid = None) as Hgone
      by (unfold SessionManager.stop_session; apply lookup_delete_eq).
    split; [|split; [done|]].
    + unfold SessionManager.start_session at 1 2.
      rewrite bool_decide_eq_true_2 by (by rewrite Hs).
      rewrite Hgone, bool_decide_eq_false_2 by (by intros [??]).
      by destruct (SessionManager.stop_session m w uid).
    + destruct (pty_start_session_state m w uid resume auth) as [-> _].
      unfold after_teardown.
      rewrite bool_decide_eq_true_2 by (by rewrite Hs).
      unfold SessionManager.stop_session. rewrite Hs.
      set (w_c := match UserSession._output_task session with
                  | Some task => OS.cancel_task w task
                  | None => w
                  end).
      pose proof (pty_terminate_effects (UserSession.pty session) w_c)
        as (Hdead & _).
      destruct (PTYSession.terminate _ w_c) as [pty' w_t]. simpl in *.
      destruct (cleanup_sandbox_keep w_t uid) as (Hprocs & _).
      unfold PTYSession.is_alive in *.
      destruct (PTYSession.process _) as [pid|]; [|done].
      by rewrite (running_ext _ w_t).
  - intros m w auth session. apply stream_start_existing.
  - intros m w auth auth' first Hok. cbn zeta.
    destruct (stream_start_ok m w uid auth first Hok) as [Hin Hprocs].
    split; [done|]. split; [done|].
    destruct (StreamSessionManager.start_session m w uid auth)
      as [r [m1 w1]]. by apply stream_start_existing.
Qed.

Lemma start_session_existing_witness :
  let m := Examples.alice_busy.1 in
  let w := Examples.alice_busy.2 in
  exists session,
    StreamSessionManager._sessions m !! Examples.alice = Some session
    /\ StreamSessionManager.start_session m w Examples.alice None
       = (Ok session, (m, w)).
Proof.
  intros m w. eexists. split; [by vm_compute|].
  eapply (start_session_existing (S := GridScreen.t) Examples.alice).
  by vm_compute.
Defined.

(** C2 as stated fails.  Alice's streaming session is in the middle of a
    request, with a continuation id and its child running.
    [start_session] returns that very session and leaves manager and
    machine as they were: the child is still running and the session
    still has its continuation id, so nothing was torn down and nothing
    is fresh. *)
Lemma start_session_existing_counterexample :
  exists session,
    StreamSessionManager._sessions Examples.alice_busy.1 !! Examples.alice
    = Some session
    /\ StreamSessionManager.start_session Examples.alice_busy.1
         Examples.alice_busy.2 Examples.alice None
       = (Ok session, Examples.alice_busy)
    /\ UserStreamSession.is_busy session Examples.alice_busy.2 = true
    /\ StreamSession.session_id (UserStreamSession.stream session)
       = Some (lit "conv-1")
    /\ OS.live_transports Examples.alice_busy.2 Examples.alice = [0%nat].
Proof. eexists. vm_compute. by repeat split. Qed.




(** On the PTY side, with a running session of Alice and no means of
    authentication, [start_session] raises the authentication error and
    her session is gone from the table. *)
Example start_session_without_auth_pty :
  Auth.get_auth_method Examples.alice_pty.2 Examples.alice = NONE
  /\ is_Some (SessionManager._sessions Examples.alice_pty.1
                !! Examples.alice)
  /\ (SessionManager.start_session Examples.alice_pty.1
        Examples.alice_pty.2 Examples.alice None None).1
     = Raise no_auth_error
  /\ SessionManager._sessions
       (SessionManager.start_session Examples.alice_pty.1
          Examples.alice_pty.2 Examples.alice None None).2.1
     = ∅.
Proof.
  split; [by vm_compute|]. split; [vm_compute; by eexists|].
  split; by vm_compute.
Qed.

(** Stopping Alice's PTY session: her child is no longer running, the
    scratch file and [tmp] are gone, the workspace and the notes are
    still there. *)
Example stop_session_on_files :
  let ws := ConfigFns.get_user_workspace Examples.alice_pty_files.2
              Examples.alice in
  let stopped := SessionManager.stop_session Examples.alice_pty_files.1
                   Examples.alice_pty_files.2 Examples.alice in
  OS.live_transports Examples.alice_pty_files.2 Examples.alice = [0%nat]
  /\ OS.live_transports stopped.2 Examples.alice = []
  /\ fs stopped.2 !! ws = Some Dir
  /\ fs stopped.2 !! (ws ++ [lit "notes.txt"]) = Some (File false)
  /\ fs stopped.2 !! (ws ++ [lit "tmp"]) = None
  /\ fs stopped.2 !! (ws ++ [lit "tmp"; lit "scratch"]) = None.
Proof. vm_compute. by repeat split. Qed.

(** In this snapshot the PTY manager cannot start a session: with an API
    key configured, [start_session] raises the [TypeError] of the call
    of [setup_sandbox] and no session is created. *)
Example start_session_pty_raises :
  let started :=
    SessionManager.start_session (S := GridScreen.t) SessionManager.init
      (Examples.machine (Some (lit "sk-test")) []) Examples.alice None
      None in
  started.1 = Raise (TypeError (lit "setup_sandbox"))
  /\ SessionManager._sessions started.2.1 = ∅.
Proof. vm_compute. by split. Qed.

(** * Further properties *)

(** ** Chunking: sizes and fence-free text *)

Section ChunkMore.

Implicit Types remaining text sub : str.

Lemma split_point_pos remaining limit :
  (0 < limit)%nat -> (limit < length remaining)%nat ->
  (1 <= split_point remaining limit)%nat.
Proof.
  intros Hpos Hlen.
  destruct (split_point_range remaining limit Hlen) as [_ [->|Hsp]];
    [lia|].
  assert (0 <= Z.of_nat limit / 2) by (apply Z.div_pos; lia). lia.
Qed.

Lemma chunk_slices_nonempty fuel limit remaining sl :
  (0 < limit)%nat ->
  chunk_slices fuel limit remaining = Some sl ->
  Forall (fun s => render s <> []) sl.
Proof.
  intros Hpos. revert remaining sl.
  induction fuel as [|fuel IH]; intros remaining sl; [done|].
  cbn [chunk_slices].
  destruct remaining as [|c remaining]; [intros [= <-]; constructor|].
  destruct (length (c :: remaining) <=? limit)%nat eqn:Hlen.
  { intros [= <-]. by repeat constructor. }
  apply Nat.leb_gt in Hlen.
  pose proof (split_point_pos (c :: remaining) limit Hpos Hlen) as Hsp.
  destruct (split_point (c :: remaining) limit) as [|sp]; [lia|].
  case_match;
    destruct (chunk_slices fuel _ _) as [rest|] eqn:Hrest;
    try discriminate; intros [= <-]; constructor;
    try (by eapply IH).
  - unfold render. simpl. by destruct (rstrip _).
  - done.
Qed.

(** No occurrence of [sub] in [s]: none in what is left after dropping
    or keeping a prefix, and a count of 0. *)
Lemma contains_false_cons c s sub :
  contains (c :: s) sub = false -> contains s sub = false.
Proof. cbn [contains]. by intros [_ ?]%orb_false_elim. Qed.

Lemma contains_false_drop n s sub :
  contains s sub = false -> contains (drop n s) sub = false.
Proof.
  revert s. induction n as [|n IH]; intros s Hs; [done|].
  destruct s as [|c s]; [done|]. simpl.
  by apply IH, (contains_false_cons c).
Qed.

Lemma startswith_take n s sub :
  startswith (take n s) sub = true -> startswith s sub = true.
Proof.
  rewrite !startswith_prefix_of. intros Hp.
  etrans; [done|]. apply prefix_take.
Qed.

Lemma contains_false_take n s sub :
  contains s sub = false -> contains (take n s) sub = false.
Proof.
  revert n. induction s as [|c s IH]; intros n Hs.
  - by rewrite take_nil.
  - destruct n as [|n].
    + simpl. destruct sub; [|done]. by destruct (c :: s).
    + cbn [take contains]. apply orb_false_intro.
      * destruct (startswith (c :: take n s) sub) eqn:Hst; [|done].
        apply (startswith_take (S n) (c :: s)) in Hst.
        cbn [contains] in Hs. by rewrite Hst in Hs.
      * by apply IH, (contains_false_cons c).
Qed.

Lemma contains_false_app s t sub :
  contains (s ++ t) sub = false ->
  contains s sub = false /\ contains t sub = false.
Proof.
  intros Hc. split.
  - rewrite <- (take_app_length s t). by apply contains_false_take.
  - rewrite <- (drop_app_length s t). by apply contains_false_drop.
Qed.

Lemma count_from_absent k s sub :
  contains s sub = false -> count_from k s sub = 0%nat.
Proof.
  revert k. induction s as [|c s IH]; intros k Hs; [done|].
  pose proof (contains_false_cons _ _ _ Hs) as Hs'.
  cbn [contains] in Hs. apply orb_false_elim in Hs as [Hst _].
  destruct k as [|k]; cbn [count_from]; [|by apply IH].
  rewrite Hst. by apply IH.
Qed.

(** On text without fence the loop only cuts: the slices are pieces of
    at most [limit] characters that concatenate to the text, and one
    round for each character is enough. *)
Lemma chunk_slices_fence_free fuel limit remaining :
  (0 < limit)%nat -> (length remaining < fuel)%nat ->
  contains remaining fence = false ->
  exists sl,
    chunk_slices fuel limit remaining = Some sl
    /\ concat (map render sl) = remaining
    /\ Forall (fun s => (length (render s) <= limit)%nat) sl.
Proof.
  intros Hpos. revert remaining.
  induction fuel as [|fuel IH]; intros remaining Hfuel Hfree; [lia|].
  cbn [chunk_slices].
  destruct remaining as [|c remaining]; [by exists []|].
  destruct (length (c :: remaining) <=? limit)%nat eqn:Hlen.
  { apply Nat.leb_le in Hlen. eexists. split; [done|]. split.
    - simpl. by rewrite app_nil_r.
    - by repeat constructor. }
  apply Nat.leb_gt in Hlen.
  pose proof (split_point_pos (c :: remaining) limit Hpos Hlen) as Hsp1.
  pose proof (split_point_le (c :: remaining) limit Hlen) as Hsp2.
  set (sp := split_point (c :: remaining) limit) in *.
  unfold count. rewrite count_from_absent by (by apply contains_false_take).
  cbn [Nat.odd].
  destruct (IH (drop sp (c :: remaining))) as (rest & -> & Hcat & Hall).
  { rewrite length_drop. simpl in *. lia. }
  { by apply contains_false_drop. }
  eexists. split; [done|]. split.
  - cbn [map concat render repaired raw]. rewrite Hcat. apply take_drop.
  - constructor; [|done]. cbn [render repaired raw].
    rewrite length_take. lia.
Qed.

Lemma chunk_fuel_pieces_size (fuel : nat) (text : str) (limit : nat)
    (pieces : list str) :
  (0 < limit)%nat ->
  chunk_for_discord_fuel fuel text limit = Some pieces ->
  Forall (fun p => (1 <= length p <= limit + 4)%nat) pieces.
Proof.
  intros Hpos. unfold chunk_for_discord_fuel.
  destruct (length text <=? limit)%nat eqn:Hlen.
  - apply Nat.leb_le in Hlen. intros [= <-].
    destruct text as [|c text]; [constructor|].
    constructor; [simpl in *; lia|constructor].
  - rewrite chunk_loop_slices.
    destruct (chunk_slices fuel limit text) as [sl|] eqn:Hsl; [|done].
    intros [= <-]. simpl. apply Forall_fmap, Forall_forall.
    intros s Hs. simpl.
    pose proof (chunk_slices_nonempty fuel limit text sl Hpos Hsl) as Hne.
    pose proof (chunk_slices_raw_length fuel limit text sl Hsl) as Hraw.
    rewrite Forall_forall in Hne, Hraw.
    pose proof (render_length s). specialize (Hne s Hs).
    specialize (Hraw s Hs). simpl in Hraw.
    destruct (render s); [done|]. simpl in *. lia.
Qed.

Lemma chunk_slices_cons_nonempty fuel limit c remaining sl :
  chunk_slices fuel limit (c :: remaining) = Some sl -> sl <> [].
Proof.
  destruct fuel as [|fuel]; [done|]. cbn [chunk_slices].
  destruct (_ <=? _)%nat; [by intros [= <-]|].
  destruct (Nat.odd _);
    (destruct (chunk_slices fuel _ _); [|done]); by intros [= <-].
Qed.

Lemma chunk_fuel_pieces_nonempty fuel c text limit pieces :
  chunk_for_discord_fuel fuel (c :: text) limit = Some pieces ->
  pieces <> [].
Proof.
  unfold chunk_for_discord_fuel. destruct (_ <=? _)%nat.
  - by intros [= <-].
  - rewrite chunk_loop_slices.
    destruct (chunk_slices fuel limit (c :: text)) as [sl|] eqn:Hsl;
      [|done].
    intros [= <-]. simpl.
    apply chunk_slices_cons_nonempty in Hsl. by destruct sl.
Qed.

Lemma chunk_fence_free (text : str) (limit : nat) :
  (0 < limit)%nat -> contains text fence = false ->
  exists pieces,
    chunk_for_discord text limit = Some pieces
    /\ concat pieces = text
    /\ Forall (fun p => (1 <= length p <= limit)%nat) pieces.
Proof.
  intros Hpos Hfree. unfold chunk_for_discord, chunk_for_discord_fuel.
  destruct (length text <=? limit)%nat eqn:Hlen.
  - apply Nat.leb_le in Hlen. eexists. split; [done|].
    destruct text as [|c text]; simpl; rewrite ?app_nil_r;
      (split; [done|]); [constructor|].
    constructor; [simpl in *; lia|constructor].
  - rewrite chunk_loop_slices.
    destruct (chunk_slices_fence_free (S (length text)) limit text)
      as (sl & Hsl & Hcat & Hall); [done|lia|done|].
    rewrite Hsl. eexists. split; [done|]. split; [done|].
    simpl. apply Forall_fmap, Forall_forall. intros s Hs. simpl.
    pose proof (chunk_slices_nonempty _ _ _ _ Hpos Hsl) as Hne.
    rewrite Forall_forall in Hne, Hall.
    specialize (Hne s Hs). specialize (Hall s Hs). simpl in Hall.
    destruct (render s); [done|]. simpl in *. lia.
Qed.

End ChunkMore.

(** X1.  For every limit above 0, whatever [chunk_for_discord] returns
    holds no empty piece, and no piece is more than four characters
    longer than the limit. *)
Theorem chunk_pieces_size (fuel : nat) (text : str) (limit : nat)
    (pieces : list str) :
  (0 < limit)%nat ->
  chunk_for_discord_fuel fuel text limit = Some pieces ->
  Forall (fun p => (1 <= length p <= limit + 4)%nat) pieces.
Proof. apply chunk_fuel_pieces_size. Qed.

Lemma chunk_pieces_size_witness :
  (0 < 10)%nat
  /\ chunk_for_discord_fuel 20 (lit "```abcdefghijklmnop") 10
     = Some [lit "```abcdefg" ++ nl_fence;
             fence_nl ++ lit "hijklm" ++ nl_fence;
             fence_nl ++ lit "nop"]
  /\ Forall (fun p => (1 <= length p <= 10 + 4)%nat)
       [lit "```abcdefg" ++ nl_fence;
        fence_nl ++ lit "hijklm" ++ nl_fence;
        fence_nl ++ lit "nop"].
Proof.
  split; [lia|]. split; [by vm_compute|].
  apply (chunk_pieces_size 20 (lit "```abcdefghijklmnop") 10);
    [lia|by vm_compute].
Defined.

(** X2.  For every limit above 0 and every text in which the fence
    marker does not occur, [chunk_for_discord] returns, the pieces
    concatenate to the text exactly, and each piece is non-empty and at
    most [limit] characters long. *)
Theorem chunk_fence_free_partition (text : str) (limit : nat) :
  (0 < limit)%nat -> contains text fence = false ->
  exists pieces,
    chunk_for_discord text limit = Some pieces
    /\ concat pieces = text
    /\ Forall (fun p => (1 <= length p <= limit)%nat) pieces.
Proof. apply chunk_fence_free. Qed.

Lemma chunk_fence_free_partition_witness :
  (0 < 10)%nat
  /\ contains (lit "hello world, this is a test of it") fence = false
  /\ exists pieces,
       chunk_for_discord (lit "hello world, this is a test of it") 10
       = Some pieces
       /\ concat pieces = lit "hello world, this is a test of it"
       /\ Forall (fun p => (1 <= length p <= 10)%nat) pieces.
Proof.
  split; [lia|]. split; [by vm_compute|].
  apply (chunk_fence_free_partition
           (lit "hello world, this is a test of it") 10);
    [lia|by vm_compute].
Defined.

(** ** Formatting and ANSI stripping *)

Section TextFacts.

Implicit Types (s t u text : str) (p : OutputText.pattern).

Lemma nl_not_fence : nl ∉ fence.
Proof. apply fence_not_space. done. Qed.

(** Wrapping in a code block adds exactly two fence markers. *)
Lemma count_wrapped text :
  count (fence_nl ++ text ++ nl_fence) fence = S (S (count text fence)).
Proof.
  unfold count.
  change (fence_nl ++ text ++ nl_fence)
    with (fence ++ nl :: (text ++ nl :: fence)).
  rewrite (count_from_app_foreign nl fence fence);
    [|apply nl_not_fence|done|simpl; lia].
  rewrite (count_from_app_foreign nl fence text);
    [|apply nl_not_fence|done|simpl; lia].
  change (count_from 0 fence fence) with 1%nat. lia.
Qed.

Lemma ANSI_ESCAPE_esc_led : esc_led OutputText.ANSI_ESCAPE.
Proof.
  intros [|e [|b rest]] n; simpl; try done.
  destruct (Ascii.eqb_spec e OutputText.esc) as [->|]; [|done].
  intros _. by eexists.
Qed.

Lemma ANSI_OSC_esc_led : esc_led OutputText.ANSI_OSC.
Proof.
  intros [|e [|b rest]] n; simpl; try done.
  destruct (Ascii.eqb_spec e OutputText.esc) as [->|]; [|done].
  intros _. by eexists.
Qed.

Lemma sub_empty_app_plain p u s :
  esc_led p -> OutputText.esc ∉ u ->
  OutputText.sub_empty p 0 (u ++ s) = u ++ OutputText.sub_empty p 0 s.
Proof.
  intros Hp. induction u as [|c u IH]; intros Hu; [done|].
  apply not_elem_of_cons in Hu as [Hc Hu].
  cbn [app OutputText.sub_empty].
  destruct (p (c :: u ++ s)) as [n|] eqn:Hm.
  - apply Hp in Hm as [s' [= -> _]]. done.
  - by rewrite IH.
Qed.

Lemma sub_empty_plain p s :
  esc_led p -> OutputText.esc ∉ s -> OutputText.sub_empty p 0 s = s.
Proof.
  intros Hp Hs. rewrite <- (app_nil_r s) at 1.
  rewrite sub_empty_app_plain by done. simpl. apply app_nil_r.
Qed.

Lemma sub_empty_skip p u s :
  OutputText.sub_empty p (length u) (u ++ s) = OutputText.sub_empty p 0 s.
Proof. induction u as [|c u IH]; [done|]. simpl. apply IH. Qed.

Lemma sub_empty_sublist p k s : OutputText.sub_empty p k s `sublist_of` s.
Proof.
  revert k. induction s as [|c s IH]; intros k; [constructor|].
  cbn [OutputText.sub_empty]. destruct k as [|k].
  - destruct (p (c :: s)) as [[|n]|].
    + by apply sublist_skip.
    + by apply sublist_cons.
    + by apply sublist_skip.
  - by apply sublist_cons.
Qed.

Lemma csi_rest_app params letter rest :
  Forall (fun c => OutputText.is_csi_param c = true) params ->
  OutputText.is_ascii_letter letter = true ->
  OutputText.csi_rest (params ++ letter :: rest)
  = Some (S (length params)).
Proof.
  intros Hparams Hletter.
  induction Hparams as [|c params Hc _ IH]; simpl.
  - rewrite Hletter.
    replace (OutputText.is_csi_param letter) with false; [done|].
    symmetry. unfold OutputText.is_csi_param, OutputText.is_ascii_letter
      in *. revert Hletter. generalize (nat_of_ascii letter). intros n.
    rewrite !orb_true_iff, !andb_true_iff, !Nat.leb_le.
    intros Hn. apply orb_false_intro.
    + apply andb_false_iff. rewrite !Nat.leb_gt. lia.
    + apply Nat.eqb_neq. lia.
  - by rewrite Hc, IH.
Qed.

Lemma osc_rest_app body rest :
  OutputText.bel ∉ body ->
  OutputText.osc_rest (body ++ OutputText.bel :: rest)
  = Some (S (length body)).
Proof.
  induction body as [|c body IH]; intros Hbody; simpl.
  - done.
  - apply not_elem_of_cons in Hbody as [Hc Hbody].
    destruct (Ascii.eqb_spec c OutputText.bel); [done|].
    by rewrite IH.
Qed.

Lemma sub_empty_keep p c s :
  p (c :: s) = None ->
  OutputText.sub_empty p 0 (c :: s) = c :: OutputText.sub_empty p 0 s.
Proof. intros Hm. cbn [OutputText.sub_empty]. by rewrite Hm. Qed.

Lemma sub_empty_match p u c s :
  p (c :: u ++ s) = Some (S (length u)) ->
  OutputText.sub_empty p 0 (c :: u ++ s) = OutputText.sub_empty p 0 s.
Proof.
  intros Hm. cbn [OutputText.sub_empty]. rewrite Hm.
  apply sub_empty_skip.
Qed.

Lemma ANSI_ESCAPE_csi params letter rest :
  Forall (fun c => OutputText.is_csi_param c = true) params ->
  OutputText.is_ascii_letter letter = true ->
  OutputText.ANSI_ESCAPE
    (OutputText.esc :: (ascii_of_nat 91 :: params ++ [letter]) ++ rest)
  = Some (S (length (ascii_of_nat 91 :: params ++ [letter]))).
Proof.
  intros Hparams Hletter. cbn [OutputText.ANSI_ESCAPE app].
  rewrite !Ascii.eqb_refl. cbn [andb].
  rewrite <- app_assoc. cbn [app].
  rewrite csi_rest_app by done. cbn [fmap option_fmap option_map length].
  by rewrite length_app, Nat.add_1_r.
Qed.

Lemma ANSI_OSC_osc body rest :
  OutputText.bel ∉ body ->
  OutputText.ANSI_OSC
    (OutputText.esc
       :: (ascii_of_nat 93 :: body ++ [OutputText.bel]) ++ rest)
  = Some (S (length (ascii_of_nat 93 :: body ++ [OutputText.bel]))).
Proof.
  intros Hbody. cbn [OutputText.ANSI_OSC app].
  rewrite !Ascii.eqb_refl. cbn [andb].
  rewrite <- app_assoc. cbn [app].
  rewrite osc_rest_app by done. cbn [fmap option_fmap option_map length].
  by rewrite length_app, Nat.add_1_r.
Qed.

End TextFacts.

(** X3.  [format_for_discord] is idempotent: its result is the text
    itself or the text wrapped in a code block, a wrapped text is not
    wrapped again, and only the empty text gives the empty result.
    Wrapping adds two fence markers, so the parity of the fence count is
    that of the text. *)
Theorem format_for_discord_idempotent (text : str) :
  OutputText.format_for_discord (OutputText.format_for_discord text)
  = OutputText.format_for_discord text
  /\ (OutputText.format_for_discord text = text
      \/ OutputText.format_for_discord text
         = fence_nl ++ text ++ nl_fence)
  /\ (OutputText.format_for_discord text = [] <-> text = [])
  /\ Nat.even (count (OutputText.format_for_discord text) fence)
     = Nat.even (count text fence).
Proof.
  assert (OutputText.format_for_discord text = text
          \/ (OutputText.format_for_discord text
               = fence_nl ++ text ++ nl_fence /\ text <> []))
    as [Hsame|[Hwrap Hne]].
  { unfold OutputText.format_for_discord.
    destruct text as [|c text]; [by left|].
    destruct (startswith (c :: text) fence); [by left|].
    destruct (_ || _); [by right|by left]. }
  - rewrite !Hsame. repeat split; try done. by left.
  - rewrite !Hwrap. split; [|split; [|split]].
    + change (fence_nl ++ text ++ nl_fence)
        with (backtick :: backtick :: backtick :: nl :: text ++ nl_fence).
      done.
    + by right.
    + done.
    + rewrite count_wrapped. by rewrite !Nat.even_succ_succ.
Qed.

(** X4.  [strip_ansi] leaves text without ESC as it is; removes a CSI
    sequence (ESC, bracket, digits and semicolons, a letter) and an OSC
    sequence (ESC, closing bracket, text up to BEL) in front of any text;
    and only ever removes characters: what it returns is the text with
    some characters taken out, in the same order. *)
Theorem strip_ansi_removes (text : str) :
  (OutputText.esc ∉ text -> OutputText.strip_ansi text = text)
  /\ (forall params letter,
        Forall (fun c => OutputText.is_csi_param c = true) params ->
        OutputText.is_ascii_letter letter = true ->
        OutputText.strip_ansi
          (OutputText.esc :: ascii_of_nat 91 :: params ++ letter :: text)
        = OutputText.strip_ansi text)
  /\ (forall body,
        OutputText.esc ∉ body -> OutputText.bel ∉ body ->
        OutputText.strip_ansi
          (OutputText.esc :: ascii_of_nat 93
             :: body ++ OutputText.bel :: text)
        = OutputText.strip_ansi text)
  /\ OutputText.strip_ansi text `sublist_of` text.
Proof.
  unfold OutputText.strip_ansi. split; [|split; [|split]].
  - intros Hplain.
    rewrite (sub_empty_plain OutputText.ANSI_ESCAPE)
      by (done || apply ANSI_ESCAPE_esc_led).
    by apply sub_empty_plain; [apply ANSI_OSC_esc_led|].
  - intros params letter Hparams Hletter. f_equal.
    rewrite (cons_middle letter params text), app_assoc.
    change (ascii_of_nat 91 :: (params ++ [letter]) ++ text)
      with ((ascii_of_nat 91 :: params ++ [letter]) ++ text).
    apply sub_empty_match. by apply ANSI_ESCAPE_csi.
  - intros body Hesc Hbel.
    rewrite (cons_middle OutputText.bel body text), app_assoc.
    change (ascii_of_nat 93 :: (body ++ [OutputText.bel]) ++ text)
      with ((ascii_of_nat 93 :: body ++ [OutputText.bel]) ++ text).
    rewrite sub_empty_keep by done.
    rewrite sub_empty_app_plain.
    + apply sub_empty_match. by apply ANSI_OSC_osc.
    + apply ANSI_ESCAPE_esc_led.
    + rewrite not_elem_of_cons, not_elem_of_app, list_elem_of_singleton.
      done.
  - etrans; apply sub_empty_sublist.
Qed.

Lemma strip_ansi_removes_witness :
  Forall (fun c => OutputText.is_csi_param c = true) (lit "1;31")
  /\ OutputText.is_ascii_letter (ascii_of_nat 109) = true
  /\ OutputText.strip_ansi
       (OutputText.esc :: ascii_of_nat 91
          :: lit "1;31" ++ ascii_of_nat 109 :: lit "red")
     = OutputText.strip_ansi (lit "red").
Proof.
  split; [by repeat constructor|]. split; [done|].
  apply (strip_ansi_removes (lit "red")); [by repeat constructor|done].
Defined.

(** ** Screen content *)

Section ContentFacts.

Lemma lstrip_head s :
  lstrip s = [] \/ exists c s', lstrip s = c :: s' /\ is_space c = false.
Proof.
  induction s as [|c s IH]; [by left|]. simpl.
  destruct (is_space c) eqn:Hc; [done|]. right. by exists c, s.
Qed.

(** A right-stripped string is empty or ends in a character that is not
    white space. *)
Lemma rstrip_last s :
  rstrip s = []
  \/ exists s' c, rstrip s = s' ++ [c] /\ is_space c = false.
Proof.
  unfold rstrip. destruct (lstrip_head (rev s)) as [->|(c & s' & -> & Hc)];
    [by left|].
  right. by exists (rev s'), c.
Qed.

Lemma rstrip_snoc_solid s c : is_space c = false -> rstrip (s ++ [c]) = s ++ [c].
Proof.
  intros Hc. unfold rstrip. rewrite rev_app_distr. simpl. rewrite Hc.
  simpl. by rewrite rev_involutive.
Qed.

Lemma pop_trailing_empty_last lines :
  TerminalEmulator.pop_trailing_empty lines = []
  \/ exists ls l,
       TerminalEmulator.pop_trailing_empty lines = ls ++ [l] /\ l <> [].
Proof.
  induction lines as [|l lines IH]; [by left|].
  cbn [TerminalEmulator.pop_trailing_empty].
  destruct IH as [->|(ls & x & -> & Hx)].
  - destruct l as [|c l]; [by left|]. right. by exists [], (c :: l).
  - right. exists (l :: ls), x. split; [|done].
    destruct (ls ++ [x]) eqn:E; [by destruct ls|].
    simpl. by rewrite E.
Qed.

Lemma pop_trailing_empty_nil lines :
  TerminalEmulator.pop_trailing_empty lines = []
  <-> Forall (fun l => l = []) lines.
Proof.
  induction lines as [|l lines IH]; [done|].
  cbn [TerminalEmulator.pop_trailing_empty]. rewrite Forall_cons, <- IH.
  destruct (TerminalEmulator.pop_trailing_empty lines), l;
    intuition congruence.
Qed.

Lemma pop_trailing_empty_Forall (P : str -> Prop) lines :
  Forall P lines -> Forall P (TerminalEmulator.pop_trailing_empty lines).
Proof.
  induction 1 as [|l lines Hl Hall IH]; [done|].
  cbn [TerminalEmulator.pop_trailing_empty].
  destruct (TerminalEmulator.pop_trailing_empty lines) eqn:E, l;
    try constructor; done.
Qed.

Lemma pop_trailing_empty_elem l lines :
  l ∈ TerminalEmulator.pop_trailing_empty lines -> l ∈ lines.
Proof.
  intros Hin.
  assert (Forall (fun x => x ∈ lines) lines) as Hall
    by by apply Forall_forall.
  apply (pop_trailing_empty_Forall _ lines) in Hall.
  rewrite Forall_forall in Hall. by apply Hall.
Qed.

Lemma join_lines_snoc ls l :
  exists pre, join_lines (ls ++ [l]) = pre ++ l.
Proof.
  induction ls as [|x ls (pre & IH)]; [by exists []|].
  cbn [app join_lines]. rewrite IH.
  destruct (ls ++ [l]) eqn:E; [by destruct ls|].
  exists (x ++ nl :: pre). by rewrite <- app_assoc.
Qed.

Lemma content_of_display_last display :
  TerminalEmulator.content_of_display display = []
  \/ exists s c,
       TerminalEmulator.content_of_display display = s ++ [c]
       /\ is_space c = false.
Proof.
  unfold TerminalEmulator.content_of_display.
  destruct (pop_trailing_empty_last (map rstrip display))
    as [->|(ls & l & Hpop & Hl)]; [by left|].
  right. rewrite Hpop.
  assert (l ∈ map rstrip display) as Hin.
  { apply pop_trailing_empty_elem. rewrite Hpop.
    apply elem_of_app. right. left. }
  apply list_elem_of_fmap in Hin as (row & -> & _).
  destruct (rstrip_last row) as [E|(s & c & E & Hc)]; [done|].
  destruct (join_lines_snoc ls (rstrip row)) as (pre & ->).
  exists (pre ++ s), c. by rewrite E, app_assoc.
Qed.

Lemma split_lines_cons_nonnl c s :
  c <> nl ->
  split_lines (c :: s)
  = match split_lines s with
    | l :: ls => (c :: l) :: ls
    | [] => [[c]]
    end.
Proof.
  intros Hc. cbn [split_lines].
  by destruct (Ascii.eqb_spec c nl).
Qed.

Lemma split_lines_app_line l s :
  nl ∉ l ->
  split_lines (l ++ nl :: s) = l :: split_lines s.
Proof.
  induction l as [|c l IH]; intros Hl.
  - cbn [app split_lines]. by rewrite Ascii.eqb_refl.
  - apply not_elem_of_cons in Hl as [Hc Hl].
    cbn [app]. rewrite split_lines_cons_nonnl by done. by rewrite IH.
Qed.

Lemma split_lines_line l : nl ∉ l -> split_lines l = [l].
Proof.
  induction l as [|c l IH]; intros Hl; [done|].
  apply not_elem_of_cons in Hl as [Hc Hl].
  rewrite split_lines_cons_nonnl by done. by rewrite IH.
Qed.

(** [split] undoes [join] on a non-empty list of lines without line
    breaks. *)
Lemma split_join_lines lines :
  lines <> [] -> Forall (fun l => nl ∉ l) lines ->
  split_lines (join_lines lines) = lines.
Proof.
  induction lines as [|l lines IH]; [done|]. intros _ Hall.
  apply Forall_cons in Hall as [Hl Hall].
  destruct lines as [|l' lines]; [by apply split_lines_line|].
  change (join_lines (l :: l' :: lines))
    with (l ++ nl :: join_lines (l' :: lines)).
  rewrite split_lines_app_line by done. by rewrite IH.
Qed.

Lemma rstrip_no_nl row : nl ∉ row -> nl ∉ rstrip row.
Proof.
  intros Hrow Hin. apply Hrow.
  destruct (rstrip_spec row) as (ws & -> & _).
  apply elem_of_app. by left.
Qed.

End ContentFacts.

(** X5.  The content [get_content] reads off the screen never ends in
    white space; it is empty exactly when every row of the screen is
    blank; and when no row holds a line break, splitting the content at
    line breaks gives back the right-stripped rows up to the last row
    that is not blank. *)
Theorem get_content_trimmed {S : Type} `{PyteScreen S}
    (e : TerminalEmulator.t S) :
  rstrip (TerminalEmulator.get_content e) = TerminalEmulator.get_content e
  /\ (TerminalEmulator.get_content e = []
      <-> Forall (fun row => rstrip row = [])
            (TerminalEmulator.get_display e))
  /\ (Forall (fun row => nl ∉ row) (TerminalEmulator.get_display e) ->
      TerminalEmulator.get_content e <> [] ->
      split_lines (TerminalEmulator.get_content e)
      = TerminalEmulator.pop_trailing_empty
          (map rstrip (TerminalEmulator.get_display e))).
Proof.
  unfold TerminalEmulator.get_content, TerminalEmulator.get_display.
  set (display := screen_display _). split; [|split].
  - destruct (content_of_display_last display) as [->|(s & c & -> & Hc)];
      [done|by apply rstrip_snoc_solid].
  - trans (Forall (fun l => l = []) (map rstrip display));
      [|by rewrite Forall_fmap].
    rewrite <- pop_trailing_empty_nil.
    unfold TerminalEmulator.content_of_display.
    destruct (pop_trailing_empty_last (map rstrip display))
      as [->|(ls & l & -> & Hl)]; [done|].
    destruct (join_lines_snoc ls l) as (pre & ->).
    split; [by intros [_ ?]%app_eq_nil|by intros []%app_eq_nil].
  - intros Hrows Hne. unfold TerminalEmulator.content_of_display in *.
    apply split_join_lines; [by intros E; rewrite E in Hne|].
    apply pop_trailing_empty_Forall, Forall_fmap.
    eapply Forall_impl; [done|]. intros row. apply rstrip_no_nl.
Qed.

Lemma get_content_trimmed_witness :
  let e := Examples.small_terminal in
  Forall (fun row => nl ∉ row) (TerminalEmulator.get_display e)
  /\ TerminalEmulator.get_content e = lit "ab" ++ [nl] ++ lit " cd"
  /\ split_lines (TerminalEmulator.get_content e) = [lit "ab"; lit " cd"]
  /\ rstrip (TerminalEmulator.get_content e)
     = TerminalEmulator.get_content e.
Proof.
  intros e.
  assert (Forall (fun row => nl ∉ row) (TerminalEmulator.get_display e))
    as Hrows.
  { vm_compute. repeat constructor;
      intros Hin; repeat (apply elem_of_cons in Hin as [?|Hin]; [done|]);
      by apply elem_of_nil in Hin. }
  assert (TerminalEmulator.get_content e = lit "ab" ++ [nl] ++ lit " cd")
    as Hcontent by by vm_compute.
  destruct (get_content_trimmed e) as (Hstrip & _ & Hsplit).
  split; [done|]. split; [done|]. split; [|exact Hstrip].
  rewrite Hsplit; [by vm_compute|done|by rewrite Hcontent].
Defined.

Example get_content_on_grid :
  let e := TerminalEmulator.feed (S := GridScreen.t) TerminalEmulator.init
             (lit "hello   " ++ [GridScreen.cr; nl] ++ lit "  world ") in
  TerminalEmulator.get_content e = lit "hello" ++ [nl] ++ lit "  world".
Proof. by vm_compute. Qed.

(** X6.  [_send_output] of the bot always gets its chunks: it sends
    nothing exactly when the content is blank, and otherwise sends at
    least one chunk, none of them empty and none longer than the Discord
    limit plus the four characters of a closing fence. *)
Theorem send_output_chunks (content : str) :
  exists chunks,
    OutputText._send_output content = Some chunks
    /\ (chunks = [] <-> strip content = [])
    /\ Forall (fun p => (1 <= length p <= Config.DISCORD_MSG_LIMIT + 4)%nat)
         chunks.
Proof.
  unfold OutputText._send_output.
  destruct (strip content) as [|c stripped] eqn:Hstrip;
    [by exists []|].
  destruct (chunk_for_discord_returns
              (OutputText.format_for_discord content)
              Config.DISCORD_MSG_LIMIT) as [chunks Hchunks];
    [unfold Config.DISCORD_MSG_LIMIT; lia|].
  exists chunks. split; [done|]. split.
  - split; [|done]. intros ->.
    destruct content as [|a content]; [done|].
    assert (exists b t, OutputText.format_for_discord (a :: content)
                        = b :: t) as (b & t & Hfmt).
    { unfold OutputText.format_for_discord.
      destruct (startswith _ _); [by eauto|].
      destruct (_ || _); [|by eauto].
      by exists backtick, (backtick :: backtick :: nl
                             :: (a :: content) ++ nl_fence). }
    rewrite Hfmt in Hchunks.
    by apply chunk_fuel_pieces_nonempty in Hchunks.
  - eapply chunk_fuel_pieces_size; [|exact Hchunks].
    unfold Config.DISCORD_MSG_LIMIT. lia.
Qed.

(** ** A request through the streaming manager *)

Section ProcessFacts.

Implicit Types (f : StreamOutputFormatter.t) (e : StreamEvent.t).

Lemma read_events_child (s : StreamSession.t) w pid :
  StreamSession.process s = Some pid ->
  StreamSession._read_events s w
  = (child_events (children w pid), OS.wait w pid).
Proof. unfold StreamSession._read_events. by intros ->. Qed.

(** What an idle session's [send_message] yields when the generator is
    run to its end: the events of the child it spawned. *)
Lemma send_message_exhausted (s : StreamSession.t) message w :
  StreamSession.is_busy s w = false ->
  (StreamSession.send_message s message StreamSession.Exhausted w).1
  = (child_events (children w (next_pid w)), Ok ()).
Proof.
  intros Hbusy. unfold StreamSession.send_message. rewrite Hbusy.
  cbn zeta. unfold OS.spawn, try_finally.
  set (w1 := if _ && _ then _ else _).
  assert (next_pid w1 = next_pid w /\ children w1 = children w)
    as [Hn Hc].
  { subst w1. unfold OS.symlink_to, OS.mkdir.
    repeat case_match; done. }
  erewrite read_events_child by done. simpl. by rewrite Hn, Hc.
Qed.

Lemma delta_text_cons e events :
  delta_text (e :: events)
  = (if str_eqb (StreamEvent.type e) (lit "content_block_delta")
     then StreamEvent.content e else [])
    ++ delta_text events.
Proof.
  unfold delta_text, str_eqb. rewrite filter_cons.
  by case_bool_decide; case_decide.
Qed.

(** One plain event through the formatter: what is returned and what
    is kept make up what was kept before and the event's delta. *)
Lemma formatter_feed_plain f e :
  plain_event e ->
  let delta :=
    if str_eqb (StreamEvent.type e) (lit "content_block_delta")
    then StreamEvent.content e else [] in
  contains (StreamOutputFormatter.get_pending f ++ delta) fence = false ->
  exists chunks,
    (StreamOutputFormatter.feed f e).1 = Some chunks
    /\ concat chunks
         ++ StreamOutputFormatter.get_pending
              (StreamOutputFormatter.feed f e).2
       = StreamOutputFormatter.get_pending f ++ delta
    /\ Forall (fun p => (1 <= length p <= Config.DISCORD_MSG_LIMIT)%nat)
         chunks.
Proof.
  intros [Hassistant Herror] delta Hfree. subst delta.
  unfold StreamOutputFormatter.feed, format_tool_use,
    StreamOutputFormatter.get_pending, StreamBuffer.get_pending in *.
  unfold StreamBuffer.feed, str_eqb in *.
  rewrite !(bool_decide_eq_false_2 (_ = lit "assistant")) by done.
  rewrite !(bool_decide_eq_false_2 (_ = lit "error")) by done.
  case_bool_decide as Hdelta.
  - cbn [StreamBuffer.set_content StreamBuffer.set_streaming
         StreamBuffer._content_buffer StreamBuffer.flush_threshold].
    destruct (_ <=? _)%nat; cbn [StreamBuffer._flush fst snd];
      [|by exists []].
    destruct (_ ++ _) as [|c grown] eqn:Hgrown;
      cbn [fst snd StreamBuffer.set_content StreamBuffer.set_streaming
           StreamBuffer._content_buffer StreamOutputFormatter.buffer];
      [by exists []|].
    destruct (chunk_fence_free (c :: grown) Config.DISCORD_MSG_LIMIT)
      as (pieces & -> & Hcat & Hall);
      [unfold Config.DISCORD_MSG_LIMIT; lia|done|].
    exists pieces. cbn. by rewrite app_nil_r.
  - rewrite app_nil_r in *. case_bool_decide as Hresult.
    + cbn [StreamBuffer.set_streaming StreamBuffer._content_buffer].
      destruct (StreamBuffer._content_buffer _) as [|c kept] eqn:Hkept;
        cbn [StreamBuffer._flush fst snd StreamBuffer.set_streaming
             StreamBuffer._content_buffer StreamOutputFormatter.buffer];
        rewrite ?Hkept; [by exists []|].
      destruct (chunk_fence_free (c :: kept) Config.DISCORD_MSG_LIMIT)
        as (pieces & -> & Hcat & Hall);
        [unfold Config.DISCORD_MSG_LIMIT; lia|done|].
      exists pieces. cbn. by rewrite app_nil_r.
    + exists []. by cbn.
Qed.

Lemma delivered_app calls1 calls2 :
  delivered (calls1 ++ calls2) = delivered calls1 ++ delivered calls2.
Proof. unfold delivered. by rewrite fmap_app, !concat_app. Qed.

Lemma delivered_notify cb uid chunks status :
  delivered (StreamSessionManager.notify (Some cb) uid chunks status)
  = concat chunks.
Proof.
  unfold delivered. destruct chunks; cbn; by rewrite ?app_nil_r.
Qed.

Lemma notify_ok cb uid chunks status :
  Forall (fun p => (1 <= length p <= Config.DISCORD_MSG_LIMIT)%nat) chunks ->
  Forall (call_ok cb uid)
    (StreamSessionManager.notify (Some cb) uid chunks status).
Proof.
  intros Hall. destruct chunks as [|c chunks]; cbn; [constructor|].
  constructor; [|constructor]. by repeat split.
Qed.

Lemma feed_events_plain cb uid f events :
  Forall plain_event events ->
  contains (StreamOutputFormatter.get_pending f ++ delta_text events)
    fence = false ->
  exists calls f',
    StreamSessionManager.feed_events (Some cb) uid f events
    = (Some calls, f')
    /\ delivered calls ++ StreamOutputFormatter.get_pending f'
       = StreamOutputFormatter.get_pending f ++ delta_text events
    /\ Forall (call_ok cb uid) calls
    /\ StreamOutputFormatter.status f'
       = foldl (fun st e =>
                  if str_eqb (StreamEvent.type e) (lit "result")
                  then StatusInfo.from_event e else st)
           (StreamOutputFormatter.status f) events.
Proof.
  intros Hplain. revert f.
  induction Hplain as [|e events He Hplain IH]; intros f Hfree.
  { exists [], f. unfold delta_text. cbn. by rewrite app_nil_r. }
  rewrite delta_text_cons, app_assoc in Hfree.
  destruct (formatter_feed_plain f e He) as (chunks & Hfeed & Hcat & Hall).
  { by apply contains_false_app in Hfree as [? _]. }
  cbn [StreamSessionManager.feed_events].
  destruct (StreamOutputFormatter.feed f e) as [chunks' f1] eqn:Hf1.
  cbn [fst snd] in Hfeed, Hcat. subst chunks'.
  destruct (IH f1) as (calls & f' & -> & Hcalls & Hok & Hstatus).
  { assert (contains
              (concat chunks
                 ++ StreamOutputFormatter.get_pending f1
                 ++ delta_text events) fence = false) as Hrest
      by (rewrite app_assoc, Hcat; exact Hfree).
    by apply contains_false_app in Hrest as [_ ?]. }
  eexists _, f'. split; [reflexivity|]. split; [|split].
  - rewrite delivered_app, delivered_notify, <- app_assoc, Hcalls.
    by rewrite app_assoc, Hcat, delta_text_cons, app_assoc.
  - apply Forall_app. split; [by apply notify_ok|done].
  - rewrite Hstatus. cbn [foldl]. f_equal.
    unfold StreamOutputFormatter.feed in Hf1.
    destruct (StreamBuffer.feed _ e). by injection Hf1 as _ <-.
Qed.

End ProcessFacts.

Section ProcessMore.

Lemma formatter_flush_plain (f : StreamOutputFormatter.t) :
  contains (StreamOutputFormatter.get_pending f) fence = false ->
  exists chunks,
    (StreamOutputFormatter.flush f).1 = Some chunks
    /\ concat chunks = StreamOutputFormatter.get_pending f
    /\ Forall (fun p => (1 <= length p <= Config.DISCORD_MSG_LIMIT)%nat)
         chunks
    /\ StreamOutputFormatter.get_pending (StreamOutputFormatter.flush f).2
       = []
    /\ StreamOutputFormatter.status (StreamOutputFormatter.flush f).2
       = StreamOutputFormatter.status f.
Proof.
  unfold StreamOutputFormatter.flush, StreamOutputFormatter.get_pending,
    StreamBuffer.get_pending.
  intros Hfree. cbn [fst snd].
  destruct (StreamBuffer._content_buffer _) as [|c kept]; [by exists []|].
  destruct (chunk_fence_free (c :: kept) Config.DISCORD_MSG_LIMIT)
    as (pieces & -> & Hcat & Hall);
    [unfold Config.DISCORD_MSG_LIMIT; lia|done|].
  by exists pieces.
Qed.

End ProcessMore.

(** X7.  A request of a user whose session is idle and who has a
    callback, run to its end: when the child prints neither assistant
    nor error events and nothing on standard error, and no fence marker
    occurs in the text of its deltas, the callback's calls deliver
    exactly the text of the deltas, in order; every call names the
    callback and the user and holds at least one chunk, each chunk
    not empty and within the Discord limit; and the session is left
    idle with nothing pending in its formatter. *)
Theorem process_message_delivers (m : StreamSessionManager.t)
    (w : world) (uid message : str) (session : UserStreamSession.t)
    (cb : nat) :
  StreamSessionManager._sessions m !! uid = Some session ->
  StreamSessionManager._output_callbacks m !! uid = Some cb ->
  UserStreamSession.is_busy session w = false ->
  Forall plain_event (child_events (children w (next_pid w))) ->
  contains (delta_text (child_events (children w (next_pid w)))) fence
  = false ->
  exists calls session',
    (StreamSessionManager._process_message m w uid message
       StreamSession.Exhausted).1 = (Some calls, Ok ())
    /\ delivered calls
       = delta_text (child_events (children w (next_pid w)))
    /\ Forall (call_ok cb uid) calls
    /\ StreamSessionManager._sessions
         (StreamSessionManager._process_message m w uid message
            StreamSession.Exhausted).2.1 !! uid = Some session'
    /\ StreamOutputFormatter.get_pending
         (UserStreamSession.formatter session') = []
    /\ StreamSession.process (UserStreamSession.stream session') = None.
Proof.
  intros Hsession Hcb Hbusy Hplain Hfree.
  unfold StreamSessionManager._process_message,
    StreamSessionManager.get_session.
  rewrite Hsession, Hcb.
  pose proof (send_message_exhausted (UserStreamSession.stream session)
                message w Hbusy) as Hevents.
  destruct (send_message_not_busy (UserStreamSession.stream session)
              message StreamSession.Exhausted w Hbusy)
    as (evs & stream' & w' & Hsend & Hprocess & _).
  rewrite Hsend in Hevents |- *. injection Hevents as ->.
  destruct (feed_events_plain cb uid
              (StreamOutputFormatter.reset
                 (UserStreamSession.formatter session))
              _ Hplain Hfree)
    as (calls & f' & -> & Hcalls & Hok & _).
  change (StreamOutputFormatter.get_pending
            (StreamOutputFormatter.reset
               (UserStreamSession.formatter session))) with (@nil ascii)
    in Hcalls.
  cbn [app] in Hcalls.
  destruct (formatter_flush_plain f')
    as (chunks & Hflush & Hcat & Hall & Hpending & _).
  { rewrite <- Hcalls in Hfree.
    by apply contains_false_app in Hfree as [_ ?]. }
  destruct (StreamOutputFormatter.flush f') as [remaining f''].
  cbn [fst snd] in Hflush, Hpending. subst remaining.
  eexists _, _. cbn [mbind option_bind fst snd].
  split; [reflexivity|]. split; [|split; [|split; [|split]]].
  - by rewrite delivered_app, delivered_notify, Hcat.
  - apply Forall_app. split; [done|by apply notify_ok].
  - cbn. by rewrite lookup_insert_eq.
  - done.
  - done.
Qed.

Lemma process_message_delivers_witness :
  let m := Examples.alice_listening.1 in
  let w := Examples.alice_listening.2 in
  exists session,
    StreamSessionManager._sessions m !! Examples.alice = Some session
    /\ StreamSessionManager._output_callbacks m !! Examples.alice
       = Some 7%nat
    /\ UserStreamSession.is_busy session w = false
    /\ exists calls,
         (StreamSessionManager._process_message m w Examples.alice
            (lit "hi") StreamSession.Exhausted).1 = (Some calls, Ok ())
         /\ delivered calls = lit "Hello, world".
Proof.
  intros m w.
  destruct (StreamSessionManager._sessions m !! Examples.alice)
    as [session|] eqn:Hsession; [|by vm_compute in Hsession].
  exists session. split; [done|]. split; [by vm_compute|].
  assert (UserStreamSession.is_busy session w = false) as Hbusy.
  { vm_compute in Hsession. by injection Hsession as <-. }
  split; [done|].
  destruct (process_message_delivers m w Examples.alice (lit "hi")
              session 7 Hsession)
    as (calls & _ & Hrun & Hdelivered & _); [by vm_compute|done|..].
  - vm_compute. repeat constructor; done.
  - by vm_compute.
  - exists calls. split; [done|]. rewrite Hdelivered. by vm_compute.
Defined.

(** The two deltas of [hello_lines] reach the callback in one call, made
    for the final result, which brings the status along. *)
Example process_message_hello :
  (StreamSessionManager._process_message Examples.alice_listening.1
     Examples.alice_listening.2 Examples.alice (lit "hi")
     StreamSession.Exhausted).1
  = (Some [{| cc_callback := 7; cc_user := Examples.alice;
              cc_chunks := [lit "Hello, world"];
              cc_status :=
                Some {| StatusInfo.model := Some (lit "opus");
                        StatusInfo.input_tokens := 10;
                        StatusInfo.output_tokens := 5;
                        StatusInfo.cost_usd := 0.25%float;
                        StatusInfo.session_id := Some (lit "conv-1") |} |}],
     Ok ()).
Proof. by vm_compute. Qed.

(** ** The streaming manager: cancelling, sweeping, stopping *)

Section ManagerFacts.

Implicit Types (w : world) (s : StreamSession.t) (pid q : nat)
  (m : StreamSessionManager.t) (uid : str).

(** After the termination of [pid] a process runs exactly when it ran
    before and is not [pid]. *)
Lemma terminate_wait_kill_running w pid q :
  OS.running (OS.terminate_wait_kill w pid) q
  = OS.running w q && bool_decide (q <> pid).
Proof.
  unfold OS.terminate_wait_kill.
  destruct (OS.running w pid) eqn:Hr.
  - destruct (decide (q = pid)) as [->|Hne].
    + rewrite Hr, bool_decide_eq_false_2 by (by intros ?).
      apply running_lookup in Hr as (p & Hp & _).
      unfold OS.running.
      destruct (c_honours_sigterm _);
        by rewrite set_status_returncode, bool_decide_eq_false_2.
    + rewrite (bool_decide_eq_true_2 (q <> pid)), andb_true_r by done.
      unfold OS.running, OS.returncode, OS.set_status.
      destruct (c_honours_sigterm _); simpl;
        by rewrite lookup_alter_ne.
  - destruct (decide (q = pid)) as [->|Hne].
    + by rewrite Hr.
    + by rewrite (bool_decide_eq_true_2 (q <> pid)), andb_true_r.
Qed.

Lemma procs_only_refl w : procs_only w w.
Proof. by repeat split. Qed.

Lemma procs_only_trans w1 w2 w3 :
  procs_only w1 w2 -> procs_only w2 w3 -> procs_only w1 w3.
Proof.
  unfold procs_only. intros (?&?&?&?&?&?&?&?&?&?) (?&?&?&?&?&?&?&?&?&?).
  repeat split; congruence.
Qed.

Lemma terminate_wait_kill_frame w pid :
  procs_only w (OS.terminate_wait_kill w pid).
Proof.
  unfold OS.terminate_wait_kill. repeat case_match; by repeat split.
Qed.

(** After [cancel] a process runs exactly when it ran before and is not
    the child of the session. *)
Lemma cancel_running s w q :
  OS.running (StreamSession.cancel s w).2 q
  = OS.running w q && bool_decide (StreamSession.process s <> Some q).
Proof.
  unfold StreamSession.cancel.
  destruct (StreamSession.process s) as [pid|]; simpl;
    [|by rewrite andb_true_r].
  destruct (OS.running w pid) eqn:Hr; simpl.
  - rewrite terminate_wait_kill_running. f_equal.
    apply bool_decide_ext.
    split; [by intros ? [= ->]|by intros ? ->].
  - destruct (decide (q = pid)) as [->|Hne].
    + by rewrite Hr.
    + rewrite bool_decide_eq_true_2, andb_true_r; [done|congruence].
Qed.

Lemma cancel_frame s w : procs_only w (StreamSession.cancel s w).2.
Proof.
  unfold StreamSession.cancel.
  destruct (StreamSession.process s); [|apply procs_only_refl].
  destruct (OS.running _ _); [|apply procs_only_refl].
  apply terminate_wait_kill_frame.
Qed.

Lemma cancel_keeps s w :
  StreamSession.session_id (StreamSession.cancel s w).1
  = StreamSession.session_id s
  /\ StreamSession.workspace (StreamSession.cancel s w).1
     = StreamSession.workspace s
  /\ StreamSession.total_input_tokens (StreamSession.cancel s w).1
     = StreamSession.total_input_tokens s
  /\ StreamSession.total_output_tokens (StreamSession.cancel s w).1
     = StreamSession.total_output_tokens s.
Proof. unfold StreamSession.cancel. by repeat case_match. Qed.

Lemma cancel_busy s w :
  StreamSession.is_busy s w = true ->
  StreamSession.process (StreamSession.cancel s w).1 = None.
Proof.
  unfold StreamSession.is_busy, StreamSession.cancel.
  destruct (StreamSession.process s); [|done]. by intros ->.
Qed.

(** The manager's [stop_session] on the machine: the child of the
    user's session stops, nothing else changes. *)
Lemma stream_stop_session_running m w uid q :
  OS.running (StreamSessionManager.stop_session m w uid).2 q
  = OS.running w q
    && match StreamSessionManager._sessions m !! uid with
       | Some session =>
           bool_decide
             (StreamSession.process (UserStreamSession.stream session)
              <> Some q)
       | None => true
       end.
Proof.
  unfold StreamSessionManager.stop_session. simpl.
  destruct (_ !! uid); [apply cancel_running|by rewrite andb_true_r].
Qed.

Lemma stream_stop_session_frame m w uid :
  procs_only w (StreamSessionManager.stop_session m w uid).2.
Proof.
  unfold StreamSessionManager.stop_session. simpl.
  destruct (_ !! uid) as [session|];
    [apply cancel_frame|apply procs_only_refl].
Qed.

(** [stop_session] for each user of a list without repetition. *)
Lemma stop_sessions_fold m w (uids : list str) :
  NoDup uids ->
  let mw := fold_left
              (fun mw uid =>
                 StreamSessionManager.stop_session mw.1 mw.2 uid)
              uids (m, w) in
  (forall uid,
     StreamSessionManager._sessions mw.1 !! uid
     = if decide (uid ∈ uids) then None
       else StreamSessionManager._sessions m !! uid)
  /\ (forall uid,
        StreamSessionManager._output_callbacks mw.1 !! uid
        = if decide (uid ∈ uids) then None
          else StreamSessionManager._output_callbacks m !! uid)
  /\ StreamSessionManager._cleanup_task mw.1
     = StreamSessionManager._cleanup_task m
  /\ procs_only w mw.2
  /\ (forall q,
        OS.running mw.2 q = true
        <-> OS.running w q = true
            /\ forall uid session,
                 uid ∈ uids ->
                 StreamSessionManager._sessions m !! uid = Some session ->
                 StreamSession.process (UserStreamSession.stream session)
                 <> Some q).
Proof.
  intros Hnodup. revert m w.
  induction Hnodup as [|u uids Hu Hnodup IH]; intros m w mw.
  { subst mw. simpl. do 3 (split; [done|]).
    split; [apply procs_only_refl|]. intros q. split.
    - intros Hq. split; [done|]. intros ? ? Hin. by apply elem_of_nil in Hin.
    - by intros [? _]. }
  subst mw. cbn [fold_left fst snd].
  destruct (IH (StreamSessionManager.stop_session m w u).1
              (StreamSessionManager.stop_session m w u).2)
    as (Hs & Hc & Ht & Hframe & Hrun).
  rewrite <- surjective_pairing in Hs, Hc, Ht, Hframe, Hrun.
  pose proof (stream_stop_session_frame m w u) as Hframe1.
  split; [|split; [|split; [|split]]].
  - intros uid. rewrite Hs. simpl.
    destruct (decide (uid = u)) as [->|Hne].
    + rewrite lookup_delete_eq.
      rewrite (decide_True (P := u ∈ u :: uids)) by left.
      by case_decide.
    + rewrite lookup_delete_ne by done.
      destruct (decide (uid ∈ uids)) as [Hin|Hnin].
      * by rewrite decide_True by (by right).
      * rewrite decide_False; [done|].
        by intros [?|?]%elem_of_cons.
  - intros uid. rewrite Hc. simpl.
    destruct (decide (uid = u)) as [->|Hne].
    + rewrite lookup_delete_eq.
      rewrite (decide_True (P := u ∈ u :: uids)) by left.
      by case_decide.
    + rewrite lookup_delete_ne by done.
      destruct (decide (uid ∈ uids)) as [Hin|Hnin].
      * by rewrite decide_True by (by right).
      * rewrite decide_False; [done|].
        by intros [?|?]%elem_of_cons.
  - by rewrite Ht.
  - by eapply procs_only_trans.
  - intros q. rewrite Hrun, stream_stop_session_running.
    rewrite andb_true_iff. simpl. split.
    + intros [[Hq Hfirst] Hrest]. split; [done|].
      intros uid session [->|Hin]%elem_of_cons Hsession.
      * rewrite Hsession in Hfirst. by apply bool_decide_eq_true in Hfirst.
      * apply (Hrest uid session Hin).
        rewrite lookup_delete_ne; [done|]. by intros ->.
    + intros [Hq Hall]. split; [split; [done|]|].
      * destruct (_ !! u) as [session|] eqn:Hsession; [|done].
        apply bool_decide_eq_true. apply (Hall u session); [left|done].
      * intros uid session Hin Hsession.
        apply (Hall uid session); [by right|].
        destruct (decide (uid = u)) as [->|Hne];
          [by rewrite lookup_delete_eq in Hsession|].
        by rewrite lookup_delete_ne in Hsession.
Qed.

End ManagerFacts.

Section ManagerMore.

Implicit Types (w : world) (m : StreamSessionManager.t) (uid : str).

(** [cancel] for each session of a list. *)
Lemma cancel_all_running (sessions : list UserStreamSession.t) w q :
  OS.running
    (fold_left
       (fun w session =>
          (StreamSession.cancel (UserStreamSession.stream session) w).2)
       sessions w) q = true
  <-> OS.running w q = true
      /\ Forall (fun session =>
                   StreamSession.process (UserStreamSession.stream session)
                   <> Some q) sessions.
Proof.
  revert w. induction sessions as [|session sessions IH]; intros w.
  { simpl. split; [by intros ?; split|by intros [? _]]. }
  cbn [fold_left]. rewrite IH, cancel_running, andb_true_iff,
    bool_decide_eq_true, Forall_cons.
  tauto.
Qed.

Lemma cancel_all_frame (sessions : list UserStreamSession.t) w :
  procs_only w
    (fold_left
       (fun w session =>
          (StreamSession.cancel (UserStreamSession.stream session) w).2)
       sessions w).
Proof.
  revert w. induction sessions as [|session sessions IH]; intros w;
    [apply procs_only_refl|].
  cbn [fold_left].
  eapply procs_only_trans; [apply cancel_frame|apply IH].
Qed.

Lemma cancel_task_running w task q :
  OS.running (OS.cancel_task w task) q = OS.running w q.
Proof. done. Qed.

Lemma create_task_running w q :
  OS.running (OS.create_task w).2 q = OS.running w q.
Proof. done. Qed.

(** The users whose sessions a sweep removes. *)
Lemma expired_uids T m w uid :
  uid ∈ (filter
           (fun kv => UserStreamSession.is_expired T kv.2 w = true)
           (map_to_list (StreamSessionManager._sessions m))).*1
  <-> exists session,
        StreamSessionManager._sessions m !! uid = Some session
        /\ UserStreamSession.is_expired T session w = true.
Proof.
  rewrite list_elem_of_fmap. split.
  - intros ([u session] & -> & [Hexp Hin%elem_of_map_to_list]%list_elem_of_filter).
    by exists session.
  - intros (session & Hsession & Hexp). exists (uid, session).
    split; [done|]. apply list_elem_of_filter. split; [done|].
    by apply elem_of_map_to_list.
Qed.

Lemma expired_uids_NoDup T m w :
  NoDup (filter
           (fun kv => UserStreamSession.is_expired T kv.2 w = true)
           (map_to_list (StreamSessionManager._sessions m))).*1.
Proof.
  eapply sublist_NoDup;
    [apply (NoDup_fst_map_to_list (StreamSessionManager._sessions m))|].
  apply fmap_sublist, sublist_filter.
Qed.

(** [cancel_request] for a user whose request is running. *)
Lemma cancel_request_busy m w uid (session : UserStreamSession.t) pid :
  StreamSessionManager._sessions m !! uid = Some session ->
  StreamSession.process (UserStreamSession.stream session) = Some pid ->
  OS.running w pid = true ->
  StreamSessionManager.cancel_request m w uid
  = (true,
     (StreamSessionManager.with_sessions m
        (<[uid := UserStreamSession.with_current_task
                    (UserStreamSession.with_stream session
                       (StreamSession.with_process
                          (UserStreamSession.stream session) None))
                    None]> (StreamSessionManager._sessions m)),
      match UserStreamSession._current_task session with
      | Some task => OS.cancel_task (OS.terminate_wait_kill w pid) task
      | None => OS.terminate_wait_kill w pid
      end)).
Proof.
  intros Hsession Hprocess Hrunning.
  unfold StreamSessionManager.cancel_request,
    StreamSessionManager.get_session. rewrite Hsession.
  unfold UserStreamSession.is_busy, StreamSession.is_busy,
    StreamSession.cancel.
  by rewrite Hprocess, Hrunning.
Qed.

End ManagerMore.

(** X8.  [cancel_request] of the streaming manager for a user whose
    request is running: it returns [True]; the request's child has
    exited, with -15 when it honours SIGTERM and with -9 otherwise; the
    files and all other processes are as before; the user's session
    stays in the table, idle, without task, with its continuation id;
    a second [cancel_request] returns [False] and changes nothing; and
    the next [send_message] is accepted. *)
Theorem cancel_request_frees (m : StreamSessionManager.t) (w : world)
    (uid message : str) (session : UserStreamSession.t) (pid : nat) :
  StreamSessionManager._sessions m !! uid = Some session ->
  StreamSession.process (UserStreamSession.stream session) = Some pid ->
  OS.running w pid = true ->
  let r := StreamSessionManager.cancel_request m w uid in
  r.1 = true
  /\ OS.returncode r.2.2 pid
     = Some (if c_honours_sigterm (children w pid) then -15 else -9)
  /\ fs r.2.2 = fs w
  /\ (forall q, q <> pid -> OS.running r.2.2 q = OS.running w q)
  /\ (exists session',
        StreamSessionManager._sessions r.2.1 !! uid = Some session'
        /\ StreamSession.process (UserStreamSession.stream session')
           = None
        /\ UserStreamSession._current_task session' = None
        /\ StreamSession.session_id (UserStreamSession.stream session')
           = StreamSession.session_id (UserStreamSession.stream session))
  /\ StreamSessionManager.cancel_request r.2.1 r.2.2 uid = (false, r.2)
  /\ (StreamSessionManager.send_message r.2.1 r.2.2 uid message).1
     = (true, []).
Proof.
  intros Hsession Hprocess Hrunning r. subst r.
  rewrite (cancel_request_busy m w uid session pid) by done.
  cbn [fst snd].
  set (w1 := OS.terminate_wait_kill w pid).
  set (w2 := match UserStreamSession._current_task session with
             | Some task => OS.cancel_task w1 task
             | None => w1
             end).
  assert (procs w2 = procs w1 /\ fs w2 = fs w1) as [Hprocs Hfs]
    by (subst w2; by destruct (UserStreamSession._current_task session)).
  split; [done|]. split; [|split; [|split; [|split; [|split]]]].
  - unfold OS.returncode. rewrite Hprocs.
    by apply terminate_wait_kill_returncode.
  - rewrite Hfs. apply terminate_wait_kill_frame.
  - intros q Hq. rewrite (running_ext w2 w1) by done. subst w1.
    rewrite terminate_wait_kill_running.
    by rewrite bool_decide_eq_true_2, andb_true_r.
  - eexists. split; [apply lookup_insert_eq|]. done.
  - unfold StreamSessionManager.cancel_request,
      StreamSessionManager.get_session.
    cbn [StreamSessionManager.with_sessions
         StreamSessionManager._sessions].
    by rewrite lookup_insert_eq.
  - unfold StreamSessionManager.send_message,
      StreamSessionManager.get_session.
    cbn [StreamSessionManager.with_sessions
         StreamSessionManager._sessions].
    by rewrite lookup_insert_eq.
Qed.

Lemma cancel_request_frees_witness :
  let m := Examples.alice_busy.1 in
  let w := Examples.alice_busy.2 in
  exists session,
    StreamSessionManager._sessions m !! Examples.alice = Some session
    /\ StreamSession.process (UserStreamSession.stream session)
       = Some 0%nat
    /\ OS.running w 0 = true
    /\ (StreamSessionManager.cancel_request m w Examples.alice).1 = true
    /\ OS.returncode
         (StreamSessionManager.cancel_request m w Examples.alice).2.2 0
       = Some (-15).
Proof.
  intros m w.
  destruct (StreamSessionManager._sessions m !! Examples.alice)
    as [session|] eqn:Hsession; [|by vm_compute in Hsession].
  exists session. split; [done|].
  assert (StreamSession.process (UserStreamSession.stream session)
          = Some 0%nat) as Hprocess.
  { vm_compute in Hsession. by injection Hsession as <-. }
  split; [done|]. split; [by vm_compute|].
  destruct (cancel_request_frees m w Examples.alice (lit "again")
              session 0 Hsession Hprocess)
    as (Hreturn & Hcode & _); [by vm_compute|].
  split; [done|]. rewrite Hcode. by vm_compute.
Defined.

(** X9.  One round of the streaming manager's clean-up loop with
    time-out [T]: exactly the sessions idle for more than [T] seconds
    leave the table, together with the callbacks of their users; the
    children of those sessions are the only processes that stop; and
    nothing but processes changes on the machine. *)
Theorem stream_cleanup_round_sweeps (T : Z) (m : StreamSessionManager.t)
    (w : world) :
  let mw := StreamSessionManager._cleanup_round T m w in
  (forall uid,
     StreamSessionManager._sessions mw.1 !! uid
     = match StreamSessionManager._sessions m !! uid with
       | Some session =>
           if UserStreamSession.is_expired T session w then None
           else Some session
       | None => None
       end)
  /\ (forall uid,
        StreamSessionManager._output_callbacks mw.1 !! uid
        = match StreamSessionManager._sessions m !! uid with
          | Some session =>
              if UserStreamSession.is_expired T session w then None
              else StreamSessionManager._output_callbacks m !! uid
          | None => StreamSessionManager._output_callbacks m !! uid
          end)
  /\ procs_only w mw.2
  /\ (forall q,
        OS.running mw.2 q = true
        <-> OS.running w q = true
            /\ forall uid session,
                 StreamSessionManager._sessions m !! uid = Some session ->
                 UserStreamSession.is_expired T session w = true ->
                 StreamSession.process (UserStreamSession.stream session)
                 <> Some q).
Proof.
  intros mw. subst mw. unfold StreamSessionManager._cleanup_round.
  destruct (stop_sessions_fold m w _ (expired_uids_NoDup T m w))
    as (Hs & Hc & _ & Hframe & Hrun).
  split; [|split; [|split]].
  - intros uid. rewrite Hs. case_decide as Hin.
    + apply expired_uids in Hin as (session & -> & ->). done.
    + destruct (_ !! uid) as [session|] eqn:Hsession; [|done].
      destruct (UserStreamSession.is_expired T session w) eqn:Hexp;
        [|done].
      destruct Hin. apply expired_uids. by exists session.
  - intros uid. rewrite Hc. case_decide as Hin.
    + apply expired_uids in Hin as (session & -> & ->). done.
    + destruct (StreamSessionManager._sessions m !! uid)
        as [session|] eqn:Hsession; [|done].
      destruct (UserStreamSession.is_expired T session w) eqn:Hexp;
        [|done].
      destruct Hin. apply expired_uids. by exists session.
  - done.
  - intros q. rewrite Hrun. split; intros [Hq Hall]; (split; [done|]).
    + intros uid session Hsession Hexp.
      apply (Hall uid session); [|done].
      apply expired_uids. by exists session.
    + intros uid session (session' & Hsession' & Hexp)%expired_uids Hsession.
      apply (Hall uid session); [done|]. congruence.
Qed.

Lemma stream_cleanup_round_sweeps_witness :
  let m := Examples.alice_started.1 in
  let w := Examples.two_minutes_later Examples.alice_started.2 in
  exists session,
    StreamSessionManager._sessions m !! Examples.alice = Some session
    /\ UserStreamSession.is_expired 60 session w = true
    /\ UserStreamSession.is_expired 60 session Examples.alice_started.2
       = false
    /\ StreamSessionManager._sessions
         (StreamSessionManager._cleanup_round 60 m w).1 !! Examples.alice
       = None
    /\ StreamSessionManager._sessions
         (StreamSessionManager._cleanup_round 60 m
            Examples.alice_started.2).1 !! Examples.alice
       = Some session.
Proof.
  intros m w.
  destruct (StreamSessionManager._sessions m !! Examples.alice)
    as [session|] eqn:Hsession; [|by vm_compute in Hsession].
  assert (UserStreamSession.is_expired 60 session w = true) as Hexp.
  { vm_compute in Hsession. by injection Hsession as <-. }
  assert (UserStreamSession.is_expired 60 session
            Examples.alice_started.2 = false) as Hfresh.
  { vm_compute in Hsession. by injection Hsession as <-. }
  exists session. split; [done|]. split; [done|]. split; [done|].
  split.
  - destruct (stream_cleanup_round_sweeps 60 m w) as (Hs & _).
    rewrite Hs. fold m in Hsession. by rewrite Hsession, Hexp.
  - destruct (stream_cleanup_round_sweeps 60 m Examples.alice_started.2)
      as (Hs & _).
    rewrite Hs. fold m in Hsession. by rewrite Hsession, Hfresh.
Defined.

(** X10.  [stop] of the streaming manager: the table of sessions and
    the table of callbacks are empty afterwards, the clean-up task is no
    longer scheduled, the files are untouched, and a process runs
    afterwards exactly when it ran before and is not the child of one of
    the sessions. *)
Theorem stream_manager_stop (m : StreamSessionManager.t) (w : world) :
  let mw := StreamSessionManager.stop m w in
  StreamSessionManager._sessions mw.1 = ∅
  /\ StreamSessionManager._output_callbacks mw.1 = ∅
  /\ (forall uid, StreamSessionManager.has_session mw.1 uid = false)
  /\ (forall task,
        StreamSessionManager._cleanup_task m = Some task ->
        task ∉ tasks mw.2)
  /\ fs mw.2 = fs w
  /\ (forall q,
        OS.running mw.2 q = true
        <-> OS.running w q = true
            /\ forall uid session,
                 StreamSessionManager._sessions m !! uid = Some session ->
                 StreamSession.process (UserStreamSession.stream session)
                 <> Some q).
Proof.
  intros mw. subst mw. unfold StreamSessionManager.stop.
  cbn [fst snd StreamSessionManager._sessions
       StreamSessionManager._output_callbacks].
  set (w1 := match StreamSessionManager._cleanup_task m with
             | Some task => OS.cancel_task w task
             | None => w
             end).
  pose proof (cancel_all_frame
                (map_to_list (StreamSessionManager._sessions m)).*2 w1)
    as (_ & _ & Hfs & _ & _ & _ & Htasks & _).
  split; [done|]. split; [done|]. split; [done|].
  split; [|split].
  - intros task Htask. rewrite Htasks. subst w1. rewrite Htask.
    cbn. rewrite elem_of_difference, elem_of_singleton. tauto.
  - rewrite Hfs. subst w1. by destruct (StreamSessionManager._cleanup_task m).
  - intros q. rewrite cancel_all_running.
    assert (OS.running w1 q = OS.running w q) as ->
      by (subst w1; by destruct (StreamSessionManager._cleanup_task m)).
    rewrite Forall_forall. split; intros [Hq Hall]; (split; [done|]).
    + intros uid session Hsession. apply Hall.
      apply list_elem_of_fmap. exists (uid, session).
      split; [done|]. by apply elem_of_map_to_list.
    + intros session ([uid session'] & -> & Hin)%list_elem_of_fmap.
      apply elem_of_map_to_list in Hin. by apply (Hall uid).
Qed.

Lemma stream_manager_stop_witness :
  let m := Examples.alice_busy.1 in
  let w := Examples.alice_busy.2 in
  OS.running w 0 = true
  /\ OS.running (StreamSessionManager.stop m w).2 0 = false
  /\ StreamSessionManager.has_session (StreamSessionManager.stop m w).1
       Examples.alice = false.
Proof.
  intros m w. split; [by vm_compute|].
  destruct (stream_manager_stop m w) as (_ & _ & Hnone & _ & _ & Hrun).
  split; [|apply Hnone].
  destruct (OS.running (StreamSessionManager.stop m w).2 0) eqn:Hafter;
    [|done].
  apply Hrun in Hafter as [_ Hall].
  destruct (StreamSessionManager._sessions m !! Examples.alice)
    as [session|] eqn:Hsession; [|by vm_compute in Hsession].
  destruct (Hall Examples.alice session Hsession).
  vm_compute in Hsession. by injection Hsession as <-.
Defined.

(** X11.  [stop_session] of the streaming manager is idempotent and
    leaves the files and every other user's session alone; the session
    is forgotten with its conversation: a [start_session] that follows
    creates a session without continuation id and with zero totals, in
    the same workspace. *)
Theorem stream_stop_session_forgets (m : StreamSessionManager.t)
    (w : world) (uid : str) (auth : AuthMethod) :
  auth <> NONE ->
  let mw := StreamSessionManager.stop_session m w uid in
  StreamSessionManager.stop_session mw.1 mw.2 uid = mw
  /\ StreamSessionManager.has_session mw.1 uid = false
  /\ fs mw.2 = fs w
  /\ (forall other,
        other <> uid ->
        StreamSessionManager.get_session mw.1 other
        = StreamSessionManager.get_session m other)
  /\ exists session,
       (StreamSessionManager.start_session mw.1 mw.2 uid (Some auth)).1
       = Ok session
       /\ StreamSession.session_id (UserStreamSession.stream session)
          = None
       /\ StreamSession.process (UserStreamSession.stream session) = None
       /\ StreamSession.total_input_tokens
            (UserStreamSession.stream session) = 0
       /\ StreamSession.total_output_tokens
            (UserStreamSession.stream session) = 0
       /\ StreamSession.workspace (UserStreamSession.stream session)
          = ConfigFns.get_user_workspace w uid.
Proof.
  intros Hauth mw.
  pose proof (stream_stop_session_frame m w uid)
    as (_ & Hbase & Hfs & _).
  fold mw in Hbase, Hfs. subst mw.
  split; [|split; [|split; [|split]]].
  - set (mw := StreamSessionManager.stop_session m w uid).
    assert (StreamSessionManager._sessions mw.1 !! uid = None) as Hs
      by apply lookup_delete_eq.
    assert (StreamSessionManager._output_callbacks mw.1 !! uid = None)
      as Hc by apply lookup_delete_eq.
    unfold StreamSessionManager.stop_session at 1.
    rewrite Hs, !delete_id by done. by destruct mw as [[] ?].
  - unfold StreamSessionManager.has_session. simpl.
    by rewrite lookup_delete_eq, bool_decide_eq_false_2
      by (by intros []).
  - done.
  - intros other Hother. unfold StreamSessionManager.get_session. simpl.
    by rewrite lookup_delete_ne.
  - unfold StreamSessionManager.start_session.
    cbn [fst StreamSessionManager.stop_session
         StreamSessionManager._sessions].
    rewrite lookup_delete_eq, bool_decide_eq_false_2 by done.
    unfold StreamSession.create_stream_session, ConfigFns.ensure_workspace.
    eexists. split; [reflexivity|]. cbn. do 4 (split; [done|]).
    unfold ConfigFns.get_user_workspace. f_equal. exact Hbase.
Qed.

Lemma stream_stop_session_forgets_witness :
  let m := Examples.alice_busy.1 in
  let w := Examples.alice_busy.2 in
  let mw := StreamSessionManager.stop_session m w Examples.alice in
  API_KEY <> NONE
  /\ (StreamSession.session_id ∘ UserStreamSession.stream)
       <$> StreamSessionManager.get_session m Examples.alice
     = Some (Some (lit "conv-1"))
  /\ StreamSessionManager.has_session mw.1 Examples.alice = false
  /\ exists session,
       (StreamSessionManager.start_session mw.1 mw.2 Examples.alice
          (Some API_KEY)).1 = Ok session
       /\ StreamSession.session_id (UserStreamSession.stream session)
          = None.
Proof.
  intros m w mw. split; [done|]. split; [by vm_compute|].
  destruct (stream_stop_session_forgets m w Examples.alice API_KEY)
    as (_ & Hhas & _ & _ & session & Hstart & Hid & _); [done|].
  split; [done|]. by exists session.
Defined.

(** ** A conversation over several requests *)

Section ConversationFacts.

Implicit Types (w : world) (s : StreamSession.t) (e : StreamEvent.t).

Lemma counted_cons e events :
  counted (e :: events)
  = if str_eqb (StreamEvent.type e) (lit "result")
       && truthy (StreamEvent.session_id e)
    then e :: counted events else counted events.
Proof.
  unfold counted, str_eqb. rewrite filter_cons.
  case_bool_decide as Hty; simpl.
  - destruct (truthy _) eqn:Hid.
    + by rewrite decide_True.
    + rewrite decide_False; [done|]. by intros [_ ?].
  - rewrite decide_False; [done|]. by intros [? _].
Qed.

(** The loop of [send_message] over the events it yields. *)
Lemma on_event_fold events s w :
  let s' := fold_left (fun s e => StreamSession.on_event s e w) events s in
  StreamSession.user_id s' = StreamSession.user_id s
  /\ StreamSession.workspace s' = StreamSession.workspace s
  /\ StreamSession.auth_method s' = StreamSession.auth_method s
  /\ StreamSession.process s' = StreamSession.process s
  /\ StreamSession.session_id s'
     = match last (counted events) with
       | Some e => StreamEvent.session_id e
       | None => StreamSession.session_id s
       end
  /\ StreamSession.total_input_tokens s'
     = StreamSession.total_input_tokens s
       + foldr Z.add 0 (StreamEvent.input_tokens <$> counted events)
  /\ StreamSession.total_output_tokens s'
     = StreamSession.total_output_tokens s
       + foldr Z.add 0 (StreamEvent.output_tokens <$> counted events)
  /\ StreamSession.total_cost_usd s'
     = fold_left (fun cost e => (cost + StreamEvent.cost_usd e)%float)
         (counted events) (StreamSession.total_cost_usd s)
  /\ StreamSession.model s'
     = fold_left (fun mo e => if truthy (StreamEvent.model e)
                              then StreamEvent.model e else mo)
         (counted events) (StreamSession.model s).
Proof.
  revert s. induction events as [|e events IH]; intros s s'.
  { subst s'. simpl. repeat split; try done; lia. }
  subst s'. cbn [fold_left].
  destruct (IH (StreamSession.on_event s e w))
    as (-> & -> & -> & -> & -> & -> & -> & -> & ->).
  rewrite counted_cons. unfold StreamSession.on_event.
  destruct (_ && _); cbn.
  - repeat split; try done; try lia.
    destruct (counted events) as [|e' rest]; [done|].
    change (last (e :: e' :: rest)) with (last (e' :: rest)).
    destruct (last (e' :: rest)) eqn:E; [done|].
    by apply last_None in E.
  - repeat split; done.
Qed.

Lemma wait_lookup w pid q p :
  procs w !! q = Some p ->
  exists p',
    procs (OS.wait w pid) !! q = Some p'
    /\ p_owner p' = p_owner p /\ p_argv p' = p_argv p
    /\ p_cwd p' = p_cwd p /\ p_HOME p' = p_HOME p.
Proof.
  intros Hp. unfold OS.wait.
  destruct (OS.running w pid); [|by exists p].
  unfold OS.set_status. simpl.
  destruct (decide (pid = q)) as [->|Hne].
  - rewrite lookup_alter_eq, Hp. by eexists.
  - rewrite lookup_alter_ne by done. by exists p.
Qed.

Lemma wait_frame w pid :
  fs (OS.wait w pid) = fs w /\ next_pid (OS.wait w pid) = next_pid w
  /\ children (OS.wait w pid) = children w
  /\ forall q, q <> pid -> procs (OS.wait w pid) !! q = procs w !! q.
Proof.
  unfold OS.wait. destruct (OS.running w pid); [|done].
  repeat split. intros q Hq. unfold OS.set_status. simpl.
  by rewrite lookup_alter_ne.
Qed.

Lemma mkdir_keeps w p q n :
  fs w !! q = Some n -> fs (OS.mkdir w p) !! q = Some n.
Proof.
  intros Hq. unfold OS.mkdir.
  destruct (fs w !! p) eqn:Hp; [done|]. simpl.
  rewrite lookup_insert_ne; [done|]. by intros ->; rewrite Hq in Hp.
Qed.

Lemma mkdir_exists w p : OS.exists_ (OS.mkdir w p) p = true.
Proof.
  unfold OS.exists_, OS.mkdir. apply bool_decide_eq_true.
  destruct (fs w !! p) eqn:Hp; [by rewrite Hp|].
  simpl. by rewrite lookup_insert_eq.
Qed.

(** The request's child and the files after [send_message] on an idle
    session. *)
Lemma send_message_spawn s message how w :
  StreamSession.is_busy s w = false ->
  let after := (StreamSession.send_message s message how w).2 in
  let home_dir := StreamSession.workspace s ++ [lit ".home"] in
  (exists p,
     procs after.2 !! next_pid w = Some p
     /\ p_owner p = StreamSession.user_id s
     /\ p_argv p = StreamSession._build_command s message true
     /\ p_cwd p = StreamSession.workspace s
     /\ p_HOME p = Some home_dir)
  /\ (forall q, q <> next_pid w -> procs after.2 !! q = procs w !! q)
  /\ next_pid after.2 = S (next_pid w)
  /\ children after.2 = children w
  /\ (forall q n, fs w !! q = Some n -> fs after.2 !! q = Some n)
  /\ OS.exists_ after.2 home_dir = true
  /\ (OS.exists_ w (StreamSession.workspace s ++ [lit ".claude"]) = true ->
      OS.exists_ after.2 (home_dir ++ [lit ".claude"]) = true).
Proof.
  intros Hbusy after home_dir. subst after.
  unfold StreamSession.send_message. rewrite Hbusy.
  cbn zeta. unfold OS.spawn, try_finally.
  change (OS.join (StreamSession.workspace s) (lit ".home")) with home_dir.
  change (OS.join (StreamSession.workspace s) (lit ".claude"))
    with (StreamSession.workspace s ++ [lit ".claude"]).
  change (OS.join home_dir (lit ".claude"))
    with (home_dir ++ [lit ".claude"]).
  set (w0 := OS.mkdir w home_dir).
  set (w1 := if _ && _ then _ else _).
  assert (procs w1 = procs w /\ next_pid w1 = next_pid w
          /\ children w1 = children w) as (Hprocs & Hn & Hc).
  { subst w1 w0. unfold OS.symlink_to, OS.mkdir.
    repeat case_match; done. }
  assert (forall q n, fs w !! q = Some n -> fs w1 !! q = Some n) as Hkeep.
  { intros q n Hq. apply (mkdir_keeps w home_dir) in Hq. fold w0 in Hq.
    subst w1. destruct (OS.exists_ w0 _ && _) eqn:Hlink; [|done].
    unfold OS.symlink_to. cbn [fs OS.with_fs].
    rewrite lookup_insert_ne; [done|]. intros <-.
    apply andb_true_iff in Hlink as [_ Hno].
    apply negb_true_iff, bool_decide_eq_false in Hno.
    apply Hno. by exists n. }
  assert (OS.exists_ w1 home_dir = true) as Hhome.
  { pose proof (mkdir_exists w home_dir) as Hex. fold w0 in Hex.
    apply bool_decide_eq_true in Hex as [n Hn0].
    subst w1. destruct (OS.exists_ w0 _ && _) eqn:Hlink;
      apply bool_decide_eq_true.
    - unfold OS.symlink_to. cbn [fs OS.with_fs].
      destruct (decide (home_dir ++ [lit ".claude"] = home_dir))
        as [Heq|Hne]; [by rewrite Heq, lookup_insert_eq|].
      by rewrite lookup_insert_ne, Hn0.
    - by rewrite Hn0. }
  assert (OS.exists_ w (StreamSession.workspace s ++ [lit ".claude"])
          = true ->
          OS.exists_ w1 (home_dir ++ [lit ".claude"]) = true) as Hlinked.
  { intros [n Hex]%bool_decide_eq_true.
    apply (mkdir_keeps w home_dir) in Hex. fold w0 in Hex.
    assert (OS.exists_ w0 (StreamSession.workspace s ++ [lit ".claude"])
            = true) as Hclaude
      by (apply bool_decide_eq_true; by exists n).
    subst w1. rewrite Hclaude. cbn [andb].
    destruct (OS.exists_ w0 (home_dir ++ [lit ".claude"])) eqn:Hthere;
      cbn [negb]; [done|].
    apply bool_decide_eq_true. unfold OS.symlink_to. cbn [fs OS.with_fs].
    by rewrite lookup_insert_eq. }
  set (child := {| p_owner := _ |}).
  set (w2 := OS.with_procs w1 _ _).
  set (s2 := StreamSession.with_last_activity _ _).
  assert (procs w2 !! next_pid w = Some child) as Hchild
    by (subst w2; simpl; by rewrite Hn, lookup_insert_eq).
  assert (forall q, q <> next_pid w -> procs w2 !! q = procs w !! q)
    as Hothers.
  { intros q Hq. subst w2. simpl.
    by rewrite Hn, lookup_insert_ne, Hprocs. }
  erewrite (read_events_child s2 w2 (next_pid w1)) by done.
  rewrite Hn.
  destruct (wait_lookup w2 (next_pid w) _ _ Hchild)
    as (p' & Hp' & ? & ? & ? & ?).
  destruct (wait_frame w2 (next_pid w)) as (Hfs & Hnext & Hch & Hq).
  destruct how as [|n x]; cbn [fst snd].
  - split; [by exists p'|]. split.
    { intros q Hne. rewrite Hq by done. by apply Hothers. }
    rewrite Hfs, Hnext, Hch. unfold OS.exists_ in *. rewrite !Hfs.
    subst w2. simpl. by rewrite Hn.
  - split; [by exists child|]. split; [done|].
    subst w2. simpl. by rewrite Hn.
Qed.

End ConversationFacts.

Section ConversationMore.

Implicit Types (w : world) (s : StreamSession.t).

(** The session after a request that ran to its end, in terms of the
    events of the request's child. *)
Lemma send_message_account s message w :
  StreamSession.is_busy s w = false ->
  let results := counted (child_events (children w (next_pid w))) in
  let s' :=
    (StreamSession.send_message s message StreamSession.Exhausted w).2.1 in
  StreamSession.session_id s'
  = match last results with
    | Some e => StreamEvent.session_id e
    | None => StreamSession.session_id s
    end
  /\ StreamSession.total_input_tokens s'
     = StreamSession.total_input_tokens s
       + foldr Z.add 0 (StreamEvent.input_tokens <$> results)
  /\ StreamSession.total_output_tokens s'
     = StreamSession.total_output_tokens s
       + foldr Z.add 0 (StreamEvent.output_tokens <$> results)
  /\ StreamSession.total_cost_usd s'
     = fold_left (fun cost e => (cost + StreamEvent.cost_usd e)%float)
         results (StreamSession.total_cost_usd s)
  /\ StreamSession.model s'
     = fold_left (fun mo e => if truthy (StreamEvent.model e)
                              then StreamEvent.model e else mo)
         results (StreamSession.model s)
  /\ StreamSession.user_id s' = StreamSession.user_id s
  /\ StreamSession.workspace s' = StreamSession.workspace s
  /\ StreamSession.auth_method s' = StreamSession.auth_method s
  /\ StreamSession.process s' = None.
Proof.
  intros Hbusy results s'. subst results s'.
  pose proof (send_message_exhausted s message w Hbusy) as Hevents.
  revert Hevents.
  unfold StreamSession.send_message. rewrite Hbusy.
  cbn zeta. unfold OS.spawn, try_finally.
  set (w1 := OS.with_procs _ _ _).
  set (s1 := StreamSession.with_last_activity _ _).
  destruct (StreamSession._read_events s1 w1) as [events w_end].
  cbn [fst snd]. intros [= ->].
  destruct (on_event_fold (child_events (children w (next_pid w))) s1 w1)
    as (Hu & Hws & Ha & _ & Hid & Hin & Hout & Hcost & Hmodel).
  cbn [StreamSession.with_process StreamSession.session_id
       StreamSession.total_input_tokens StreamSession.total_output_tokens
       StreamSession.total_cost_usd StreamSession.model
       StreamSession.user_id StreamSession.workspace
       StreamSession.auth_method StreamSession.process].
  rewrite Hu, Hws, Ha, Hid, Hin, Hout, Hcost, Hmodel. done.
Qed.

End ConversationMore.

(** X12.  A request on an idle session that runs to its end: the
    session's continuation id afterwards is the id of the last final
    result the child printed with a session id, and the old id when
    there is none; the token totals have grown by the sums over those
    results, the cost by their costs in order; the model is the last one
    such a result named; user, workspace and authentication method are
    unchanged; and the process handle is cleared. *)
Theorem send_message_accounts (s : StreamSession.t) (message : str)
    (w : world) :
  StreamSession.is_busy s w = false ->
  let results := counted (child_events (children w (next_pid w))) in
  let s' :=
    (StreamSession.send_message s message StreamSession.Exhausted w).2.1 in
  StreamSession.session_id s'
  = match last results with
    | Some e => StreamEvent.session_id e
    | None => StreamSession.session_id s
    end
  /\ StreamSession.total_input_tokens s'
     = StreamSession.total_input_tokens s
       + foldr Z.add 0 (StreamEvent.input_tokens <$> results)
  /\ StreamSession.total_output_tokens s'
     = StreamSession.total_output_tokens s
       + foldr Z.add 0 (StreamEvent.output_tokens <$> results)
  /\ StreamSession.total_cost_usd s'
     = fold_left (fun cost e => (cost + StreamEvent.cost_usd e)%float)
         results (StreamSession.total_cost_usd s)
  /\ StreamSession.model s'
     = fold_left (fun mo e => if truthy (StreamEvent.model e)
                              then StreamEvent.model e else mo)
         results (StreamSession.model s)
  /\ StreamSession.user_id s' = StreamSession.user_id s
  /\ StreamSession.workspace s' = StreamSession.workspace s
  /\ StreamSession.auth_method s' = StreamSession.auth_method s
  /\ StreamSession.process s' = None.
Proof. apply send_message_account. Qed.

Lemma send_message_accounts_witness :
  let s := (Examples.alice_stream Examples.hello_lines).1 in
  let w := (Examples.alice_stream Examples.hello_lines).2 in
  let s' :=
    (StreamSession.send_message s (lit "hi") StreamSession.Exhausted w).2.1 in
  StreamSession.is_busy s w = false
  /\ StreamSession.session_id s' = Some (lit "conv-1")
  /\ StreamSession.total_input_tokens s' = 10
  /\ StreamSession.total_output_tokens s' = 5.
Proof.
  intros s w s'. split; [by vm_compute|].
  destruct (send_message_accounts s (lit "hi") w)
    as (Hid & Hin & Hout & _); [by vm_compute|].
  subst s'. rewrite Hid, Hin, Hout. by vm_compute.
Defined.

(** X13.  The request that follows one that ran to its end: its child is
    the next process, owned by the session's user, started in the
    session's workspace with [HOME] set to the [.home] directory there,
    and its command line is that of every request followed by the
    continuation flag with the id the session holds by then: the id of
    the last final result of the earlier request that carried one, or
    else the id held before; without any id there is no flag. *)
Theorem next_request_continues (s : StreamSession.t)
    (message message' : str) (how : StreamSession.ending) (w : world) :
  StreamSession.is_busy s w = false ->
  let results := counted (child_events (children w (next_pid w))) in
  let after :=
    (StreamSession.send_message s message StreamSession.Exhausted w).2 in
  let after' :=
    (StreamSession.send_message after.1 message' how after.2).2 in
  exists p,
    procs after'.2 !! S (next_pid w) = Some p
    /\ p_argv p
       = request_argv message'
         ++ match match last results with
                  | Some e => StreamEvent.session_id e
                  | None => StreamSession.session_id s
                  end with
            | Some (c :: sid) => [lit "--continue"; c :: sid]
            | _ => []
            end
    /\ p_owner p = StreamSession.user_id s
    /\ p_cwd p = StreamSession.workspace s
    /\ p_HOME p = Some (StreamSession.workspace s ++ [lit ".home"]).
Proof.
  intros Hbusy results after after'. subst results after'.
  destruct (send_message_account s message w Hbusy)
    as (Hid & _ & _ & _ & _ & Hu & Hws & _ & Hprocess).
  destruct (send_message_spawn s message StreamSession.Exhausted w Hbusy)
    as (_ & _ & Hnext & _).
  fold after in Hid, Hu, Hws, Hprocess, Hnext.
  assert (StreamSession.is_busy after.1 after.2 = false) as Hidle
    by (unfold StreamSession.is_busy; by rewrite Hprocess).
  destruct (send_message_spawn after.1 message' how after.2 Hidle)
    as ((p & Hp & Howner & Hargv & Hcwd & Hhome) & _).
  rewrite Hnext in Hp. exists p. split; [done|].
  rewrite Hargv, Howner, Hcwd, Hhome, Hu, Hws.
  split; [|done].
  unfold StreamSession._build_command. rewrite Hid.
  unfold request_argv.
  destruct (match last _ with Some _ => _ | None => _ end)
    as [[|c sid]|]; by rewrite ?app_nil_r.
Qed.

Lemma next_request_continues_witness :
  let s := (Examples.alice_stream Examples.hello_lines).1 in
  let w := (Examples.alice_stream Examples.hello_lines).2 in
  let after :=
    (StreamSession.send_message s (lit "hi") StreamSession.Exhausted w).2 in
  let after' :=
    (StreamSession.send_message after.1 (lit "more")
       StreamSession.Exhausted after.2).2 in
  StreamSession.is_busy s w = false
  /\ StreamSession.session_id s = None
  /\ exists p,
       procs after'.2 !! 1%nat = Some p
       /\ p_argv p
          = request_argv (lit "more") ++ [lit "--continue"; lit "conv-1"].
Proof.
  intros s w after after'. split; [by vm_compute|]. split; [done|].
  destruct (next_request_continues s (lit "hi") (lit "more")
              StreamSession.Exhausted w)
    as (p & Hp & Hargv & _); [by vm_compute|].
  exists p. split; [exact Hp|]. rewrite Hargv. by vm_compute.
Defined.

(** ** Workspaces *)

Section WorkspaceFacts.

Implicit Types (w : world) (p q : path) (uid : str).

Lemma fs_only_refl w : fs_only w w.
Proof. by repeat split. Qed.

Lemma fs_only_trans w1 w2 w3 :
  fs_only w1 w2 -> fs_only w2 w3 -> fs_only w1 w3.
Proof.
  unfold fs_only. intros (?&?&?&?&?&?&?&?&?&?) (?&?&?&?&?&?&?&?&?&?).
  repeat split; congruence.
Qed.

Lemma mkdir_fs_only w p : fs_only w (OS.mkdir w p).
Proof. unfold OS.mkdir. case_match; by repeat split. Qed.

Lemma mkdir_new w p q n :
  fs w !! q = None -> fs (OS.mkdir w p) !! q = Some n ->
  n = Dir /\ q = p.
Proof.
  intros Hq. unfold OS.mkdir. destruct (fs w !! p) eqn:Hp.
  - by rewrite Hq.
  - simpl. destruct (decide (p = q)) as [->|Hne].
    + rewrite lookup_insert_eq. by intros [= <-].
    + rewrite lookup_insert_ne, Hq by done. done.
Qed.

Lemma mkdir_there w p : is_Some (fs w !! p) -> OS.mkdir w p = w.
Proof. intros [n Hn]. unfold OS.mkdir. by rewrite Hn. Qed.

(** The directories made for the prefixes of [p] with the lengths in
    [l]. *)
Lemma mkdir_fold w p (l : list nat) :
  let w' := fold_left (fun w' n => OS.mkdir w' (take n p)) l w in
  fs_only w w'
  /\ (forall q n, fs w !! q = Some n -> fs w' !! q = Some n)
  /\ (forall k, k ∈ l -> is_Some (fs w' !! take k p))
  /\ (forall q n,
        fs w !! q = None -> fs w' !! q = Some n ->
        n = Dir /\ exists k, k ∈ l /\ q = take k p)
  /\ ((forall k, k ∈ l -> is_Some (fs w !! take k p)) -> w' = w).
Proof.
  revert w. induction l as [|k l IH]; intros w w'.
  { subst w'. simpl. split; [apply fs_only_refl|].
    split; [done|]. split; [by intros ? ?%elem_of_nil|].
    split; [|done]. intros q n Hq. by rewrite Hq. }
  subst w'. cbn [fold_left].
  destruct (IH (OS.mkdir w (take k p)))
    as (Hframe & Hkeep & Hthere & Hnew & Hsame).
  split; [|split; [|split; [|split]]].
  - eapply fs_only_trans; [apply mkdir_fs_only|done].
  - intros q n Hq. by apply Hkeep, mkdir_keeps.
  - intros j [->|Hj]%elem_of_cons; [|by apply Hthere].
    pose proof (mkdir_exists w (take k p)) as Hex.
    apply bool_decide_eq_true in Hex as [n Hn]. exists n.
    by apply Hkeep.
  - intros q n Hq Hq'.
    destruct (fs (OS.mkdir w (take k p)) !! q) as [n'|] eqn:Hmid.
    + pose proof (Hkeep q n' Hmid) as Hn'.
      destruct (mkdir_new w (take k p) q n' Hq Hmid) as [-> ->].
      split; [congruence|]. exists k. split; [left|done].
    + destruct (Hnew q n Hmid Hq') as (-> & j & Hj & ->).
      split; [done|]. exists j. split; [by right|done].
  - intros Hall. rewrite mkdir_there in * by (apply Hall; left).
    apply Hsame. intros j Hj. apply Hall. by right.
Qed.

Lemma filter_safe_idemp uid : safe_id (safe_id uid) = safe_id uid.
Proof.
  unfold safe_id. induction uid as [|c uid IH]; [done|]. simpl.
  destruct (ConfigFns.safe_char c) eqn:Hc; [|done].
  simpl. by rewrite Hc, IH.
Qed.

Lemma safe_id_Forall uid :
  Forall (fun c => ConfigFns.safe_char c = true) (safe_id uid).
Proof.
  unfold safe_id. induction uid as [|c uid IH]; [constructor|]. simpl.
  destruct (ConfigFns.safe_char c) eqn:Hc; [by constructor|done].
Qed.

Lemma safe_id_nil uid :
  safe_id uid = [] <-> Forall (fun c => ConfigFns.safe_char c = false) uid.
Proof.
  unfold safe_id. induction uid as [|c uid IH]; [done|]. simpl.
  rewrite Forall_cons, <- IH.
  destruct (ConfigFns.safe_char c); intuition congruence.
Qed.

Lemma get_user_workspace_safe w uid :
  ConfigFns.get_user_workspace w uid
  = match safe_id uid with
    | [] => WORKSPACE_BASE w
    | _ :: _ => WORKSPACE_BASE w ++ [safe_id uid]
    end.
Proof. done. Qed.

(** Workspaces named by different non-empty safe ids have no path in
    common. *)
Lemma workspaces_apart w uid other q :
  safe_id uid <> [] -> safe_id other <> [] ->
  safe_id uid <> safe_id other ->
  ConfigFns.get_user_workspace w uid `prefix_of` q ->
  ConfigFns.get_user_workspace w other `prefix_of` q ->
  False.
Proof.
  rewrite !get_user_workspace_safe. intros Hu Ho Hne.
  destruct (safe_id uid) as [|c a] eqn:Ha; [done|].
  destruct (safe_id other) as [|d b] eqn:Hb; [done|].
  intros [k1 ->] [k2 Hk2].
  rewrite <- !app_assoc in Hk2. apply app_inv_head in Hk2.
  simpl in Hk2. injection Hk2 as Hc Ha' _. apply Hne. congruence.
Qed.

End WorkspaceFacts.

(** X14.  The workspace of a user id is [WORKSPACE_BASE] followed by the
    id's letters, digits, hyphens and underscores as one component, and
    [WORKSPACE_BASE] itself when the id has no such character.  So ids
    with the same such characters share a workspace, sanitising twice
    changes nothing, and workspaces of ids whose sanitised forms are not
    empty and differ have no path in common. *)
Theorem user_workspace_sanitised (w : world) (uid : str) :
  let ws := ConfigFns.get_user_workspace w uid in
  WORKSPACE_BASE w `prefix_of` ws
  /\ (ws = WORKSPACE_BASE w
      <-> Forall (fun c => ConfigFns.safe_char c = false) uid)
  /\ (ws <> WORKSPACE_BASE w ->
      exists name,
        ws = WORKSPACE_BASE w ++ [name] /\ name <> []
        /\ Forall (fun c => ConfigFns.safe_char c = true) name)
  /\ ConfigFns.get_user_workspace w (safe_id uid) = ws
  /\ (forall other,
        safe_id other = safe_id uid ->
        ConfigFns.get_user_workspace w other = ws)
  /\ (forall other q,
        safe_id uid <> [] -> safe_id other <> [] ->
        safe_id uid <> safe_id other ->
        ws `prefix_of` q ->
        ~ ConfigFns.get_user_workspace w other `prefix_of` q).
Proof.
  intros ws. subst ws. rewrite get_user_workspace_safe.
  split; [|split; [|split; [|split; [|split]]]].
  - destruct (safe_id uid); [done|]. by apply prefix_app_r.
  - rewrite <- safe_id_nil. destruct (safe_id uid) as [|c name]; [done|].
    split; [|done]. intros Heq.
    apply (f_equal length) in Heq. rewrite length_app in Heq.
    simpl in Heq. lia.
  - intros Hne. pose proof (safe_id_Forall uid) as Hsafe.
    destruct (safe_id uid) as [|c name]; [done|]. by exists (c :: name).
  - by rewrite get_user_workspace_safe, filter_safe_idemp.
  - intros other Hother. by rewrite get_user_workspace_safe, Hother.
  - intros other q Hu Ho Hne Hq Hq'.
    by apply (workspaces_apart w uid other q).
Qed.

Lemma user_workspace_sanitised_witness :
  let w := Examples.machine None [] in
  let q := ConfigFns.get_user_workspace w Examples.alice
             ++ [lit "notes.txt"] in
  safe_id Examples.alice <> []
  /\ safe_id Examples.bob <> []
  /\ safe_id Examples.alice <> safe_id Examples.bob
  /\ ConfigFns.get_user_workspace w Examples.alice `prefix_of` q
  /\ ~ ConfigFns.get_user_workspace w Examples.bob `prefix_of` q.
Proof.
  intros w q.
  assert (ConfigFns.get_user_workspace w Examples.alice `prefix_of` q)
    as Hq by by apply prefix_app_r.
  split; [done|]. split; [done|]. split; [done|]. split; [done|].
  by apply (user_workspace_sanitised w Examples.alice).
Defined.

Example user_workspace_collision :
  let w := Examples.machine None [] in
  ConfigFns.get_user_workspace w (lit "a/../b")
  = ConfigFns.get_user_workspace w (lit "ab")
  /\ ConfigFns.get_user_workspace w (lit "../..") = WORKSPACE_BASE w.
Proof. by vm_compute. Qed.

(** X15.  [ensure_workspace] returns the user's workspace and leaves it
    and its ancestors in the file system; what was there is still there;
    what is new is a directory on the way to the workspace; nothing but
    the file system changes; and a second call changes nothing. *)
Theorem ensure_workspace_makes (w : world) (uid : str) :
  let ws := (ConfigFns.ensure_workspace w uid).1 in
  let w' := (ConfigFns.ensure_workspace w uid).2 in
  ws = ConfigFns.get_user_workspace w uid
  /\ (forall k, (1 <= k <= length ws)%nat -> is_Some (fs w' !! take k ws))
  /\ (forall q n, fs w !! q = Some n -> fs w' !! q = Some n)
  /\ (forall q n,
        fs w !! q = None -> fs w' !! q = Some n ->
        n = Dir /\ q `prefix_of` ws)
  /\ fs_only w w'
  /\ ConfigFns.ensure_workspace w' uid = (ws, w').
Proof.
  intros ws w'. subst ws w'. unfold ConfigFns.ensure_workspace.
  cbn [fst snd]. unfold OS.mkdir_parents.
  set (ws := ConfigFns.get_user_workspace w uid).
  destruct (mkdir_fold w ws (seq 1 (length ws)))
    as (Hframe & Hkeep & Hthere & Hnew & _).
  set (w' := fold_left _ _ w) in *.
  split; [done|]. split; [|split; [done|split; [|split; [done|]]]].
  - intros k Hk. apply Hthere, elem_of_seq. lia.
  - intros q n Hq Hq'. destruct (Hnew q n Hq Hq') as (-> & k & _ & ->).
    split; [done|apply prefix_take].
  - assert (ConfigFns.get_user_workspace w' uid = ws) as ->.
    { destruct Hframe as (_ & Hbase & _).
      unfold ConfigFns.get_user_workspace. by rewrite Hbase. }
    f_equal.
    destruct (mkdir_fold w' ws (seq 1 (length ws)))
      as (_ & _ & _ & _ & Hsame).
    apply Hsame. intros k Hk. by apply Hthere.
Qed.

Lemma ensure_workspace_makes_witness :
  let w := Examples.machine None [] in
  (ConfigFns.ensure_workspace w Examples.alice).1
  = [lit "var"; lit "codesmith"; lit "workspaces"; lit "alice"]
  /\ fs w = ∅
  /\ is_Some (fs (ConfigFns.ensure_workspace w Examples.alice).2
                !! [lit "var"; lit "codesmith"; lit "workspaces";
                    lit "alice"])
  /\ is_Some (fs (ConfigFns.ensure_workspace w Examples.alice).2
                !! [lit "var"; lit "codesmith"]).
Proof.
  intros w.
  destruct (ensure_workspace_makes w Examples.alice)
    as (Hws & Hthere & _).
  split; [done|]. split; [done|]. split.
  - apply (Hthere 4%nat). vm_compute. lia.
  - apply (Hthere 2%nat). vm_compute. lia.
Defined.



Example cleanup_sandbox_wipes_base :
  let w := OS.with_fs (Examples.machine None [])
             {[ [lit "var"; lit "codesmith"; lit "workspaces"] := Dir;
                [lit "var"; lit "codesmith"; lit "workspaces";
                 lit "alice"; lit "notes.txt"] := File false ]} in
  let w' := SandboxRunner.cleanup_sandbox w (lit "!!!") true in
  fs w' !! (ConfigFns.get_user_workspace w Examples.alice
              ++ [lit "notes.txt"]) = None
  /\ fs w' = ∅.
Proof. by vm_compute. Qed.

(** ** Credentials *)

Section CredentialFacts.

Implicit Types (w : world) (uid : str) (data : Auth.json).

Lemma nonempty_str_spec (v : Auth.json) :
  Auth.nonempty_str v = true <-> exists s, v = Auth.JStr s /\ s <> [].
Proof.
  split.
  - destruct v as [| | | |[|c s]| |]; try done. intros _.
    by exists (c :: s).
  - by intros ([|c s] & -> & Hs).
Qed.

Lemma validate_returns_input parsed accepted :
  Auth.validate_credentials_json parsed = Ok (Some accepted) ->
  parsed = Some accepted /\ Auth.validates accepted = true.
Proof.
  intros Hv.
  assert (parsed = Some accepted) as ->.
  { unfold Auth.validate_credentials_json in Hv.
    repeat case_match; by simplify_eq. }
  split; [done|]. unfold Auth.validates. by rewrite Hv.
Qed.

Lemma mkdir_parents_fs_only w p : fs_only w (OS.mkdir_parents w p).
Proof. apply (mkdir_fold w p (seq 1 (length p))). Qed.

Lemma mkdir_parents_keeps w p q n :
  fs w !! q = Some n -> fs (OS.mkdir_parents w p) !! q = Some n.
Proof. apply (mkdir_fold w p (seq 1 (length p))). Qed.

Lemma credentials_path_frame w w' uid :
  WORKSPACE_BASE w' = WORKSPACE_BASE w ->
  Auth.get_credentials_path w' uid = Auth.get_credentials_path w uid.
Proof.
  intros Hbase.
  unfold Auth.get_credentials_path, ConfigFns.get_user_workspace.
  by rewrite Hbase.
Qed.

End CredentialFacts.

(** X17.  [validate_credentials_json] returns the parsed value itself,
    and it does so exactly for an object whose member [claudeAiOauth] is
    an object with a non-empty string [accessToken], a non-empty string
    [refreshToken] and a number [expiresAt] (a boolean counts as a
    number).  A string that is not JSON gives [None].  An object whose
    [claudeAiOauth] is an object never makes it raise; a top-level
    [null], boolean or number makes it raise [TypeError] instead of
    returning [None]. *)
Theorem validate_credentials_json_accepts (data : Auth.json) :
  (forall accepted,
     Auth.validate_credentials_json (Some data) = Ok (Some accepted)
     <-> accepted = data
         /\ exists members fields access refresh expires,
              data = Auth.JObj members
              /\ Auth.obj_get members (lit "claudeAiOauth")
                 = Some (Auth.JObj fields)
              /\ Auth.obj_get fields (lit "accessToken")
                 = Some (Auth.JStr access)
              /\ access <> []
              /\ Auth.obj_get fields (lit "refreshToken")
                 = Some (Auth.JStr refresh)
              /\ refresh <> []
              /\ Auth.obj_get fields (lit "expiresAt") = Some expires
              /\ Auth.is_number expires = true)
  /\ Auth.validate_credentials_json None = Ok None
  /\ (forall members fields,
        data = Auth.JObj members ->
        Auth.obj_get members (lit "claudeAiOauth")
        = Some (Auth.JObj fields) ->
        exists r, Auth.validate_credentials_json (Some data) = Ok r)
  /\ (match data with
      | Auth.JNull | Auth.JBool _ | Auth.JInt _ | Auth.JFloat _ =>
          Auth.validate_credentials_json (Some data)
          = Raise (Auth.not_iterable data)
      | _ => True
      end).
Proof.
  split; [|split; [done|split]].
  - intros accepted. split.
    + intros Hv.
      destruct (validate_returns_input _ _ Hv) as [[= <-] _].
      split; [done|].
      unfold Auth.validate_credentials_json in Hv.
      destruct data as [| | | | | |members]; try done;
        [by destruct (contains _ _)|by destruct (existsb _ _)|].
      destruct (Auth.obj_get members _) as [oauth|] eqn:Hoauth; [|done].
      destruct oauth as [| | | | | |fields]; try done;
        [by destruct (forallb _ _)|by destruct (forallb _ _)|].
      destruct (Auth.obj_get fields (lit "accessToken"))
        as [access|] eqn:Ha; [|done].
      destruct (Auth.obj_get fields (lit "refreshToken"))
        as [refresh|] eqn:Hr; [|done].
      destruct (Auth.obj_get fields (lit "expiresAt"))
        as [expires|] eqn:He; [|done].
      destruct (Auth.nonempty_str access) eqn:Hna; [|done].
      destruct (Auth.nonempty_str refresh) eqn:Hnr; [|done].
      destruct (Auth.is_number expires) eqn:Hne; [|done].
      apply nonempty_str_spec in Hna as (a & -> & ?).
      apply nonempty_str_spec in Hnr as (r & -> & ?).
      by exists members, fields, a, r, expires.
    + intros (-> & members & fields & a & r & expires
              & -> & Hoauth & Ha & Hna & Hr & Hnr & He & Hne).
      unfold Auth.validate_credentials_json.
      rewrite Hoauth, Ha, Hr, He, Hne.
      by destruct a, r.
  - intros members fields -> Hoauth.
    unfold Auth.validate_credentials_json. rewrite Hoauth.
    repeat case_match; by eexists.
  - by destruct data.
Qed.

Lemma validate_credentials_json_accepts_witness :
  Auth.is_number (Auth.JInt 1767225600000) = true
  /\ Auth.validate_credentials_json (Some Examples.oauth_credentials)
     = Ok (Some Examples.oauth_credentials).
Proof.
  split; [done|].
  apply (validate_credentials_json_accepts Examples.oauth_credentials).
  split; [done|].
  eexists _, _, (lit "at"), (lit "rt"), _.
  by repeat split.
Defined.

Example validate_credentials_json_number :
  Auth.validate_credentials_json (Some (Auth.JInt 5))
  = Raise (TypeError (lit "argument of type 'int' is not iterable")).
Proof. done. Qed.

(** X18.  Credentials that [validate_credentials_json] returned, once
    stored, make [has_valid_credentials] true and OAuth the user's
    authentication method, whatever the API key; storing keeps every
    other file; [delete_credentials] then returns [True], after which
    the method is the API key when one is set and none otherwise, and a
    second [delete_credentials] returns [False] and changes nothing. *)
Theorem credentials_round_trip (w : world) (uid : str)
    (parsed : option Auth.json) (credentials : Auth.json) :
  Auth.validate_credentials_json parsed = Ok (Some credentials) ->
  let stored := (Auth.store_credentials w uid credentials).2 in
  let deleted := Auth.delete_credentials stored uid in
  (Auth.store_credentials w uid credentials).1
  = Auth.get_credentials_path w uid
  /\ Auth.has_valid_credentials stored uid = true
  /\ Auth.get_auth_method stored uid = OAUTH
  /\ (forall q n,
        fs w !! q = Some n -> q <> Auth.get_credentials_path w uid ->
        fs stored !! q = Some n)
  /\ deleted.1 = true
  /\ Auth.has_valid_credentials deleted.2 uid = false
  /\ Auth.get_auth_method deleted.2 uid
     = (if truthy (ANTHROPIC_API_KEY w) then API_KEY else NONE)
  /\ Auth.delete_credentials deleted.2 uid = (false, deleted.2).
Proof.
  intros [_ Hvalid]%validate_returns_input stored deleted.
  set (creds := Auth.get_credentials_path w uid).
  pose proof (mkdir_parents_fs_only w (OS.parent creds))
    as (Hkey & Hbase & _).
  assert (Auth.get_credentials_path stored uid = creds) as Hpath
    by by apply credentials_path_frame.
  assert (fs stored !! creds = Some (File true)) as Hfile.
  { subst stored. unfold Auth.store_credentials. fold creds.
    cbn [snd]. unfold OS.write_file. cbn [fs OS.with_fs].
    by rewrite lookup_insert_eq, Hvalid. }
  assert (Auth.has_valid_credentials stored uid = true) as Hhas
    by (unfold Auth.has_valid_credentials; by rewrite Hpath, Hfile).
  assert (deleted = (true, OS.unlink stored creds)) as ->.
  { subst deleted. unfold Auth.delete_credentials, OS.exists_.
    rewrite Hpath, Hfile. by rewrite bool_decide_eq_true_2. }
  cbn [fst snd].
  assert (Auth.get_credentials_path (OS.unlink stored creds) uid = creds)
    as Hpath' by by apply credentials_path_frame.
  assert (fs (OS.unlink stored creds) !! creds = None) as Hgone
    by (unfold OS.unlink; cbn [fs OS.with_fs]; apply lookup_delete_eq).
  split; [done|]. split; [done|].
  split; [by unfold Auth.get_auth_method; rewrite Hhas|].
  split; [|split; [done|split; [|split]]].
  - intros q n Hq Hne. subst stored. unfold Auth.store_credentials.
    fold creds. cbn [snd]. unfold OS.write_file. cbn [fs OS.with_fs].
    rewrite lookup_insert_ne by done. by apply mkdir_parents_keeps.
  - unfold Auth.has_valid_credentials. by rewrite Hpath', Hgone.
  - unfold Auth.get_auth_method, Auth.has_valid_credentials.
    rewrite Hpath', Hgone.
    by replace (ANTHROPIC_API_KEY (OS.unlink stored creds))
      with (ANTHROPIC_API_KEY w).
  - unfold Auth.delete_credentials, OS.exists_.
    rewrite Hpath', Hgone. by rewrite bool_decide_eq_false_2 by (by intros []).
Qed.

Lemma credentials_round_trip_witness :
  let credentials :=
    Auth.JObj
      [(lit "claudeAiOauth",
        Auth.JObj [(lit "accessToken", Auth.JStr (lit "at"));
                   (lit "refreshToken", Auth.JStr (lit "rt"));
                   (lit "expiresAt", Auth.JInt 1767225600000)])] in
  let w := Examples.machine (Some (lit "sk-test")) [] in
  let stored := (Auth.store_credentials w Examples.alice credentials).2 in
  Auth.validate_credentials_json (Some credentials) = Ok (Some credentials)
  /\ Auth.get_auth_method w Examples.alice = API_KEY
  /\ Auth.get_auth_method stored Examples.alice = OAUTH
  /\ Auth.get_auth_method
       (Auth.delete_credentials stored Examples.alice).2 Examples.alice
     = API_KEY.
Proof.
  intros credentials w stored. split; [done|]. split; [done|].
  destruct (credentials_round_trip w Examples.alice (Some credentials)
              credentials)
    as (_ & _ & Hoauth & _ & _ & _ & Hfallback & _); [done|].
  split; [exact Hoauth|]. etrans; [exact Hfallback|done].
Defined.

(** ** The PTY session from start to end *)

Section PtyFacts.

Implicit Types (w : world) (s : PTYSession.t).

Lemma fds_after_start (fds : gset nat) (master : nat) :
  master ∉ fds -> S master ∉ fds ->
  ({[master]} ∪ {[S master]} ∪ fds) ∖ {[S master]} = {[master]} ∪ fds.
Proof.
  intros Hm Hs. apply set_eq. intros x.
  rewrite elem_of_difference, !elem_of_union, !elem_of_singleton.
  split.
  - intros [[[->| ->]|Hx] Hne]; [by left|done|by right].
  - intros [->|Hx]; (split; [tauto|]); [lia|by intros ->].
Qed.

Lemma fds_after_terminate (fds : gset nat) (master : nat) :
  master ∉ fds -> ({[master]} ∪ fds) ∖ {[master]} = fds.
Proof.
  intros Hm. apply set_eq. intros x.
  rewrite elem_of_difference, elem_of_union, !elem_of_singleton.
  split; [by intros [[->|Hx] Hne]|].
  intros Hx. split; [by right|by intros ->].
Qed.


End PtyFacts.

(** X19.  A PTY session from start to end, on a machine whose next two
    descriptors are free: after [create_pty_session] the session is
    alive, its child is the next process, running the command for the
    user, and of the pseudo-terminal pair only the master side is open;
    [write_line] hands the line and a line break to the master side.
    After [terminate] the session is not alive, the child has exited
    (with -15 when it honours SIGTERM, with -9 otherwise), the set of
    open descriptors is as before the start, [write_line] raises the
    not-active error, and a second [terminate] changes nothing. *)
Theorem pty_session_lifecycle (w : world) (uid : str)
    (command : list str) (line : str) :
  next_fd w ∉ open_fds w -> S (next_fd w) ∉ open_fds w ->
  let started := PTYSession.create_pty_session w uid command in
  let stopped := PTYSession.terminate started.1 started.2 in
  PTYSession.is_alive started.1 started.2 = true
  /\ PTYSession.master_fd started.1 = Z.of_nat (next_fd w)
  /\ open_fds started.2 = {[next_fd w]} ∪ open_fds w
  /\ procs started.2 !! next_pid w
     = Some {| p_owner := uid; p_argv := command; p_cwd := [];
               p_HOME := None; p_ANTHROPIC_API_KEY := None;
               p_status := Running |}
  /\ (PTYSession.write_line started.1 line started.2).1
     = Ok (line ++ [nl])
  /\ PTYSession.is_alive stopped.1 stopped.2 = false
  /\ PTYSession.master_fd stopped.1 = -1
  /\ open_fds stopped.2 = open_fds w
  /\ OS.returncode stopped.2 (next_pid w)
     = Some (if c_honours_sigterm (children w (next_pid w))
             then -15 else -9)
  /\ (PTYSession.write_line stopped.1 line stopped.2).1
     = Raise PTYSession.not_active_error
  /\ PTYSession.terminate stopped.1 stopped.2 = stopped.
Proof.
  intros Hmaster Hslave started stopped.
  set (child := {| p_owner := uid; p_argv := command; p_cwd := [];
                   p_HOME := None; p_ANTHROPIC_API_KEY := None;
                   p_status := Running |}).
  set (s1 := {| PTYSession.user_id := uid;
                PTYSession.master_fd := Z.of_nat (next_fd w);
                PTYSession.slave_fd := -1;
                PTYSession.process := Some (next_pid w);
                PTYSession.created_at := now w;
                PTYSession.last_activity := now w;
                PTYSession._read_buffer := [] |}).
  set (w1 := OS.with_fds
               (OS.with_procs w (<[next_pid w := child]> (procs w))
                  (S (next_pid w)))
               (({[next_fd w]} ∪ {[S (next_fd w)]} ∪ open_fds w)
                  ∖ {[S (next_fd w)]})
               (S (S (next_fd w)))).
  assert (started = (s1, w1)) as -> by done.
  cbn [fst snd] in *.
  assert (OS.running w1 (next_pid w) = true) as Hrun.
  { unfold OS.running, OS.returncode. subst w1. cbn.
    by rewrite lookup_insert_eq. }
  assert (PTYSession.is_alive s1 w1 = true) as Halive by done.
  assert (open_fds w1 = {[next_fd w]} ∪ open_fds w) as Hfds
    by by apply fds_after_start.
  set (w2 := OS.terminate_wait_kill w1 (next_pid w)).
  set (s2 := {| PTYSession.user_id := uid;
                PTYSession.master_fd := -1;
                PTYSession.slave_fd := -1;
                PTYSession.process := Some (next_pid w);
                PTYSession.created_at := now w;
                PTYSession.last_activity := now w;
                PTYSession._read_buffer := [] |}).
  assert (stopped
          = (s2, OS.with_fds w2
                   (open_fds w2 ∖ {[Z.to_nat (Z.of_nat (next_fd w))]})
                   (next_fd w2))) as ->.
  { subst stopped. unfold PTYSession.terminate. rewrite Halive.
    cbn [PTYSession.process PTYSession.master_fd s1].
    by rewrite (proj2 (Z.leb_le 0 (Z.of_nat (next_fd w)))) by lia. }
  cbn [fst snd].
  destruct (terminate_wait_kill_frame w1 (next_pid w))
    as (_ & _ & _ & _ & Hfds2 & _). fold w2 in Hfds2.
  assert (OS.running w2 (next_pid w) = false) as Hdead.
  { subst w2. rewrite terminate_wait_kill_running, Hrun.
    by rewrite bool_decide_eq_false_2 by (by intros ?). }
  split; [done|]. split; [done|]. split; [done|].
  split; [subst w1; cbn; by rewrite lookup_insert_eq|].
  split.
  { unfold PTYSession.write_line, PTYSession.write. rewrite Halive.
    cbn [PTYSession.master_fd s1].
    by rewrite (proj2 (Z.ltb_ge (Z.of_nat (next_fd w)) 0)) by lia. }
  split; [exact Hdead|]. split; [done|]. split.
  { cbn [open_fds OS.with_fds]. rewrite Hfds2, Hfds, Nat2Z.id.
    by apply fds_after_terminate. }
  split.
  { change (OS.returncode w2 (next_pid w)
            = Some (if c_honours_sigterm (children w1 (next_pid w))
                    then -15 else -9)).
    by apply terminate_wait_kill_returncode. }
  split; [done|].
  set (w3 := OS.with_fds w2 _ _).
  assert (OS.running w3 (next_pid w) = false) as Hdead3 by exact Hdead.
  unfold PTYSession.terminate, PTYSession.is_alive.
  cbn [PTYSession.process PTYSession.master_fd s2].
  by rewrite Hdead3.
Qed.

Lemma pty_session_lifecycle_witness :
  let w := Examples.machine None [] in
  let started :=
    PTYSession.create_pty_session w Examples.alice [lit "claude"] in
  let stopped := PTYSession.terminate started.1 started.2 in
  (next_fd w ∉ open_fds w)
  /\ (S (next_fd w) ∉ open_fds w)
  /\ PTYSession.is_alive started.1 started.2 = true
  /\ open_fds stopped.2 = open_fds w
  /\ OS.returncode stopped.2 0 = Some (-15).
Proof.
  intros w started stopped.
  assert (next_fd w ∉ open_fds w) as Hmaster
    by apply not_elem_of_empty.
  assert (S (next_fd w) ∉ open_fds w) as Hslave
    by apply not_elem_of_empty.
  split; [done|]. split; [done|].
  destruct (pty_session_lifecycle w Examples.alice [lit "claude"]
              (lit "hello") Hmaster Hslave)
    as (Halive & _ & _ & _ & _ & _ & _ & Hfds & Hcode & _).
  split; [exact Halive|]. split; [exact Hfds|exact Hcode].
Defined.


(** X21.  [format_event_for_discord] never returns the empty string.
    For an assistant event and for an error event it returns what
    [StreamBuffer.feed] returns for the event, whatever the buffer
    holds; a delta with text is shown at once by the one and kept or
    flushed with the buffer by the other; a system message is shown by
    the one and dropped by the other. *)
Theorem format_event_for_discord_agrees (b : StreamBuffer.t)
    (event : StreamEvent.t) :
  format_event_for_discord event <> Some []
  /\ (StreamEvent.type event = lit "assistant"
      \/ StreamEvent.type event = lit "error" ->
      (StreamBuffer.feed b event).1 = format_event_for_discord event)
  /\ (StreamEvent.type event = lit "system" ->
      (StreamBuffer.feed b event).1 = None
      /\ (StreamEvent.content event <> [] ->
          format_event_for_discord event
          = Some (lit "*" ++ StreamEvent.content event ++ lit "*")))
  /\ (StreamEvent.type event = lit "content_block_delta" ->
      StreamEvent.content event <> [] ->
      format_event_for_discord event = Some (StreamEvent.content event)).
Proof.
  unfold format_event_for_discord, StreamBuffer.feed, str_eqb.
  split; [|split; [|split]].
  - repeat case_bool_decide; simpl; try done;
      destruct (StreamEvent.content event); done.
  - intros [Hty|Hty]; rewrite Hty; simpl.
    + by destruct (StreamEvent.content event).
    + done.
  - intros Hty. rewrite Hty. split; [done|]. simpl.
    by destruct (StreamEvent.content event).
  - intros Hty Hcontent. rewrite Hty. simpl.
    by destruct (StreamEvent.content event).
Qed.

Lemma format_event_for_discord_agrees_witness :
  let event := StreamEvent.make (lit "error") (lit "boom") empty_object in
  StreamEvent.type event = lit "error"
  /\ format_event_for_discord event = Some (lit "**Error:** boom")
  /\ (StreamBuffer.feed StreamBuffer.init event).1
     = Some (lit "**Error:** boom").
Proof.
  intros event. split; [done|]. split; [done|].
  destruct (format_event_for_discord_agrees StreamBuffer.init event)
    as (_ & Hsame & _).
  rewrite Hsame; [done|by right].
Defined.

(** ** Where the chunking cuts *)

Section SplitFacts.

Implicit Types (s sub remaining : str).

(** [rfind] finds an occurrence, and the last one. *)
Lemma rfind_occurs s sub :
  0 <= rfind s sub ->
  startswith (drop (Z.to_nat (rfind s sub)) s) sub = true.
Proof.
  induction s as [|a s IH]; cbn [rfind].
  - destruct (startswith [] sub) eqn:E; [intros _; exact E|lia].
  - destruct (Z.leb_spec 0 (rfind s sub)) as [Hr|Hr].
    + intros _. rewrite Z2Nat.inj_add, Nat.add_1_r by lia. by apply IH.
    + destruct (startswith (a :: s) sub) eqn:E; [intros _; exact E|lia].
Qed.

Lemma rfind_highest s sub (i : nat) :
  (i <= length s)%nat -> startswith (drop i s) sub = true ->
  Z.of_nat i <= rfind s sub.
Proof.
  revert i. induction s as [|a s IH]; intros i Hi Hocc.
  - assert (i = 0%nat) as -> by (simpl in Hi; lia).
    simpl in *. by rewrite Hocc.
  - cbn [rfind]. destruct i as [|i].
    + simpl in Hocc. rewrite Hocc. pose proof (rfind_lower s sub).
      destruct (Z.leb_spec 0 (rfind s sub)); lia.
    + simpl in Hi, Hocc. specialize (IH i ltac:(lia) Hocc).
      destruct (Z.leb_spec 0 (rfind s sub)); lia.
Qed.

(** A cut right behind the last occurrence of [sub] leaves a piece that
    ends with [sub]. *)
Lemma take_behind_rfind remaining (limit : nat) sub :
  0 <= rfind (take limit remaining) sub ->
  exists pre,
    take (Z.to_nat (rfind (take limit remaining) sub
                    + Z.of_nat (length sub))) remaining
    = pre ++ sub.
Proof.
  intros Hr. set (chunk := take limit remaining) in *.
  pose proof (rfind_occurs chunk sub Hr) as Hocc.
  apply startswith_prefix in Hocc.
  destruct (rfind_range chunk sub) as [?|[_ Hfit]]; [lia|].
  set (r := Z.to_nat (rfind chunk sub)) in *.
  assert (Z.to_nat (rfind chunk sub + Z.of_nat (length sub))
          = (r + length sub)%nat) as -> by lia.
  exists (take r chunk).
  assert (r + length sub <= length chunk)%nat as Hle by lia.
  assert (take (r + length sub) remaining = take (r + length sub) chunk)
    as ->.
  { subst chunk. rewrite take_take. f_equal.
    rewrite length_take in Hle. lia. }
  rewrite <- (take_drop r chunk) at 1.
  rewrite take_app_add' by (rewrite length_take; lia).
  f_equal. rewrite Hocc. by rewrite take_app_length.
Qed.

End SplitFacts.

(** X22.  Where [chunk_for_discord] cuts a text that is longer than the
    limit: when the first [limit] characters hold a line break beyond
    their half, the piece cut off ends with a line break (the end of a
    code block, of a paragraph or of a line); when they hold none there
    but a space, the piece ends with that space; otherwise the piece is
    the first [limit] characters.  For text without fence marker this
    piece is the first one returned. *)
Theorem split_point_boundary (remaining : str) (limit : nat) :
  (limit < length remaining)%nat ->
  let chunk := take limit remaining in
  let half := Z.of_nat limit / 2 in
  let piece := take (split_point remaining limit) remaining in
  (half < rfind chunk [nl] -> last piece = Some nl)
  /\ (rfind chunk [nl] <= half -> half < rfind chunk [space] ->
      last piece = Some space)
  /\ (rfind chunk [nl] <= half -> rfind chunk [space] <= half ->
      piece = chunk)
  /\ (forall fuel pieces,
        contains remaining fence = false ->
        chunk_for_discord_fuel fuel remaining limit = Some pieces ->
        head pieces = Some piece).
Proof.
  intros Hlen chunk half piece.
  assert (0 <= half) as Hhalf by (apply Z.div_pos; lia).
  assert (length chunk = limit) as Hchunk
    by (subst chunk; rewrite length_take; lia).
  assert (rfind chunk fence_nl + 3 <= rfind chunk [nl]
          \/ rfind chunk fence_nl = -1) as Hfence.
  { destruct (rfind_range chunk fence_nl) as [?|[Hr Hfit]]; [by right|].
    left. pose proof (rfind_occurs chunk fence_nl Hr) as Hocc.
    apply startswith_prefix in Hocc.
    change (length fence_nl) with 4%nat in *.
    assert (Z.of_nat (Z.to_nat (rfind chunk fence_nl) + 3)
            <= rfind chunk [nl]); [|lia].
    apply rfind_highest; [lia|].
    rewrite <- drop_drop, Hocc. done. }
  assert (rfind chunk para + 1 <= rfind chunk [nl]
          \/ rfind chunk para = -1) as Hpara.
  { destruct (rfind_range chunk para) as [?|[Hr Hfit]]; [by right|].
    left. pose proof (rfind_occurs chunk para Hr) as Hocc.
    apply startswith_prefix in Hocc.
    change (length para) with 2%nat in *.
    assert (Z.of_nat (Z.to_nat (rfind chunk para) + 1)
            <= rfind chunk [nl]); [|lia].
    apply rfind_highest; [lia|].
    rewrite <- drop_drop, Hocc. done. }
  subst piece chunk half. split; [|split; [|split]].
  - intros Hline. unfold split_point.
    destruct (Z.ltb_spec (Z.of_nat limit / 2)
                (rfind (take limit remaining) fence_nl)).
    { destruct (take_behind_rfind remaining limit fence_nl) as [pre Hpre];
        [lia|].
      change (Z.of_nat (length fence_nl)) with 4 in Hpre. rewrite Hpre.
      unfold fence_nl. by rewrite app_assoc, last_snoc. }
    destruct (Z.ltb_spec (Z.of_nat limit / 2)
                (rfind (take limit remaining) para)).
    { destruct (take_behind_rfind remaining limit para) as [pre Hpre];
        [lia|].
      change (Z.of_nat (length para)) with 2 in Hpre. rewrite Hpre.
      change para with ([nl] ++ [nl]). by rewrite app_assoc, last_snoc. }
    rewrite (proj2 (Z.ltb_lt _ _) Hline).
    destruct (take_behind_rfind remaining limit [nl]) as [pre Hpre];
      [lia|].
    change (Z.of_nat (length [nl])) with 1 in Hpre. rewrite Hpre.
    by rewrite last_snoc.
  - intros Hline Hspace. unfold split_point.
    rewrite (proj2 (Z.ltb_ge (Z.of_nat limit / 2)
                      (rfind (take limit remaining) fence_nl))) by lia.
    rewrite (proj2 (Z.ltb_ge (Z.of_nat limit / 2)
                      (rfind (take limit remaining) para))) by lia.
    rewrite (proj2 (Z.ltb_ge _ _) Hline).
    rewrite (proj2 (Z.ltb_lt _ _) Hspace).
    destruct (take_behind_rfind remaining limit [space]) as [pre Hpre];
      [lia|].
    change (Z.of_nat (length [space])) with 1 in Hpre. rewrite Hpre.
    by rewrite last_snoc.
  - intros Hline Hspace. unfold split_point.
    rewrite (proj2 (Z.ltb_ge (Z.of_nat limit / 2)
                      (rfind (take limit remaining) fence_nl))) by lia.
    rewrite (proj2 (Z.ltb_ge (Z.of_nat limit / 2)
                      (rfind (take limit remaining) para))) by lia.
    rewrite (proj2 (Z.ltb_ge _ _) Hline).
    by rewrite (proj2 (Z.ltb_ge _ _) Hspace).
  - intros fuel pieces Hfree. unfold chunk_for_discord_fuel.
    rewrite (proj2 (Nat.leb_gt (length remaining) limit)) by done.
    rewrite chunk_loop_slices.
    destruct fuel as [|fuel]; [done|]. cbn [chunk_slices].
    destruct remaining as [|c remaining]; [simpl in Hlen; lia|].
    rewrite (proj2 (Nat.leb_gt (length (c :: remaining)) limit)) by done.
    unfold count. rewrite count_from_absent by (by apply contains_false_take).
    change (Nat.odd 0) with false. cbn iota.
    destruct (chunk_slices fuel limit _) as [rest|]; [|done].
    by intros [= <-].
Qed.

Lemma split_point_boundary_witness :
  let text := lit "abcdefg hijklm" in
  (10 < length text)%nat
  /\ rfind (take 10 text) [nl] <= 10 / 2
  /\ 10 / 2 < rfind (take 10 text) [space]
  /\ take (split_point text 10) text = lit "abcdefg "
  /\ last (take (split_point text 10) text) = Some space.
Proof.
  intros text.
  assert (10 < length text)%nat as Hlen by (vm_compute; lia).
  assert (rfind (take 10 text) [nl] <= 10 / 2) as Hline
    by (apply Z.leb_le; by vm_compute).
  assert (10 / 2 < rfind (take 10 text) [space]) as Hspace
    by (apply Z.ltb_lt; by vm_compute).
  split; [done|]. split; [done|]. split; [done|].
  split; [by vm_compute|].
  by apply (split_point_boundary text 10).
Defined.

(** ** Requests that are turned away or cut short *)

Section RejectFacts.

Implicit Types (w : world) (s : StreamSession.t).

(** What an idle session's [send_message] yields when the generator is
    cut short after [n] events. *)
Lemma send_message_interrupted s message n x w :
  StreamSession.is_busy s w = false ->
  (StreamSession.send_message s message (StreamSession.Interrupted n x)
     w).1
  = (take n (child_events (children w (next_pid w))), Raise x).
Proof.
  intros Hbusy. unfold StreamSession.send_message. rewrite Hbusy.
  cbn zeta. unfold OS.spawn, try_finally.
  set (w1 := if _ && _ then _ else _).
  assert (next_pid w1 = next_pid w /\ children w1 = children w)
    as [Hn Hc].
  { subst w1. unfold OS.symlink_to, OS.mkdir.
    repeat case_match; done. }
  erewrite read_events_child by done. simpl. by rewrite Hn, Hc.
Qed.

Lemma send_message_busy s message how w :
  StreamSession.is_busy s w = true ->
  StreamSession.send_message s message how w
  = (([], Raise StreamSession.busy_error), (s, w)).
Proof. intros Hbusy. unfold StreamSession.send_message. by rewrite Hbusy. Qed.

End RejectFacts.

(** X23.  While a user's request is running, [send_message] of the
    streaming manager returns [False], creates no task and changes
    nothing, and the user's callback, when there is one, is called once,
    with the busy notice.  [_process_message] entered for that user
    spawns nothing and leaves the running request alone: the callback is
    called once, with the busy error of the session behind the error
    prefix; the session's formatter has been reset by then. *)
Theorem stream_manager_busy (m : StreamSessionManager.t) (w : world)
    (uid message : str) (session : UserStreamSession.t) (pid : nat)
    (how : StreamSession.ending) :
  StreamSessionManager._sessions m !! uid = Some session ->
  StreamSession.process (UserStreamSession.stream session) = Some pid ->
  OS.running w pid = true ->
  let notice text :=
    match StreamSessionManager._output_callbacks m !! uid with
    | Some cb =>
        [{| cc_callback := cb; cc_user := uid; cc_chunks := [text];
            cc_status := None |}]
    | None => []
    end in
  let r := StreamSessionManager._process_message m w uid message how in
  StreamSessionManager.send_message m w uid message
  = ((false, notice StreamSessionManager.busy_msg), (m, w))
  /\ r.1
     = (Some (notice
                (lit "**Error:** Session is busy processing another request")),
        Ok ())
  /\ r.2.2 = w
  /\ exists session',
       StreamSessionManager._sessions r.2.1 !! uid = Some session'
       /\ UserStreamSession.stream session'
          = UserStreamSession.stream session
       /\ StreamOutputFormatter.get_pending
            (UserStreamSession.formatter session') = [].
Proof.
  intros Hsession Hprocess Hrunning notice r. subst notice r.
  assert (StreamSession.is_busy (UserStreamSession.stream session) w
          = true) as Hbusy
    by (unfold StreamSession.is_busy; by rewrite Hprocess).
  split.
  { unfold StreamSessionManager.send_message,
      StreamSessionManager.get_session, UserStreamSession.is_busy.
    rewrite Hsession, Hbusy.
    by destruct (StreamSessionManager._output_callbacks m !! uid). }
  unfold StreamSessionManager._process_message,
    StreamSessionManager.get_session.
  rewrite Hsession, send_message_busy by done.
  cbn [StreamSessionManager.feed_events is_Exception
       StreamSession.busy_error exn_str fst snd mbind option_bind].
  split; [|split; [done|]].
  - by destruct (StreamSessionManager._output_callbacks m !! uid).
  - eexists. split; [apply lookup_insert_eq|]. by split.
Qed.

Lemma stream_manager_busy_witness :
  let m :=
    StreamSessionManager.set_output_callback Examples.alice_busy.1
      Examples.alice 7 in
  let w := Examples.alice_busy.2 in
  OS.running w 0 = true
  /\ StreamSessionManager.send_message m w Examples.alice (lit "again")
     = ((false,
         [{| cc_callback := 7; cc_user := Examples.alice;
             cc_chunks := [StreamSessionManager.busy_msg];
             cc_status := None |}]), (m, w)).
Proof.
  intros m w. split; [by vm_compute|].
  destruct (StreamSessionManager._sessions m !! Examples.alice)
    as [session|] eqn:Hsession; [|by vm_compute in Hsession].
  assert (StreamSession.process (UserStreamSession.stream session)
          = Some 0%nat) as Hprocess.
  { vm_compute in Hsession. by injection Hsession as <-. }
  destruct (stream_manager_busy m w Examples.alice (lit "again") session
              0 StreamSession.Exhausted Hsession Hprocess)
    as (Hsend & _); [by vm_compute|].
  exact Hsend.
Defined.

(** X24.  A request of a user with an idle session and a callback that
    is cancelled after [n] events: [_process_message] passes the
    cancellation on and does not flush.  When the [n] events are neither
    assistant nor error events and no fence marker occurs in the text of
    their deltas, what the callback's calls delivered followed by what
    the session's formatter still holds is the text of those deltas;
    the calls are well formed; and the session's process handle is
    cleared. *)
Theorem process_message_cancelled (m : StreamSessionManager.t)
    (w : world) (uid message : str) (session : UserStreamSession.t)
    (cb : nat) (n : nat) :
  StreamSessionManager._sessions m !! uid = Some session ->
  StreamSessionManager._output_callbacks m !! uid = Some cb ->
  UserStreamSession.is_busy session w = false ->
  let yielded := take n (child_events (children w (next_pid w))) in
  let r :=
    StreamSessionManager._process_message m w uid message
      (StreamSession.Interrupted n CancelledError) in
  Forall plain_event yielded ->
  contains (delta_text yielded) fence = false ->
  exists calls session',
    r.1 = (Some calls, Raise CancelledError)
    /\ delivered calls
         ++ StreamOutputFormatter.get_pending
              (UserStreamSession.formatter session')
       = delta_text yielded
    /\ Forall (call_ok cb uid) calls
    /\ StreamSessionManager._sessions r.2.1 !! uid = Some session'
    /\ StreamSession.process (UserStreamSession.stream session') = None.
Proof.
  intros Hsession Hcb Hbusy yielded r Hplain Hfree. subst r.
  unfold StreamSessionManager._process_message,
    StreamSessionManager.get_session.
  rewrite Hsession, Hcb.
  pose proof (send_message_interrupted (UserStreamSession.stream session)
                message n CancelledError w Hbusy) as Hevents.
  destruct (send_message_not_busy (UserStreamSession.stream session)
              message (StreamSession.Interrupted n CancelledError) w Hbusy)
    as (evs & stream' & w' & Hsend & Hprocess & _).
  rewrite Hsend in Hevents |- *. injection Hevents as ->.
  fold yielded.
  destruct (feed_events_plain cb uid
              (StreamOutputFormatter.reset
                 (UserStreamSession.formatter session))
              yielded Hplain Hfree)
    as (calls & f' & -> & Hcalls & Hok & _).
  change (StreamOutputFormatter.get_pending
            (StreamOutputFormatter.reset
               (UserStreamSession.formatter session))) with (@nil ascii)
    in Hcalls.
  cbn [app] in Hcalls.
  exists calls,
    (UserStreamSession.with_formatter
       (UserStreamSession.with_stream session stream') f').
  cbn [is_Exception mbind option_bind fst snd].
  rewrite app_nil_r.
  split; [reflexivity|]. split; [|split; [done|split]].
  - exact Hcalls.
  - cbn. by rewrite lookup_insert_eq.
  - done.
Qed.

Lemma process_message_cancelled_witness :
  let m := Examples.alice_listening.1 in
  let w := Examples.alice_listening.2 in
  let r :=
    StreamSessionManager._process_message m w Examples.alice (lit "hi")
      (StreamSession.Interrupted 1 CancelledError) in
  exists session calls session',
    StreamSessionManager._sessions m !! Examples.alice = Some session
    /\ UserStreamSession.is_busy session w = false
    /\ r.1 = (Some calls, Raise CancelledError)
    /\ StreamSessionManager._sessions r.2.1 !! Examples.alice
       = Some session'
    /\ delivered calls
         ++ StreamOutputFormatter.get_pending
              (UserStreamSession.formatter session')
       = lit "Hello, ".
Proof.
  intros m w r.
  destruct (StreamSessionManager._sessions m !! Examples.alice)
    as [session|] eqn:Hsession; [|by vm_compute in Hsession].
  assert (UserStreamSession.is_busy session w = false) as Hbusy.
  { vm_compute in Hsession. by injection Hsession as <-. }
  destruct (process_message_cancelled m w Examples.alice (lit "hi")
              session 7 1 Hsession)
    as (calls & session' & Hrun & Hdelivered & _ & Hafter & _);
    [by vm_compute|done|..].
  - vm_compute. repeat constructor; done.
  - by vm_compute.
  - exists session, calls, session'. split; [done|]. split; [done|].
    split; [exact Hrun|]. split; [exact Hafter|].
    rewrite Hdelivered. by vm_compute.
Defined.

(** ** Parsing raw output *)

Section ParseFacts.

Implicit Types (s t : str).

(** A stripped string is empty, or begins and ends with characters that
    are not white space. *)
Lemma strip_ends s :
  strip s = []
  \/ (exists c t, strip s = c :: t /\ is_space c = false)
     /\ (exists t c, strip s = t ++ [c] /\ is_space c = false).
Proof.
  unfold strip.
  destruct (lstrip_head (rstrip s)) as [?|(c & t & Hl & Hc)]; [by left|].
  right. split; [by exists c, t|].
  destruct (lstrip_spec (rstrip s)) as (ws & Hr & _).
  destruct (rstrip_last s) as [Hnil|(s' & d & Hs' & Hd)].
  { rewrite Hnil in Hl. done. }
  assert (last (lstrip (rstrip s)) = Some d) as Hlast.
  { rewrite Hl. rewrite Hl, Hs' in Hr.
    rewrite <- (last_app_cons ws t c), <- Hr. apply last_snoc. }
  apply last_Some in Hlast as [t' Ht']. by exists t', d.
Qed.

Lemma strip_strip s : strip (strip s) = strip s.
Proof.
  destruct (strip_ends s) as [->|[(c & t & Hct & Hc) (t' & d & Htd & Hd)]];
    [done|].
  unfold strip at 1. rewrite Htd at 1. rewrite rstrip_snoc_solid by done.
  rewrite <- Htd, Hct. simpl. by rewrite Hc.
Qed.

Lemma strip_sublist s : strip s `sublist_of` s.
Proof.
  destruct (strip_spec s) as (ws1 & ws2 & Hs & _). rewrite Hs at 2.
  apply sublist_inserts_l, sublist_inserts_r. done.
Qed.

Lemma strip_plain_text s :
  OutputText.esc ∉ s -> OutputText.strip_ansi s = s.
Proof.
  intros Hplain. unfold OutputText.strip_ansi.
  rewrite (sub_empty_plain OutputText.ANSI_ESCAPE)
    by (done || apply ANSI_ESCAPE_esc_led).
  by apply sub_empty_plain; [apply ANSI_OSC_esc_led|].
Qed.

Lemma strip_ansi_sublist s : OutputText.strip_ansi s `sublist_of` s.
Proof. unfold OutputText.strip_ansi. etrans; apply sub_empty_sublist. Qed.

Lemma remove_all_sublist k s old :
  ParseOutput.remove_all k s old `sublist_of` s.
Proof.
  revert k. induction s as [|c s IH]; intros k; [done|].
  cbn [ParseOutput.remove_all]. destruct k as [|k].
  - destruct (startswith _ _); [by apply sublist_cons|by apply sublist_skip].
  - by apply sublist_cons.
Qed.

Lemma last_cursor_plain s :
  OutputText.esc ∉ s -> ParseOutput.last_cursor 0 s None = None.
Proof.
  induction s as [|c s IH]; [done|].
  intros [Hc Hs]%not_elem_of_cons. cbn [ParseOutput.last_cursor].
  assert (ParseOutput.ANSI_CURSOR_POSITION (c :: s) = None) as ->.
  { unfold ParseOutput.ANSI_CURSOR_POSITION. destruct s as [|b s]; [done|].
    destruct (Ascii.eqb_spec c OutputText.esc); [by subst|done]. }
  by apply IH.
Qed.

End ParseFacts.

(** X25.  [parse_output] keeps the raw data; its content has neither
    leading nor trailing white space and is the decoded text with some
    characters taken out, in the same order; a status line, when one is
    given, is not empty and has neither leading nor trailing white
    space; and for text without ESC the content is the stripped text and
    there is no status line. *)
Theorem parse_output_shape (decode : str -> str) (data : str) :
  let parsed := ParseOutput.parse_output decode data in
  po_raw parsed = data
  /\ strip (po_content parsed) = po_content parsed
  /\ po_content parsed `sublist_of` decode data
  /\ (forall statusbar,
        po_statusbar parsed = Some statusbar ->
        statusbar <> [] /\ strip statusbar = statusbar)
  /\ (OutputText.esc ∉ decode data ->
      po_content parsed = strip (decode data)
      /\ po_statusbar parsed = None).
Proof.
  intros parsed. subst parsed. unfold ParseOutput.parse_output.
  set (text := decode data).
  split; [|split; [|split; [|split]]].
  - by repeat case_match.
  - repeat case_match; simplify_eq; apply strip_strip.
  - assert (forall t, t `sublist_of` OutputText.strip_ansi text ->
                      strip t `sublist_of` text) as Hsub.
    { intros t Ht. etrans; [apply strip_sublist|].
      etrans; [exact Ht|apply strip_ansi_sublist]. }
    repeat case_match; simplify_eq; cbn [po_content]; apply Hsub;
      try done.
    etrans; [apply strip_sublist|apply remove_all_sublist].
  - intros statusbar.
    repeat case_match; simplify_eq; cbn [po_statusbar]; try done.
    intros [= <-]. split; [by intros E; rewrite E in *|].
    match goal with H : strip _ = _ :: _ |- _ => rewrite <- H end.
    apply strip_strip.
  - intros Hplain. rewrite last_cursor_plain by done. cbn.
    by rewrite strip_plain_text.
Qed.

Lemma parse_output_shape_witness :
  let data := lit "  hi there  " in
  (OutputText.esc ∉ id data)
  /\ po_content (ParseOutput.parse_output id data) = lit "hi there"
  /\ po_statusbar (ParseOutput.parse_output id data) = None.
Proof.
  intros data.
  assert (OutputText.esc ∉ id data) as Hplain.
  { intros Hin. vm_compute in Hin.
    repeat (apply elem_of_cons in Hin as [?|Hin]; [done|]).
    by apply elem_of_nil in Hin. }
  split; [done|].
  destruct (parse_output_shape id data) as (_ & _ & _ & _ & Hshape).
  destruct (Hshape Hplain) as [-> ->]. by vm_compute.
Defined.

Example parse_output_statusbar :
  let parsed :=
    ParseOutput.parse_output id
      (lit "hello" ++ OutputText.esc :: lit "[36;1H tokens: 5 ") in
  po_content parsed = lit "hello"
  /\ po_statusbar parsed = Some (lit "tokens: 5").
Proof. by vm_compute. Qed.

(** The status text is taken out of the content once, from the left;
    what the removal leaves may hold it again. *)
Example parse_output_statusbar_left :
  let parsed :=
    ParseOutput.parse_output id
      (lit "aabb" ++ OutputText.esc :: lit "[40;1Hab") in
  po_content parsed = lit "ab" /\ po_statusbar parsed = Some (lit "ab").
Proof. by vm_compute. Qed.
